(** * Wuffle search filters: a shallow embedding of [Search.js]

    [packages/app/lib/apps/search/Search.js] turns a parsed search
    expression into a predicate over issue and pull request records.  The
    records are untyped JavaScript objects, and several of the matchers read
    nested fields without checking them, so the embedding keeps the dynamic
    typing: records are values of a JSON-like type, every operation that can
    raise an exception in JavaScript returns in an error monad, and the
    [try { ... } catch] of the compiled predicate is written out together
    with the log record it emits.

    The functions the module imports ([parseSearch], [parseTemporalFilter],
    [issueIdent], the link types) and the store it is constructed with are
    parameters of the development.  Numbers are integral, strings are
    sequences of Latin-1 code units, and a date is its time value in
    milliseconds. *)

(** The same values serve for
    [packages/app/lib/apps/board-api-routes/board-api-filters.js], which
    copies out of a record what the board may see.  Its functions are
    embedded in the module [BoardApiFilters]; the last parts of the
    development are about them, about the order of normalized dates, and
    about searching what these functions return. *)

From Stdlib Require Import String Ascii List ZArith Bool Lia Permutation.
From Stdlib Require Import DecimalString.
Import ListNotations.

#[local] Set Warnings "-register-all".

Local Open Scope list_scope.
Local Open Scope string_scope.

(** ** JavaScript values *)

(** Records are plain data, as they come out of the store: [undefined],
    [null], booleans, numbers, strings, arrays and objects with own data
    properties.  [VNum n] is the integral Number [n] (issue numbers and
    array lengths), and beyond 2^53, where not every integer is a Number,
    the Number nearest to [n]; a string is its sequence of code units,
    taken from the Latin-1 range.  An object is the list of its own properties, the first
    binding of a name being the one in force. *)
Inductive jsval : Type :=
| VUndefined
| VNull
| VBool (b : bool)
| VNum (n : Z)
| VStr (s : string)
| VArr (items : list jsval)
| VObj (props : list (string * jsval)).

(** The two kinds of exception the module can meet. *)
Inductive error : Type :=
| TypeError
| RangeError.

Inductive result (A : Type) : Type :=
| Ok (a : A)
| Throw (e : error).

Arguments Ok {A} a.
Arguments Throw {A} e.

Definition bind {A B : Type} (r : result A) (k : A -> result B) : result B :=
  match r with
  | Ok a => k a
  | Throw e => Throw e
  end.

Notation "x <- r ;; k" := (bind r (fun x => k))
  (at level 61, r at next level, right associativity).

(** What an expression can evaluate to when a property is looked up under a
    computed name: a data value, or one of the built-in objects every object
    inherits from [Object.prototype] (its methods, or the prototype itself
    for [__proto__]).  The built-ins are never stored in a record; the code
    only tests them for truthiness. *)
Inductive answer : Type :=
| Data (v : jsval)
| Native.

(** [ToBoolean]. *)
Definition truthy (v : jsval) : bool :=
  match v with
  | VUndefined | VNull => false
  | VBool b => b
  | VNum n => negb (Z.eqb n 0)
  | VStr s => negb (String.eqb s "")
  | VArr _ | VObj _ => true
  end.

Definition toBoolean (a : answer) : bool :=
  match a with
  | Data v => truthy v
  | Native => true
  end.

Fixpoint lookup (p : string) (props : list (string * jsval)) : option jsval :=
  match props with
  | [] => None
  | (k, v) :: rest => if String.eqb k p then Some v else lookup p rest
  end.

Definition hasOwn (p : string) (props : list (string * jsval)) : bool :=
  match lookup p props with
  | Some _ => true
  | None => false
  end.

(** [v.p] for the property names the module spells out ([key], [user],
    [login], [comments], [length], ...).  None of them is defined on a
    built-in prototype, except [length] on arrays and strings.  Reading a
    property of [undefined] or [null] throws. *)
Definition get (v : jsval) (p : string) : result jsval :=
  match v with
  | VUndefined | VNull => Throw TypeError
  | VObj props =>
      match lookup p props with
      | Some x => Ok x
      | None => Ok VUndefined
      end
  | VArr items =>
      if String.eqb p "length" then Ok (VNum (Z.of_nat (List.length items)))
      else Ok VUndefined
  | VStr s =>
      if String.eqb p "length" then Ok (VNum (Z.of_nat (String.length s)))
      else Ok VUndefined
  | VBool _ | VNum _ => Ok VUndefined
  end.

(** The names every ordinary object inherits from [Object.prototype]. *)
Definition objectPrototypeNames : list string :=
  [ "constructor"; "hasOwnProperty"; "isPrototypeOf"; "propertyIsEnumerable";
    "toLocaleString"; "toString"; "valueOf"; "__proto__";
    "__defineGetter__"; "__defineSetter__";
    "__lookupGetter__"; "__lookupSetter__" ].

Definition inherited (p : string) : bool :=
  existsb (String.eqb p) objectPrototypeNames.

Definition isArray (v : jsval) : bool :=
  match v with
  | VArr _ => true
  | _ => false
  end.

(** [a === s] against a string. *)
Definition strictEqStr (a : jsval) (s : string) : bool :=
  match a with
  | VStr t => String.eqb t s
  | _ => false
  end.

(** [a === n] against a number. *)
Definition strictEqNum (a : jsval) (n : Z) : bool :=
  match a with
  | VNum m => Z.eqb m n
  | _ => false
  end.

(** ** Strings *)

(** [String.prototype.toLowerCase] on Latin-1 code units: [A-Z] and the
    accented capitals U+00C0..U+00DE (U+00D7, the multiplication sign,
    excepted) move up by 32. *)
Definition lowerChar (c : ascii) : ascii :=
  let n := nat_of_ascii c in
  if (Nat.leb 65 n && Nat.leb n 90)%bool then ascii_of_nat (n + 32)
  else if (Nat.leb 192 n && Nat.leb n 222 && negb (Nat.eqb n 215))%bool
       then ascii_of_nat (n + 32)
  else c.

Fixpoint lower (s : string) : string :=
  match s with
  | EmptyString => EmptyString
  | String c rest => String (lowerChar c) (lower rest)
  end.

(** [actual.toLowerCase()] on an arbitrary value: only strings have the
    method. *)
Definition toLowerCase (actual : jsval) : result string :=
  match actual with
  | VStr s => Ok (lower s)
  | _ => Throw TypeError
  end.

(** [s.startsWith(p)]. *)
Definition startsWith (s p : string) : bool := String.prefix p s.

(** [s.includes(p)]. *)
Fixpoint strIncludes (s p : string) : bool :=
  if String.prefix p s then true
  else match s with
       | EmptyString => false
       | String _ rest => strIncludes rest p
       end.

(** The decimal digits of an integer. *)
Definition decimal (n : Z) : string :=
  NilZero.string_of_int (Z.to_int n).

(** The Number a natural number from 2^53 on stands for: the nearest
    double, a tie going to the even significand; [None] is [Infinity].  A
    double from 2^53 on is a significand of 53 bits shifted to the left. *)
Definition numberValue (a : Z) : option Z :=
  if (a <? 9007199254740992)%Z then Some a
  else
    let shift := (Z.log2 a - 52)%Z in
    let m := Z.shiftr a shift in
    let r := (a - Z.shiftl m shift)%Z in
    let half := Z.shiftl 1 (shift - 1) in
    let m' := if ((half <? r) || ((r =? half) && Z.odd m))%Z%bool
              then (m + 1)%Z else m in
    if (Z.log2 (Z.shiftl m' shift) <? 1024)%Z then Some (Z.shiftl m' shift)
    else None.

(** Whether the integer [d] is read as the double [v]: it lies between the
    midpoints to the neighbours of [v], a midpoint counting when the
    significand of [v] is even.  The double below a power of two is half
    as far as the one above.  Both sides are doubled. *)
Definition roundsTo (v : Z) (d : Z) : bool :=
  let sh := (Z.log2 v - 52)%Z in
  let m := Z.shiftr v sh in
  let below := if (m =? 4503599627370496)%Z then Z.shiftl 1 (sh - 1)
               else Z.shiftl 1 sh in
  let low := (2 * v - below)%Z in
  let high := (2 * v + Z.shiftl 1 sh)%Z in
  ((low <? 2 * d) && (2 * d <? high)
   || (Z.even m && ((2 * d =? low) || (2 * d =? high))))%Z%bool.

(** The digits [s] and the power [j] of [Number::toString]: [s * 10^j] is
    read as [v] with [s] as short as can be, the nearest to [v] when two
    are as short, and the even one when they are as near. *)
Fixpoint shortest (j : nat) (v : Z) : Z * nat :=
  match j with
  | O => (v, O)
  | S j' =>
      let p := (10 ^ Z.of_nat j)%Z in
      let lo := (v / p)%Z in
      let hi := (lo + 1)%Z in
      let okLo := ((0 <? lo)%Z && roundsTo v (lo * p))%bool in
      let okHi := roundsTo v (hi * p) in
      if (okLo && okHi)%bool
      then if (v - lo * p <? hi * p - v)%Z then (lo, j)
           else if (hi * p - v <? v - lo * p)%Z then (hi, j)
           else if Z.even lo then (lo, j) else (hi, j)
      else if okLo then (lo, j)
      else if okHi then (hi, j)
      else shortest j' v
  end.

Fixpoint zeros (n : nat) : string :=
  match n with
  | O => ""
  | S n' => String "0" (zeros n')
  end.

(** [Number::toString] from 2^53 on: the digits and the zeros up to 21
    places, an exponent beyond. *)
Definition largeToString (a : Z) : string :=
  match numberValue a with
  | None => "Infinity"
  | Some v =>
      let '(s, j) := shortest (String.length (decimal v)) v in
      let digits := decimal s in
      let n := (String.length digits + j)%nat in
      if Nat.leb n 21 then digits ++ zeros j
      else
        match digits with
        | String c "" => String c "" ++ "e+" ++ decimal (Z.of_nat (n - 1))
        | String c rest =>
            String c ("." ++ rest) ++ "e+" ++ decimal (Z.of_nat (n - 1))
        | "" => ""
        end
  end.

(** [ToString] of the Number an integer stands for: its decimal digits
    below 2^53 in absolute value. *)
Definition numberToString (n : Z) : string :=
  if (Z.abs n <? 9007199254740992)%Z then decimal n
  else if (n <? 0)%Z then "-" ++ largeToString (- n)
  else largeToString n.

(** [ToString], as a template literal or a computed property name applies
    it.  A plain object prints as [[object Object]] through the inherited
    [toString]; an own data property of that name hides the method, and
    since the inherited [valueOf] only returns the object again the
    conversion then throws.  An array joins its elements with commas,
    [undefined] and [null] printing as nothing. *)
Fixpoint toString (v : jsval) : result string :=
  match v with
  | VUndefined => Ok "undefined"
  | VNull => Ok "null"
  | VBool true => Ok "true"
  | VBool false => Ok "false"
  | VNum n => Ok (numberToString n)
  | VStr s => Ok s
  | VArr items =>
      (fix join (l : list jsval) : result string :=
         match l with
         | [] => Ok ""
         | x :: rest =>
             s <- match x with
                  | VUndefined | VNull => Ok ""
                  | _ => toString x
                  end ;;
             match rest with
             | [] => Ok s
             | _ => r <- join rest ;; Ok (s ++ "," ++ r)
             end
         end) items
  | VObj props =>
      if hasOwn "toString" props then Throw TypeError
      else Ok "[object Object]"
  end.

(** [ToPrimitive] with hint number: primitives stay, objects and arrays go
    through [valueOf] (which returns the object itself) to [toString]. *)
Definition toPrimitive (v : jsval) : result jsval :=
  match v with
  | VArr _ | VObj _ => s <- toString v ;; Ok (VStr s)
  | _ => Ok v
  end.

Inductive comparator : Type := Gt | Ge | Lt | Le.

Definition compareStrings (c : comparator) (a b : string) : bool :=
  match c with
  | Gt => String.ltb b a
  | Ge => String.leb b a
  | Lt => String.ltb a b
  | Le => String.leb a b
  end.

(** [a > iso], [a >= iso], [a < iso], [a <= iso] where the right operand is
    the output of [toISOString].  Two strings compare by code units.  In
    every other case both sides are converted to numbers, the ISO string
    becomes [NaN], and all four comparisons are false. *)
Definition compareWithISO (c : comparator) (a : jsval) (iso : string)
  : result bool :=
  p <- toPrimitive a ;;
  match p with
  | VStr s => Ok (compareStrings c s iso)
  | _ => Ok false
  end.

(** ** Dates *)

Definition msPerDay : Z := 86400000.

(** Year, month and day of a day number counted from 1970-01-01, in the
    proleptic Gregorian calendar. *)
Definition civilFromDays (days : Z) : Z * Z * Z :=
  let z := (days + 719468)%Z in
  let era := (z / 146097)%Z in
  let doe := (z - era * 146097)%Z in
  let yoe := ((doe - doe / 1460 + doe / 36524 - doe / 146096) / 365)%Z in
  let doy := (doe - (365 * yoe + yoe / 4 - yoe / 100))%Z in
  let mp := ((5 * doy + 2) / 153)%Z in
  let d := (doy - (153 * mp + 2) / 5 + 1)%Z in
  let m := (if Z.ltb mp 10 then mp + 3 else mp - 9)%Z in
  let y := (yoe + era * 400 + (if Z.leb m 2 then 1 else 0))%Z in
  (y, m, d).

Fixpoint padDigits (width : nat) (n : Z) : string :=
  match width with
  | O => ""
  | S w =>
      padDigits w (n / 10)
      ++ String (ascii_of_nat (48 + Z.to_nat (n mod 10))) ""
  end.

Definition isoYear (y : Z) : string :=
  if (Z.leb 0 y && Z.leb y 9999)%bool then padDigits 4 y
  else if Z.ltb y 0 then "-" ++ padDigits 6 (- y)
  else "+" ++ padDigits 6 y.

(** [new Date(date).toISOString()].  The argument is the time value of
    [new Date(date)] in milliseconds since the epoch, [None] for an invalid
    date; an invalid date, or one beyond the range of time values, makes
    [toISOString] throw a [RangeError]. *)
Definition toISOString (t : option Z) : result string :=
  match t with
  | None => Throw RangeError
  | Some ms =>
      if (Z.ltb 8640000000000000 (Z.abs ms))%Z then Throw RangeError
      else
        let day := (ms / msPerDay)%Z in
        let tod := (ms mod msPerDay)%Z in
        let '(y, m, d) := civilFromDays day in
        Ok (isoYear y ++ "-" ++ padDigits 2 m ++ "-" ++ padDigits 2 d
            ++ "T" ++ padDigits 2 (tod / 3600000)
            ++ ":" ++ padDigits 2 ((tod / 60000) mod 60)
            ++ ":" ++ padDigits 2 ((tod / 1000) mod 60)
            ++ "." ++ padDigits 3 (tod mod 1000) ++ "Z")
  end.

(** The instants of the years 0000 to 9999, which [toISOString] prints
    with a year of four digits: from 0000-01-01T00:00:00.000Z to
    9999-12-31T23:59:59.999Z. *)
Definition fourDigitYear (ms : Z) : bool :=
  ((-62167219200000 <=? ms) && (ms <=? 253402300799999))%Z.

(** The date and the time of day to the second, as [toISOString] prints
    them. *)
Definition isoSeconds (ms : Z) : string :=
  let day := (ms / msPerDay)%Z in
  let tod := (ms mod msPerDay)%Z in
  let '(y, m, d) := civilFromDays day in
  isoYear y ++ "-" ++ padDigits 2 m ++ "-" ++ padDigits 2 d
  ++ "T" ++ padDigits 2 (tod / 3600000)
  ++ ":" ++ padDigits 2 ((tod / 60000) mod 60)
  ++ ":" ++ padDigits 2 ((tod / 1000) mod 60).

(** The timestamp of a record of GitHub's API: seconds, no milliseconds. *)
Definition githubTimestamp (ms : Z) : string := isoSeconds ms ++ "Z".

(** The instant a timestamp of the store denotes.  The records carry the
    timestamps of the GitHub API, [YYYY-MM-DDTHH:MM:SSZ], with seconds and
    no milliseconds; [instantOf] reads one as milliseconds since the epoch.
    The module does not do this: it is here to say which instant a stored
    string stands for. *)
Fixpoint digitsValue (acc : Z) (s : string) : option Z :=
  match s with
  | EmptyString => Some acc
  | String c rest =>
      let n := nat_of_ascii c in
      if (Nat.leb 48 n && Nat.leb n 57)%bool
      then digitsValue (acc * 10 + Z.of_nat (n - 48)) rest
      else None
  end.

Definition daysFromCivil (y m d : Z) : Z :=
  let y := (if Z.leb m 2 then y - 1 else y)%Z in
  let era := (y / 400)%Z in
  let yoe := (y - era * 400)%Z in
  let mp := (if Z.ltb 2 m then m - 3 else m + 9)%Z in
  let doy := ((153 * mp + 2) / 5 + d - 1)%Z in
  let doe := (yoe * 365 + yoe / 4 - yoe / 100 + doy)%Z in
  (era * 146097 + doe - 719468)%Z.

Definition instantOf (s : string) : option Z :=
  if negb (String.eqb (substring 4 1 s ++ substring 7 1 s ++ substring 10 1 s
                       ++ substring 13 1 s ++ substring 16 1 s
                       ++ substring 19 2 s) "--T::Z")
  then None
  else
    match digitsValue 0 (substring 0 4 s), digitsValue 0 (substring 5 2 s),
          digitsValue 0 (substring 8 2 s), digitsValue 0 (substring 11 2 s),
          digitsValue 0 (substring 14 2 s), digitsValue 0 (substring 17 2 s)
    with
    | Some y, Some m, Some d, Some h, Some mi, Some sec =>
        Some ((daysFromCivil y m d * msPerDay
               + h * 3600000 + mi * 60000 + sec * 1000)%Z)
    | _, _, _, _, _, _ => None
    end.

(** ** Arrays *)

(** [left || []]. *)
Definition orEmpty (v : jsval) : jsval :=
  if truthy v then v else VArr [].

Fixpoint someItems (cb : jsval -> result answer) (l : list jsval)
  : result bool :=
  match l with
  | [] => Ok false
  | x :: rest =>
      r <- cb x ;;
      if toBoolean r then Ok true else someItems cb rest
  end.

(** [v.some(cb)]: only arrays have the method; it stops at the first
    element the callback accepts, and a throwing callback ends it. *)
Definition some (v : jsval) (cb : jsval -> result answer) : result jsval :=
  match v with
  | VArr items => b <- someItems cb items ;; Ok (VBool b)
  | _ => Throw TypeError
  end.

(** ** Terms, users, log records *)

(** A term of the parsed search, [{ qualifier, value, negated }]; a missing
    value is [None]. *)
Record Term : Type := {
  qualifier : string;
  value : option string;
  negated : bool
}.

(** The result of [parseTemporalFilter], [{ date, qualifier }].  [tf_date]
    is the time value [new Date(date)] has; [tf_qualifier] is the
    comparator, [None] when there is none. *)
Record TemporalFilter : Type := {
  tf_date : option Z;
  tf_qualifier : option string
}.

Record GitHubUser : Type := {
  login : string
}.

(** What [log.warn({ issue, err }, 'filter failed')] hands to the logger. *)
Record LogEntry : Type := {
  log_issue : jsval;
  log_err : error;
  log_msg : string
}.

(** A matcher, as the factories return it. *)
Definition filter : Type := jsval -> result answer.

(** The function [getSearchFilter] returns; the log is threaded through. *)
Definition predicate : Type :=
  jsval -> list LogEntry -> result jsval * list LogEntry.

Definition filterNoop : filter := fun issue => Ok (Data (VBool true)).

Definition filterReject : filter := fun issue => Ok (Data (VBool false)).

Definition noopFilter : filter := filterNoop.

Definition noneFilter : filter := filterReject.

(** [pattern && actual.toLowerCase().includes(pattern.toLowerCase())]. *)
Definition includes (actual : jsval) (pattern : string) : result answer :=
  if String.eqb pattern "" then Ok (Data (VStr pattern))
  else a <- toLowerCase actual ;;
       Ok (Data (VBool (strIncludes a (lower pattern)))).

(** [pattern && actual.toLowerCase().startsWith(pattern.toLowerCase())]. *)
Definition fuzzyMatches (actual : jsval) (pattern : string) : result answer :=
  if String.eqb pattern "" then Ok (Data (VStr pattern))
  else a <- toLowerCase actual ;;
       Ok (Data (VBool (startsWith a (lower pattern)))).

Definition newline : string := String (ascii_of_nat 10) "".

(** [text]. *)
Definition textFilter (text : string) : filter :=
  let text := lower text in
  fun issue =>
    number <- get issue "number" ;;
    n <- toString number ;;
    title <- get issue "title" ;;
    t <- toString title ;;
    body <- get issue "body" ;;
    b <- toString body ;;
    let issueText := "#" ++ n ++ " " ++ t ++ newline ++ newline ++ b in
    includes (VStr issueText) text.

(** A lookup [table[p]] in an object literal whose own properties are all
    [true]: an own name gives [true], a name of [Object.prototype] gives the
    inherited built-in, anything else [undefined]. *)
Definition lookupFlag (own : list string) (p : string) : answer :=
  if existsb (String.eqb p) own then Data (VBool true)
  else if inherited p then Native
  else Data VUndefined.

(** The [reduce] of [referenceFilter]: [keyed[link.target.key] = true] for
    every link.  Assigning to [__proto__] sets no own property. *)
Fixpoint keyLinks (keyed : list string) (links : list jsval)
  : result (list string) :=
  match links with
  | [] => Ok keyed
  | link :: rest =>
      target <- get link "target" ;;
      key <- get target "key" ;;
      p <- toString key ;;
      keyLinks (if String.eqb p "__proto__" then keyed else p :: keyed) rest
  end.

(** [is:assigned] and the other cases of [isFilter] that need no
    collaborator. *)
Definition filterAssigned : filter := fun issue =>
  assignees <- get issue "assignees" ;;
  len <- get assignees "length" ;;
  Ok (Data len).

Definition filterUnassigned : filter := fun issue =>
  assignees <- get issue "assignees" ;;
  len <- get assignees "length" ;;
  Ok (Data (VBool (strictEqNum len 0))).

Definition filterClosed : filter := fun issue =>
  state <- get issue "state" ;;
  Ok (Data (VBool (strictEqStr state "closed"))).

Definition filterOpen : filter := fun issue =>
  state <- get issue "state" ;;
  Ok (Data (VBool (strictEqStr state "open"))).

Definition filterIssue : filter := fun issue =>
  pull_request <- get issue "pull_request" ;;
  Ok (Data (VBool (negb (truthy pull_request)))).

Definition filterPull : filter := fun issue =>
  pull_request <- get issue "pull_request" ;;
  Ok (Data pull_request).

Definition filterMilestoned : filter := fun issue =>
  milestone <- get issue "milestone" ;;
  Ok (Data (VBool (truthy milestone))).

(** [label]. *)
Definition labelFilter (name : string) : filter := fun issue =>
  labels <- get issue "labels" ;;
  r <- some (orEmpty labels)
         (fun label => n <- get label "name" ;; includes n name) ;;
  Ok (Data r).

(** [repo]. *)
Definition repoFilter (name : string) : filter := fun issue =>
  repository <- get issue "repository" ;;
  owner <- get repository "owner" ;;
  ownerLogin <- get owner "login" ;;
  o <- toString ownerLogin ;;
  repoName <- get repository "name" ;;
  r <- toString repoName ;;
  includes (VStr (o ++ "/" ++ r)) name.

(** [milestone]. *)
Definition milestoneFilter (name : string) : filter := fun issue =>
  milestone <- get issue "milestone" ;;
  if truthy milestone
  then title <- get milestone "title" ;; fuzzyMatches title name
  else Ok (Data milestone).

(** [author]. *)
Definition authorFilter (name : string) : filter := fun issue =>
  user <- get issue "user" ;;
  if truthy user
  then l <- get user "login" ;; fuzzyMatches l name
  else Ok (Data user).

(** [assignee]. *)
Definition assigneeFilter (name : string) : filter := fun issue =>
  assignees <- get issue "assignees" ;;
  r <- some (orEmpty assignees)
         (fun assignee => l <- get assignee "login" ;; fuzzyMatches l name) ;;
  Ok (Data r).

(** [reviewer]. *)
Definition reviewerFilter (name : string) : filter := fun issue =>
  requested_reviewers <- get issue "requested_reviewers" ;;
  reviews <- get issue "reviews" ;;
  if negb (truthy requested_reviewers) then Ok (Data (VBool false))
  else
    requested <- some requested_reviewers
                   (fun reviewer =>
                      l <- get reviewer "login" ;; fuzzyMatches l name) ;;
    if truthy requested then Ok (Data requested)
    else
      reviewed <- some (orEmpty reviews)
                    (fun review =>
                       user <- get review "user" ;;
                       l <- get user "login" ;;
                       fuzzyMatches l name) ;;
      Ok (Data reviewed).

(** [commented]. *)
Definition commentedFilter (name : string) : filter := fun issue =>
  comments <- get issue "comments" ;;
  if negb (isArray comments) then Ok (Data (VBool false))
  else
    r <- some comments
           (fun comment =>
              user <- get comment "user" ;;
              l <- get user "login" ;;
              fuzzyMatches l name) ;;
    Ok (Data r).

(** [involves]. *)
Definition involvesFilter (name : string) : filter :=
  let isAssigned := assigneeFilter name in
  let isAuthor := authorFilter name in
  let isReviewer := reviewerFilter name in
  let hasCommented := commentedFilter name in
  fun issue =>
    a <- isAssigned issue ;;
    if toBoolean a then Ok a
    else
      b <- isAuthor issue ;;
      if toBoolean b then Ok b
      else
        c <- isReviewer issue ;;
        if toBoolean c then Ok c
        else hasCommented issue.

Definition filterCreated (matchTemporal : jsval -> result answer) : filter :=
  fun issue =>
    created_at <- get issue "created_at" ;;
    matchTemporal created_at.

Definition filterUpdated (matchTemporal : jsval -> result answer) : filter :=
  fun issue =>
    updated_at <- get issue "updated_at" ;;
    matchTemporal updated_at.

(** The [switch (qualifier)] of [matchTemporal]. *)
Definition comparatorOf (q : option string) : option comparator :=
  match q with
  | None => None
  | Some s =>
      if String.eqb s ">" then Some Gt
      else if String.eqb s ">=" then Some Ge
      else if String.eqb s "<" then Some Lt
      else if String.eqb s "<=" then Some Le
      else None
  end.

Definition matchTemporal (q : option string) (dateString : string)
  : jsval -> result answer :=
  fun otherDateString =>
    match comparatorOf q with
    | Some c =>
        b <- compareWithISO c otherDateString dateString ;;
        Ok (Data (VBool b))
    | None => Ok (Data (VBool true))
    end.

(** [fn] is not a function: calling it throws. *)
Definition notCallable : filter := fun _ => Throw TypeError.

(** [factoryFn(value)] when [filters[qualifier]] found no own property but a
    member of [Object.prototype].  The call passes no receiver.  [Object]
    wraps the string, [toString] prints [[object Undefined]] and
    [isPrototypeOf] answers [false] for a primitive: each returns something
    that is not a function.  The other methods convert the missing receiver
    to an object first, and [__proto__] yields the prototype object, which
    cannot be called: these throw at once. *)
Definition callInherited (name : string) (v : string) : result filter :=
  if (String.eqb name "constructor" || String.eqb name "toString"
      || String.eqb name "isPrototypeOf")%bool
  then Ok notCallable
  else Throw TypeError.

(** [function(arg) { return !fn(arg); }]. *)
Definition negate (fn : filter) : filter := fun arg =>
  r <- fn arg ;;
  Ok (Data (VBool (negb (toBoolean r)))).

(** [filterFns.every(fn => fn(issue))]. *)
Fixpoint every (filterFns : list filter) (issue : jsval) : result bool :=
  match filterFns with
  | [] => Ok true
  | fn :: rest =>
      r <- fn issue ;;
      if toBoolean r then every rest issue else Ok false
  end.

(** [terms.map(...)]: the first factory that throws ends the map. *)
Fixpoint mapM {A B : Type} (f : A -> result B) (l : list A)
  : result (list B) :=
  match l with
  | [] => Ok []
  | x :: rest => y <- f x ;; ys <- mapM f rest ;; Ok (y :: ys)
  end.

(** [!value]. *)
Definition noValue (v : option string) : bool :=
  match v with
  | None => true
  | Some s => String.eqb s ""
  end.

(** The [@me] rule: the value a term is compiled with, or [None] when it
    is [@me] and there is no user. *)
Definition substituteMe (user : option GitHubUser) (v : string)
  : option string :=
  if String.eqb v "@me" then option_map login user else Some v.

Definition nullish (v : jsval) : bool :=
  match v with
  | VUndefined | VNull => true
  | _ => false
  end.

(** The login of a comment's author, when the comment has a user and the
    user a string login. *)
Definition commentAuthor (comment : jsval) : option string :=
  match get comment "user" with
  | Ok user =>
      match get user "login" with
      | Ok (VStr l) => Some l
      | _ => None
      end
  | Throw _ => None
  end.

(** [login] starts with [name], case set aside. *)
Definition startsWithNoCase (l name : string) : bool :=
  startsWith (lower l) (lower name).

(** The comment has an author whose login starts with [name]. *)
Definition commentMatches (name : string) (comment : jsval) : bool :=
  match commentAuthor comment with
  | Some l => startsWithNoCase l name
  | None => false
  end.

(** The record a failed evaluation leaves in the log. *)
Definition failure (ident : jsval) (e : error) : LogEntry :=
  {| log_issue := ident; log_err := e; log_msg := "filter failed" |}.

(** The string a link's target is keyed under. *)
Definition targetKey (link : jsval) : result string :=
  target <- get link "target" ;;
  key <- get target "key" ;;
  toString key.

(** A matcher accepts a record when it returns, and returns something
    truthy. *)
Definition accepts (issue : jsval) (fn : filter) : Prop :=
  exists r, fn issue = Ok r /\ toBoolean r = true.

Definition throwsOn (issue : jsval) (fn : filter) : Prop :=
  exists e, fn issue = Throw e.

(** Two outcomes of [getSearchFilter] that cannot be told apart: both throw
    the same error, or both return predicates with the same answers and the
    same log. *)
Definition samePredicate (a b : result predicate) : Prop :=
  match a, b with
  | Ok p, Ok q => forall issue log, p issue log = q issue log
  | Throw e, Throw e' => e = e'
  | _, _ => False
  end.

(** The first binding of a name in a table. *)
Fixpoint assoc {A : Type} (k : string) (l : list (string * A)) : option A :=
  match l with
  | [] => None
  | (k', a) :: rest => if String.eqb k' k then Some a else assoc k rest
  end.

(** The qualifiers [filters] defines. *)
Definition registeredQualifiers : list string :=
  [ "text"; "ref"; "is"; "label"; "repo"; "milestone"; "author"; "assignee";
    "reviewer"; "commented"; "involves"; "created"; "updated" ].

Definition registered (q : string) : bool :=
  existsb (String.eqb q) registeredQualifiers.

(** The term [q:v], negated or not. *)
Definition mkTerm (q : string) (v : string) (n : bool) : Term :=
  {| qualifier := q; value := Some v; negated := n |}.

(** The same term with another value. *)
Definition withValue (term : Term) (v : string) : Term :=
  {| qualifier := qualifier term; value := Some v; negated := negated term |}.

(** The string under a field, when the value has one. *)
Definition stringField (p : string) (v : jsval) : option string :=
  match get v p with
  | Ok (VStr s) => Some s
  | _ => None
  end.

(** The label has a name that contains [name], case set aside. *)
Definition labelMatches (name : string) (label : jsval) : bool :=
  match stringField "name" label with
  | Some s => strIncludes (lower s) (lower name)
  | None => false
  end.

(** The user has a login that starts with [name], case set aside. *)
Definition loginMatches (name : string) (user : jsval) : bool :=
  match stringField "login" user with
  | Some l => startsWithNoCase l name
  | None => false
  end.

(** The link is of one of the two child types. *)
Definition childLink (CHILD_OF CLOSES : string) (link : jsval) : bool :=
  match stringField "type" link with
  | Some ty => (String.eqb ty CHILD_OF || String.eqb ty CLOSES)%bool
  | None => false
  end.

(** ** Sample collaborators

    A store, a tokenizer and a temporal parser to run the module on. *)

(** A tokenizer for the samples: terms are separated by spaces, a leading
    [-] negates a term, [qualifier:value] splits at the first colon, and a
    word without a colon is a [text] term. *)
Fixpoint words (s cur : string) : list string :=
  match s with
  | EmptyString => [cur]
  | String c rest =>
      if Ascii.eqb c " " then cur :: words rest ""
      else words rest (cur ++ String c "")
  end.

Fixpoint breakColon (s : string) : option (string * string) :=
  match s with
  | EmptyString => None
  | String c rest =>
      if Ascii.eqb c ":" then Some ("", rest)
      else match breakColon rest with
           | Some (q, v) => Some (String c q, v)
           | None => None
           end
  end.

Definition toTerm (w : string) : Term :=
  let (neg, body) :=
    match w with
    | String c rest => if Ascii.eqb c "-" then (true, rest) else (false, w)
    | EmptyString => (false, w)
    end in
  match breakColon body with
  | Some (q, v) =>
      {| qualifier := q;
         value := if String.eqb v "" then None else Some v;
         negated := neg |}
  | None => {| qualifier := "text"; value := Some w; negated := false |}
  end.

Definition sampleParse (search : string) : list Term :=
  map toTerm
      (List.filter (fun w => negb (String.eqb w "")) (words search "")).

(** A temporal parser that knows one date, 2023-03-01, under each
    comparator and bare. *)
Definition sampleTemporal (s : string) : option TemporalFilter :=
  let day := Some 1677628800000%Z in
  if String.eqb s ">2023-03-01"
  then Some {| tf_date := day; tf_qualifier := Some ">" |}
  else if String.eqb s ">=2023-03-01"
  then Some {| tf_date := day; tf_qualifier := Some ">=" |}
  else if String.eqb s "<2023-03-01"
  then Some {| tf_date := day; tf_qualifier := Some "<" |}
  else if String.eqb s "<=2023-03-01"
  then Some {| tf_date := day; tf_qualifier := Some "<=" |}
  else if String.eqb s "2023-03-01"
  then Some {| tf_date := day; tf_qualifier := None |}
  else None.

(** A temporal parser that lets through a date that is none. *)
Definition looseTemporal (s : string) : option TemporalFilter :=
  Some {| tf_date := None; tf_qualifier := Some ">" |}.

(** An identifier for the log: the record's [key]. *)
Definition sampleIdent (issue : jsval) : result jsval := get issue "key".

(** An identifier that reads through [repository], and so throws on a
    record that has none. *)
Definition strictIdent (issue : jsval) : result jsval :=
  repository <- get issue "repository" ;;
  get repository "name".

Definition issueWithKey (k : string) : jsval := VObj [("key", VStr k)].

(** A store with one record, [ORG/REPO#5], which links to [ORG/REPO#7]. *)
Definition sampleByKey (k : string) : jsval :=
  if String.eqb k "ORG/REPO#5" then issueWithKey "ORG/REPO#5"
  else VUndefined.

Definition sampleLinks (issue : jsval) : jsval :=
  if strictEqStr (match get issue "key" with Ok k => k | Throw _ => VNull end)
       "ORG/REPO#5"
  then VArr [ VObj [("type", VStr "PARENT_OF");
                    ("target", issueWithKey "ORG/REPO#7")] ]
  else VArr [].

(** Sample records. *)
Definition userNamed (l : string) : jsval := VObj [("login", VStr l)].

Definition issueBy (l : string) : jsval :=
  VObj [("key", VStr "ORG/REPO#1"); ("user", userNamed l)].

Definition issueCreated (at_ : string) : jsval :=
  VObj [("key", VStr "ORG/REPO#2"); ("created_at", VStr at_);
        ("updated_at", VStr at_)].

Definition issueInState (st : string) : jsval :=
  VObj [("key", VStr "ORG/REPO#3"); ("state", VStr st);
        ("labels", VArr [VObj [("name", VStr "Bug-fix")]])].

Definition commentBy (l : string) : jsval := VObj [("user", userNamed l)].

Definition ghostComment : jsval := VObj [("user", VNull)].

Definition issueWithComments (comments : list jsval) : jsval :=
  VObj [("key", VStr "ORG/REPO#4"); ("comments", VArr comments)].

(** A record that links to [ORG/REPO#5], which the sample store does not
    link back. *)
Definition issueLinkingTo5 : jsval :=
  VObj [("key", VStr "ORG/REPO#9");
        ("links", VArr [ VObj [("type", VStr "CLOSES");
                               ("target", issueWithKey "ORG/REPO#5")] ])].

Definition issueAssignedTo (l : string) : jsval :=
  VObj [("key", VStr "ORG/REPO#6"); ("assignees", VArr [userNamed l])].

Definition alice : GitHubUser := {| login := "alice" |}.

(** ** The filters of the board API

    [packages/app/lib/apps/board-api-routes/board-api-filters.js] copies
    the fields of a record that the board may see into a fresh object.  A
    link carries its target, itself an issue or a pull request, so
    [filterIssueOrPull] calls itself on the targets of the links. *)

(** How deep the arrays and objects of a value nest. *)
Fixpoint depth (v : jsval) : nat :=
  match v with
  | VArr items =>
      S ((fix deepest (l : list jsval) : nat :=
            match l with
            | [] => O
            | x :: rest => Nat.max (depth x) (deepest rest)
            end) items)
  | VObj props =>
      S ((fix deepest (l : list (string * jsval)) : nat :=
            match l with
            | [] => O
            | (_, x) :: rest => Nat.max (depth x) (deepest rest)
            end) props)
  | _ => O
  end.

Module BoardApiFilters.

(** [v.map(f)]: only arrays have the method. *)
Definition arrayMap (v : jsval) (f : jsval -> result jsval) : result jsval :=
  match v with
  | VArr items => l <- mapM f items ;; Ok (VArr l)
  | _ => Throw TypeError
  end.

(** The default [= []] of a destructuring pattern: it stands in for
    [undefined] only. *)
Definition orDefault (v : jsval) : jsval :=
  match v with
  | VUndefined => VArr []
  | _ => v
  end.

Definition filterUser (user : jsval) : result jsval :=
  login <- get user "login" ;;
  avatar_url <- get user "avatar_url" ;;
  html_url <- get user "html_url" ;;
  Ok (VObj [("login", login); ("avatar_url", avatar_url);
            ("html_url", html_url)]).

Definition filterRepository (githubRepository : jsval) : result jsval :=
  name <- get githubRepository "name" ;;
  owner <- get githubRepository "owner" ;;
  html_url <- get githubRepository "html_url" ;;
  owner' <- filterUser owner ;;
  Ok (VObj [("name", name); ("owner", owner'); ("html_url", html_url)]).

Definition filterComment (comment : jsval) : result jsval :=
  user <- get comment "user" ;;
  html_url <- get comment "html_url" ;;
  user' <- filterUser user ;;
  Ok (VObj [("user", user'); ("html_url", html_url)]).

(** [...(column_label ? { column_label } : {})]. *)
Definition filterLabel (githubLabel : jsval) : result jsval :=
  name <- get githubLabel "name" ;;
  color <- get githubLabel "color" ;;
  column_label <- get githubLabel "column_label" ;;
  Ok (VObj ([("name", name); ("color", color)]
            ++ (if truthy column_label
                then [("column_label", column_label)]
                else []))%list).

Definition filterMilestone (githubMilestone : jsval) : result jsval :=
  number <- get githubMilestone "number" ;;
  title <- get githubMilestone "title" ;;
  html_url <- get githubMilestone "html_url" ;;
  Ok (VObj [("number", number); ("title", title); ("html_url", html_url)]).

(** [x ? f(x) : null]. *)
Definition orNull (f : jsval -> result jsval) (x : jsval) : result jsval :=
  if truthy x then f x else Ok VNull.

(** [Array.isArray(comments) ? comments.map(filterComment) : []]. *)
Definition filterComments (comments : jsval) : result jsval :=
  if isArray comments then arrayMap comments filterComment
  else Ok (VArr []).

Section Recursion.

(** What [filterIssueOrPull] is inside [filterLink]. *)
Variable filterIssueOrPull : jsval -> result jsval.

Definition filterLink (link : jsval) : result jsval :=
  type <- get link "type" ;;
  target <- get link "target" ;;
  target' <- filterIssueOrPull target ;;
  Ok (VObj [("type", type); ("target", target')]).

Definition filterPull (pullRequest : jsval) : result jsval :=
  id <- get pullRequest "id" ;;
  key <- get pullRequest "key" ;;
  number <- get pullRequest "number" ;;
  state <- get pullRequest "state" ;;
  title <- get pullRequest "title" ;;
  user <- get pullRequest "user" ;;
  assignees <- get pullRequest "assignees" ;;
  requested_reviewers <- get pullRequest "requested_reviewers" ;;
  labels <- get pullRequest "labels" ;;
  milestone <- get pullRequest "milestone" ;;
  repository <- get pullRequest "repository" ;;
  draft <- get pullRequest "draft" ;;
  comments <- get pullRequest "comments" ;;
  let comments := orDefault comments in
  merged <- get pullRequest "merged" ;;
  html_url <- get pullRequest "html_url" ;;
  pull_request <- get pullRequest "pull_request" ;;
  links <- get pullRequest "links" ;;
  let links := orDefault links in
  order <- get pullRequest "order" ;;
  column <- get pullRequest "column" ;;
  user' <- orNull filterUser user ;;
  assignees' <- arrayMap assignees filterUser ;;
  requested_reviewers' <- arrayMap requested_reviewers filterUser ;;
  labels' <- arrayMap labels filterLabel ;;
  comments' <- filterComments comments ;;
  milestone' <- orNull filterMilestone milestone ;;
  repository' <- filterRepository repository ;;
  links' <- arrayMap links filterLink ;;
  Ok (VObj [("id", id); ("key", key); ("number", number); ("state", state);
            ("title", title); ("user", user'); ("assignees", assignees');
            ("requested_reviewers", requested_reviewers');
            ("labels", labels'); ("comments", comments');
            ("milestone", milestone'); ("draft", draft); ("merged", merged);
            ("repository", repository'); ("html_url", html_url);
            ("pull_request", pull_request); ("links", links');
            ("order", order); ("column", column)]).

Definition filterIssue (issue : jsval) : result jsval :=
  id <- get issue "id" ;;
  key <- get issue "key" ;;
  number <- get issue "number" ;;
  state <- get issue "state" ;;
  title <- get issue "title" ;;
  user <- get issue "user" ;;
  assignees <- get issue "assignees" ;;
  labels <- get issue "labels" ;;
  milestone <- get issue "milestone" ;;
  html_url <- get issue "html_url" ;;
  repository <- get issue "repository" ;;
  pull_request <- get issue "pull_request" ;;
  comments <- get issue "comments" ;;
  let comments := orDefault comments in
  links <- get issue "links" ;;
  let links := orDefault links in
  order <- get issue "order" ;;
  column <- get issue "column" ;;
  user' <- orNull filterUser user ;;
  assignees' <- arrayMap assignees filterUser ;;
  labels' <- arrayMap labels filterLabel ;;
  milestone' <- orNull filterMilestone milestone ;;
  repository' <- filterRepository repository ;;
  comments' <- filterComments comments ;;
  links' <- arrayMap links filterLink ;;
  Ok (VObj [("id", id); ("key", key); ("number", number); ("state", state);
            ("title", title); ("user", user'); ("assignees", assignees');
            ("labels", labels'); ("milestone", milestone');
            ("repository", repository'); ("comments", comments');
            ("pull_request", pull_request); ("html_url", html_url);
            ("links", links'); ("order", order); ("column", column)]).

(** The body of [filterIssueOrPull]. *)
Definition dispatch (issueOrPull : jsval) : result jsval :=
  pull_request <- get issueOrPull "pull_request" ;;
  if truthy pull_request then filterPull issueOrPull
  else filterIssue issueOrPull.

End Recursion.

(** [filterIssueOrPull] with a bound on the nesting of links it follows. *)
Fixpoint filterWithin (bound : nat) (issueOrPull : jsval) : result jsval :=
  match bound with
  | O => Throw TypeError
  | S n => dispatch (filterWithin n) issueOrPull
  end.

(** A target lies strictly inside the record that links to it, so the
    nesting of the record bounds the calls. *)
Definition filterIssueOrPull (issueOrPull : jsval) : result jsval :=
  filterWithin (S (depth issueOrPull)) issueOrPull.

End BoardApiFilters.

Module B := BoardApiFilters.

(** The names of the properties of what [filterIssue] and [filterPull]
    return, in the order of their object literals. *)
Definition issueFields : list string :=
  [ "id"; "key"; "number"; "state"; "title"; "user"; "assignees"; "labels";
    "milestone"; "repository"; "comments"; "pull_request"; "html_url";
    "links"; "order"; "column" ].

Definition pullFields : list string :=
  [ "id"; "key"; "number"; "state"; "title"; "user"; "assignees";
    "requested_reviewers"; "labels"; "comments"; "milestone"; "draft";
    "merged"; "repository"; "html_url"; "pull_request"; "links"; "order";
    "column" ].

(** The properties both functions hand over as they are. *)
Definition copiedFields : list string :=
  [ "id"; "key"; "number"; "state"; "title"; "html_url"; "pull_request";
    "order"; "column" ].

(** [v.p] where the read cannot throw; [undefined] where it would. *)
Definition field (p : string) (v : jsval) : jsval :=
  match get v p with
  | Ok x => x
  | Throw _ => VUndefined
  end.

Definition present (v : jsval) : bool := negb (nullish v).

(** An array whose items all pass a test. *)
Definition arrayOf (ok : jsval -> bool) (v : jsval) : bool :=
  match v with
  | VArr items => forallb ok items
  | _ => false
  end.

Definition hasAuthor (comment : jsval) : bool :=
  present comment && present (field "user" comment).

(** What [filterIssueOrPull] needs of a record, the targets of its links
    apart: [assignees] and [labels] are arrays, and so is
    [requested_reviewers] of a pull request; their items, the repository
    and its owner are neither [undefined] nor [null]; the items of
    [comments], when it is an array, have a user. *)
Definition wellFormed (record : jsval) : bool :=
  present record
  && arrayOf present (field "assignees" record)
  && (if truthy (field "pull_request" record)
      then arrayOf present (field "requested_reviewers" record)
      else true)
  && arrayOf present (field "labels" record)
  && (if isArray (field "comments" record)
      then arrayOf hasAuthor (field "comments" record)
      else true)
  && present (field "repository" record)
  && present (field "owner" (field "repository" record)).

Fixpoint sameNames (a b : list string) : bool :=
  match a, b with
  | [], [] => true
  | x :: a', y :: b' => String.eqb x y && sameNames a' b'
  | _, _ => false
  end.

(** An object with exactly these own properties, in this order. *)
Definition hasKeys (names : list string) (v : jsval) : bool :=
  match v with
  | VObj props => sameNames (map fst props) names
  | _ => false
  end.

Definition nullOr (ok : jsval -> bool) (v : jsval) : bool :=
  match v with
  | VNull => true
  | _ => ok v
  end.

Definition userShaped : jsval -> bool :=
  hasKeys ["login"; "avatar_url"; "html_url"].

Definition labelShaped (v : jsval) : bool :=
  hasKeys ["name"; "color"] v
  || (hasKeys ["name"; "color"; "column_label"] v
      && truthy (field "column_label" v)).

Definition milestoneShaped : jsval -> bool :=
  hasKeys ["number"; "title"; "html_url"].

Definition repositoryShaped (v : jsval) : bool :=
  hasKeys ["name"; "owner"; "html_url"] v && userShaped (field "owner" v).

Definition commentShaped (v : jsval) : bool :=
  hasKeys ["user"; "html_url"] v && userShaped (field "user" v).

Definition linkShaped : jsval -> bool := hasKeys ["type"; "target"].

(** The parts of a record of the board, each with the properties the board
    may see and no other. *)
Definition partsShaped (record : jsval) : bool :=
  nullOr userShaped (field "user" record)
  && arrayOf userShaped (field "assignees" record)
  && (if truthy (field "pull_request" record)
      then arrayOf userShaped (field "requested_reviewers" record)
      else true)
  && arrayOf labelShaped (field "labels" record)
  && arrayOf commentShaped (field "comments" record)
  && nullOr milestoneShaped (field "milestone" record)
  && repositoryShaped (field "repository" record)
  && arrayOf linkShaped (field "links" record).

(** The qualifiers whose matchers read nothing that [filterIssueOrPull]
    drops or changes. *)
Definition keptQualifiers : list string :=
  [ "ref"; "is"; "label"; "repo"; "milestone"; "author"; "assignee";
    "commented" ].

(** Two records on which a matcher gives the same verdict: it accepts both
    or neither, and throws on both or neither. *)
Definition sameVerdict (fn : filter) (a b : jsval) : Prop :=
  (accepts a fn <-> accepts b fn) /\ (throwsOn a fn <-> throwsOn b fn).

(** Sample records of the store, with more than the board shows. *)
Definition storedUser (l : string) : jsval :=
  VObj [("login", VStr l); ("id", VNum 7);
        ("avatar_url", VStr ("https://avatars.example/" ++ l));
        ("html_url", VStr ("https://github.example/" ++ l));
        ("site_admin", VBool false)].

Definition storedRepository : jsval :=
  VObj [("id", VNum 3); ("name", VStr "REPO"); ("owner", storedUser "ORG");
        ("private", VBool true);
        ("html_url", VStr "https://github.example/ORG/REPO")].

Definition storedIssue (n : Z) (links : jsval) : jsval :=
  VObj [("id", VNum (100 + n)); ("key", VStr ("ORG/REPO#" ++ decimal n));
        ("number", VNum n); ("state", VStr "open"); ("title", VStr "Crash");
        ("body", VStr "Steps to reproduce"); ("user", storedUser "alice");
        ("assignees", VArr [storedUser "bob"]);
        ("labels",
         VArr [VObj [("id", VNum 1); ("name", VStr "bug");
                     ("color", VStr "ff0000"); ("column_label", VBool false)];
               VObj [("name", VStr "Inbox"); ("color", VStr "00ff00");
                     ("column_label", VBool true)]]);
        ("milestone", VNull); ("repository", storedRepository);
        ("comments", VNull); ("links", links);
        ("order", VNum 3); ("column", VStr "Inbox");
        ("created_at", VStr "2023-01-01T00:00:00Z")].

Definition storedPull : jsval :=
  VObj [("id", VNum 200); ("key", VStr "ORG/REPO#8"); ("number", VNum 8);
        ("state", VStr "open"); ("title", VStr "Fix the crash");
        ("body", VStr "Closes #5"); ("user", storedUser "bob");
        ("assignees", VArr []);
        ("requested_reviewers", VArr [storedUser "alice"]);
        ("labels", VArr []);
        ("milestone",
         VObj [("id", VNum 9); ("number", VNum 1); ("title", VStr "1.0");
               ("html_url", VStr "https://github.example/ORG/REPO/m/1")]);
        ("repository", storedRepository); ("draft", VBool false);
        ("comments",
         VArr [VObj [("id", VNum 5); ("body", VStr "LGTM");
                     ("user", storedUser "alice");
                     ("html_url", VStr "https://github.example/c/5")]]);
        ("merged", VBool false);
        ("html_url", VStr "https://github.example/ORG/REPO/pull/8");
        ("pull_request", VObj [("url", VStr "https://api.example/pulls/8")]);
        ("links",
         VArr [VObj [("id", VNum 1); ("type", VStr "CLOSES");
                     ("target", storedIssue 5 VUndefined)]]);
        ("order", VNum 4); ("column", VStr "In Review")].

(** ** The module *)

Section Search.

(** The collaborators [Search.js] requires or is constructed with:
    [parseSearch], [parseTemporalFilter] and [issueIdent] of [util], the
    link types of [links], and the two methods of the store. *)
Variable parseSearch : string -> list Term.
Variable parseTemporalFilter : string -> option TemporalFilter.
Variable issueIdent : jsval -> result jsval.
Variable getIssueByKey : string -> jsval.
Variable getIssueLinks : jsval -> jsval.
Variables CHILD_OF CLOSES : string.

(** [CHILD_LINK_TYPES[type]]. *)
Definition CHILD_LINK_TYPES (p : string) : answer :=
  lookupFlag [CHILD_OF; CLOSES] p.

(** [ref]. *)
Definition referenceFilter (text : string) : result filter :=
  let issue := getIssueByKey text in
  let links := if truthy issue then getIssueLinks issue else issue in
  byKey <- match orEmpty links with
           | VArr items => keyLinks [] items
           | _ => Throw TypeError
           end ;;
  Ok (fun issue =>
        key <- get issue "key" ;;
        if strictEqStr key text then Ok (Data (VBool true))
        else p <- toString key ;; Ok (lookupFlag byKey p)).

Definition filterEpic : filter := fun issue =>
  links <- get issue "links" ;;
  if negb (truthy links) then Ok (Data (VBool true))
  else
    r <- some links
           (fun link =>
              type <- get link "type" ;;
              p <- toString type ;;
              Ok (CHILD_LINK_TYPES p)) ;;
    Ok (Data (VBool (negb (truthy r)))).

(** [is]. *)
Definition isFilter (v : string) : filter :=
  if String.eqb v "assigned" then filterAssigned
  else if String.eqb v "unassigned" then filterUnassigned
  else if String.eqb v "closed" then filterClosed
  else if String.eqb v "open" then filterOpen
  else if String.eqb v "issue" then filterIssue
  else if String.eqb v "pull" then filterPull
  else if String.eqb v "milestoned" then filterMilestoned
  else if String.eqb v "epic" then filterEpic
  else filterNoop.

(** [created] and [updated] are [temporalFilter] applied to the reader of
    the timestamp. *)
Definition temporalFilter
    (fn : (jsval -> result answer) -> filter) (v : string)
  : result filter :=
  match parseTemporalFilter v with
  | None => Ok filterNoop
  | Some f =>
      dateString <- toISOString (tf_date f) ;;
      Ok (fn (matchTemporal (tf_qualifier f) dateString))
  end.

(** The own properties of [filters]. *)
Definition ownFilters : list (string * (string -> result filter)) :=
  [ ("text", fun v => Ok (textFilter v));
    ("ref", referenceFilter);
    ("is", fun v => Ok (isFilter v));
    ("label", fun v => Ok (labelFilter v));
    ("repo", fun v => Ok (repoFilter v));
    ("milestone", fun v => Ok (milestoneFilter v));
    ("author", fun v => Ok (authorFilter v));
    ("assignee", fun v => Ok (assigneeFilter v));
    ("reviewer", fun v => Ok (reviewerFilter v));
    ("commented", fun v => Ok (commentedFilter v));
    ("involves", fun v => Ok (involvesFilter v));
    ("created", temporalFilter filterCreated);
    ("updated", temporalFilter filterUpdated) ].

(** [filters[qualifier]]: an own factory, else a member inherited from
    [Object.prototype], else [undefined]. *)
Definition filters (q : string) : option (string -> result filter) :=
  match assoc q ownFilters with
  | Some factoryFn => Some factoryFn
  | None => if inherited q then Some (callInherited q) else None
  end.

(** The callback of [terms.map] in [getSearchFilter]. *)
Definition compileTerm (user : option GitHubUser) (term : Term)
  : result filter :=
  if noValue (value term) then Ok noopFilter
  else
    let v := match value term with Some s => s | None => "" end in
    match substituteMe user v with
    | None => Ok noneFilter
    | Some v =>
        match filters (qualifier term) with
        | None => Ok noopFilter
        | Some factoryFn =>
            fn <- factoryFn v ;;
            if negated term then Ok (negate fn) else Ok fn
        end
    end.

(** The function [getSearchFilter] returns, over its [filterFns]. *)
Definition searchFilter (filterFns : list filter) : predicate :=
  fun issue log =>
    match every filterFns issue with
    | Ok b => (Ok (VBool b), log)
    | Throw err =>
        match issueIdent issue with
        | Ok ident =>
            (Ok (VBool false), (log ++ [failure ident err])%list)
        | Throw e => (Throw e, log)
        end
    end.

Definition getSearchFilter (search : string) (user : option GitHubUser)
  : result predicate :=
  let terms := parseSearch search in
  filterFns <- mapM (compileTerm user) terms ;;
  Ok (searchFilter filterFns).

(** ** The monad and the loops *)

Lemma bind_Ok {A B : Type} (r : result A) (k : A -> result B) (b : B) :
  bind r k = Ok b -> exists a, r = Ok a /\ k a = Ok b.
Proof.
  destruct r as [a | e]; simpl; intros H; [eauto | discriminate].
Qed.

Lemma noValue_false (v : option string) :
  noValue v = false -> exists s, v = Some s /\ s <> "".
Proof.
  destruct v as [s |]; simpl; [| discriminate].
  intros H. exists s. split; [reflexivity |].
  intros ->. discriminate.
Qed.

Lemma eqb_neq_false (a b : string) : a <> b -> String.eqb a b = false.
Proof. apply String.eqb_neq. Qed.

Lemma every_true (filterFns : list filter) (issue : jsval) :
  every filterFns issue = Ok true <-> Forall (accepts issue) filterFns.
Proof.
  induction filterFns as [| fn rest IH]; simpl.
  - split; [constructor | reflexivity].
  - destruct (fn issue) as [r | e] eqn:Hfn; simpl.
    + destruct (toBoolean r) eqn:Hr.
      * rewrite IH. split.
        -- intros H. constructor; [exists r; auto | exact H].
        -- intros H. inversion H; assumption.
      * split; [discriminate |].
        intros H. inversion H as [| ? ? [r' [Hr' Ht]] _]; subst.
        rewrite Hfn in Hr'. inversion Hr'; subst. congruence.
    + split; [discriminate |].
      intros H. inversion H as [| ? ? [r' [Hr' _]] _]; subst.
      rewrite Hfn in Hr'. discriminate.
Qed.

Lemma every_throwing (filterFns : list filter) (issue : jsval) :
  Exists (throwsOn issue) filterFns -> every filterFns issue <> Ok true.
Proof.
  intros Hex Htrue. apply every_true in Htrue.
  rewrite Forall_forall in Htrue. apply Exists_exists in Hex.
  destruct Hex as [fn [Hin [e He]]].
  destruct (Htrue fn Hin) as [r [Hr _]]. congruence.
Qed.

(** The first matcher to throw, after matchers that all accepted, makes
    [every] throw its error. *)
Lemma every_first_throw (pre post : list filter) (fn : filter)
      (issue : jsval) (e : error) :
  Forall (accepts issue) pre -> fn issue = Throw e ->
  every (pre ++ fn :: post)%list issue = Throw e.
Proof.
  induction pre as [| f pre IH]; simpl; intros Hpre Hfn.
  - rewrite Hfn. reflexivity.
  - inversion Hpre as [| ? ? [r [Hr Ht]] Hrest]; subst.
    rewrite Hr. simpl. rewrite Ht. apply IH; assumption.
Qed.

Lemma every_throw_inv (filterFns : list filter) (issue : jsval) (e : error) :
  every filterFns issue = Throw e ->
  exists pre fn post,
    filterFns = (pre ++ fn :: post)%list
    /\ Forall (accepts issue) pre /\ fn issue = Throw e.
Proof.
  induction filterFns as [| f rest IH]; simpl; [discriminate |].
  destruct (f issue) as [r | e'] eqn:Hf; simpl.
  - destruct (toBoolean r) eqn:Hr; [| discriminate].
    intros H. destruct (IH H) as [pre [fn [post [-> [Hpre Hfn]]]]].
    exists (f :: pre), fn, post. repeat split; auto.
    constructor; [exists r; auto | exact Hpre].
  - intros H. inversion H; subst.
    exists [], f, rest. repeat split; auto.
Qed.

Lemma mapM_app {A B : Type} (f : A -> result B) (l1 l2 : list A) :
  mapM f (l1 ++ l2)%list
  = (xs <- mapM f l1 ;; ys <- mapM f l2 ;; Ok (xs ++ ys)%list).
Proof.
  induction l1 as [| x l1 IH]; simpl.
  - destruct (mapM f l2); reflexivity.
  - destruct (f x) as [y | e]; simpl; [| reflexivity].
    rewrite IH. destruct (mapM f l1) as [xs | e]; simpl; [| reflexivity].
    destruct (mapM f l2); reflexivity.
Qed.

Lemma every_skip_noop (pre post : list filter) (issue : jsval) :
  every (pre ++ filterNoop :: post)%list issue = every (pre ++ post)%list issue.
Proof.
  induction pre as [| f pre IH]; simpl; [reflexivity |].
  destruct (f issue) as [r | e]; simpl; [| reflexivity].
  destruct (toBoolean r); [exact IH | reflexivity].
Qed.

Lemma compileTerm_noValue (user : option GitHubUser) (term : Term) :
  noValue (value term) = true -> compileTerm user term = Ok filterNoop.
Proof.
  intros H. unfold compileTerm. rewrite H. reflexivity.
Qed.

(** With an identifier for the log at hand, the compiled predicate returns
    a boolean whatever the matchers do. *)
Lemma searchFilter_returns (filterFns : list filter) (issue ident : jsval)
      (log : list LogEntry) :
  issueIdent issue = Ok ident ->
  exists b log', searchFilter filterFns issue log = (Ok (VBool b), log').
Proof.
  intros Hid. unfold searchFilter.
  destruct (every filterFns issue) as [b | e]; [eauto |].
  rewrite Hid. eauto.
Qed.

Lemma searchFilter_true (filterFns : list filter) (issue : jsval)
      (log : list LogEntry) :
  fst (searchFilter filterFns issue log) = Ok (VBool true)
  <-> Forall (accepts issue) filterFns.
Proof.
  rewrite <- every_true. unfold searchFilter.
  destruct (every filterFns issue) as [[|] | e]; simpl.
  - tauto.
  - split; discriminate.
  - destruct (issueIdent issue); simpl; split; discriminate.
Qed.

(** Compilation returns for the terms whose factory neither consults a
    collaborator nor is found on [Object.prototype]: every qualifier but
    [ref], [created], [updated] and the inherited names. *)
Lemma compileTerm_returns (user : option GitHubUser) (term : Term) :
  inherited (qualifier term) = false ->
  qualifier term <> "ref" ->
  qualifier term <> "created" ->
  qualifier term <> "updated" ->
  exists fn, compileTerm user term = Ok fn.
Proof.
  intros Hi Href Hcreated Hupdated. unfold compileTerm.
  destruct (noValue (value term)); [eauto |].
  destruct (substituteMe user _) as [v |]; [| eauto].
  unfold filters. rewrite Hi. cbn [assoc ownFilters].
  repeat match goal with
         | |- context [String.eqb ?a (qualifier term)] =>
             let E := fresh "E" in
             destruct (String.eqb a (qualifier term)) eqn:E;
             [ try (apply String.eqb_eq in E; congruence);
               simpl; destruct (negated term); eauto
             | ]
         end.
  eauto.
Qed.

Lemma mapM_returns {A B : Type} (f : A -> result B) (l : list A) :
  Forall (fun x => exists y, f x = Ok y) l -> exists ys, mapM f l = Ok ys.
Proof.
  induction 1 as [| x l [y Hy] _ [ys Hys]]; simpl; [eauto |].
  rewrite Hy, Hys. simpl. eauto.
Qed.

Lemma getSearchFilter_returns (search : string) (user : option GitHubUser) :
  Forall (fun term =>
            inherited (qualifier term) = false
            /\ qualifier term <> "ref"
            /\ qualifier term <> "created"
            /\ qualifier term <> "updated") (parseSearch search) ->
  exists p, getSearchFilter search user = Ok p.
Proof.
  intros H. unfold getSearchFilter.
  destruct (mapM_returns (compileTerm user) (parseSearch search))
    as [fs Hfs].
  - eapply Forall_impl; [| exact H].
    intros term [Hi [H1 [H2 H3]]]. apply compileTerm_returns; assumption.
  - rewrite Hfs. simpl. eauto.
Qed.

(** ** The evaluator *)

(** C1, amended.  The predicate [getSearchFilter] returns contains the
    exceptions of the matchers as long as the identifier for the log can be
    computed.  When no matcher throws on the record it returns a boolean
    and leaves the log as it was.  When [issueIdent] returns on the record
    the predicate returns a boolean; when a matcher throws, after the
    matchers before it accepted the record, it returns [false] and adds
    one entry to the log, made of that identifier, the error, and the
    message [filter failed]; and a record on which some matcher would
    throw is never accepted.  When [issueIdent] throws in the catch block,
    its exception reaches the caller and nothing is logged. *)
Theorem C1_matcher_exceptions_are_contained
    (search : string) (user : option GitHubUser) (p : predicate)
    (issue : jsval) (log : list LogEntry) :
  getSearchFilter search user = Ok p ->
  exists filterFns,
    mapM (compileTerm user) (parseSearch search) = Ok filterFns
    /\ (Forall (fun fn => ~ throwsOn issue fn) filterFns ->
        exists b, p issue log = (Ok (VBool b), log))
    /\ (forall ident,
          issueIdent issue = Ok ident ->
          (exists b log', p issue log = (Ok (VBool b), log'))
          /\ (forall pre fn post e,
                filterFns = (pre ++ fn :: post)%list ->
                Forall (accepts issue) pre ->
                fn issue = Throw e ->
                exists entry,
                  p issue log = (Ok (VBool false), (log ++ [entry])%list)
                  /\ log_issue entry = ident
                  /\ log_err entry = e
                  /\ log_msg entry = "filter failed")
          /\ (Exists (throwsOn issue) filterFns ->
              fst (p issue log) = Ok (VBool false)))
    /\ (forall pre fn post e e',
          filterFns = (pre ++ fn :: post)%list ->
          Forall (accepts issue) pre ->
          fn issue = Throw e ->
          issueIdent issue = Throw e' ->
          p issue log = (Throw e', log)).
Proof.
  unfold getSearchFilter. intros Hp.
  apply bind_Ok in Hp. destruct Hp as [filterFns [Hmap Hp]].
  inversion Hp; subst p; clear Hp.
  exists filterFns. split; [exact Hmap |]. split; [| split].
  - intros Hnone. unfold searchFilter.
    destruct (every filterFns issue) as [b | e] eqn:He; [eauto |].
    exfalso. apply every_throw_inv in He.
    destruct He as [pre [fn [post [-> [_ Hfn]]]]].
    rewrite Forall_forall in Hnone.
    apply (Hnone fn); [apply in_elt | exists e; exact Hfn].
  - intros ident Hid. split; [| split].
    + eapply searchFilter_returns; eassumption.
    + intros pre fn post e -> Hpre Hfn. unfold searchFilter.
      rewrite (every_first_throw pre post fn issue e Hpre Hfn), Hid.
      exists (failure ident e). repeat split.
    + intros Hex. pose proof (every_throwing _ _ Hex) as Hne.
      unfold searchFilter.
      destruct (every filterFns issue) as [[|] | e]; simpl.
      * contradiction Hne; reflexivity.
      * reflexivity.
      * rewrite Hid. reflexivity.
  - intros pre fn post e e' -> Hpre Hfn Hid. unfold searchFilter.
    rewrite (every_first_throw pre post fn issue e Hpre Hfn), Hid.
    reflexivity.
Qed.

(** ** Terms that do not constrain *)

(** C2.  The predicate compiled from a search with no terms returns [true]
    on every record and logs nothing.  A term whose value is missing or
    empty compiles to [filterNoop], which returns [true] on every record;
    alone it gives a predicate that returns [true] everywhere, and taking
    it out of a term list changes neither the outcome of the compilation
    nor any answer or log of the compiled predicate. *)
Theorem C2_empty_matches_everything :
  (forall search user,
      parseSearch search = [] ->
      exists p, getSearchFilter search user = Ok p
                /\ forall issue log, p issue log = (Ok (VBool true), log))
  /\ (forall term user,
        noValue (value term) = true ->
        compileTerm user term = Ok filterNoop
        /\ forall issue, filterNoop issue = Ok (Data (VBool true)))
  /\ (forall term user search,
        noValue (value term) = true ->
        parseSearch search = [term] ->
        exists p, getSearchFilter search user = Ok p
                  /\ forall issue log, p issue log = (Ok (VBool true), log))
  /\ (forall term user search search' pre post,
        noValue (value term) = true ->
        parseSearch search = (pre ++ term :: post)%list ->
        parseSearch search' = (pre ++ post)%list ->
        samePredicate (getSearchFilter search user)
                      (getSearchFilter search' user)).
Proof.
  repeat split.
  - intros search user H. unfold getSearchFilter. rewrite H. simpl.
    eexists. split; reflexivity.
  - apply compileTerm_noValue; assumption.
  - intros term user search Hv H. unfold getSearchFilter. rewrite H. simpl.
    rewrite (compileTerm_noValue user term Hv). simpl.
    eexists. split; reflexivity.
  - intros term user search search' pre post Hv H H'.
    unfold getSearchFilter. rewrite H, H', !mapM_app. simpl.
    rewrite (compileTerm_noValue user term Hv). simpl.
    destruct (mapM (compileTerm user) pre) as [fa | e]; simpl; [| reflexivity].
    destruct (mapM (compileTerm user) post) as [fb | e]; simpl;
      [| reflexivity].
    intros issue log. unfold searchFilter.
    rewrite every_skip_noop. reflexivity.
Qed.

(** ** The registry and the [@me] rule *)

Lemma assoc_absent {A : Type} (q : string) (l : list (string * A)) :
  existsb (String.eqb q) (map fst l) = false -> assoc q l = None.
Proof.
  induction l as [| [k a] l IH]; cbn [map fst existsb assoc];
    [reflexivity |].
  intros H. apply orb_false_elim in H. destruct H as [H0 H].
  rewrite String.eqb_sym, H0. exact (IH H).
Qed.

Lemma assoc_unregistered (q : string) :
  registered q = false -> assoc q ownFilters = None.
Proof.
  intros H. apply assoc_absent. exact H.
Qed.

Lemma filters_unknown (q : string) :
  registered q = false -> inherited q = false -> filters q = None.
Proof.
  intros Hr Hi. unfold filters. rewrite (assoc_unregistered q Hr), Hi.
  reflexivity.
Qed.

Lemma compileTerm_unknown (user : option GitHubUser) (term : Term) :
  registered (qualifier term) = false ->
  inherited (qualifier term) = false ->
  (value term = Some "@me" -> user <> None) ->
  compileTerm user term = Ok filterNoop.
Proof.
  intros Hr Hi Hme. unfold compileTerm.
  destruct (noValue (value term)) eqn:Hv; [reflexivity |].
  destruct (noValue_false _ Hv) as [s [Hs Hne]]. rewrite Hs.
  rewrite (filters_unknown _ Hr Hi).
  unfold substituteMe. destruct (String.eqb s "@me") eqn:Hs'.
  - apply String.eqb_eq in Hs'. subst s.
    destruct user as [u |]; [reflexivity |].
    exfalso. apply (Hme Hs). reflexivity.
  - reflexivity.
Qed.

(** C3, amended.  A term whose qualifier [filters] does not define, and
    which is not the name of a member of [Object.prototype], compiles to
    [filterNoop] unless its value is [@me] and no user is given; taking the
    term out of a term list then leaves the compiled predicate as it is. *)
Theorem C3_unknown_qualifier_is_noop
    (term : Term) (user : option GitHubUser) :
  registered (qualifier term) = false ->
  inherited (qualifier term) = false ->
  (value term = Some "@me" -> user <> None) ->
  compileTerm user term = Ok filterNoop
  /\ (forall issue, filterNoop issue = Ok (Data (VBool true)))
  /\ (forall search search' pre post,
        parseSearch search = (pre ++ term :: post)%list ->
        parseSearch search' = (pre ++ post)%list ->
        samePredicate (getSearchFilter search user)
                      (getSearchFilter search' user)).
Proof.
  intros Hr Hi Hme.
  pose proof (compileTerm_unknown user term Hr Hi Hme) as Hc.
  split; [exact Hc |]. split; [reflexivity |].
  intros search search' pre post H H'.
  unfold getSearchFilter. rewrite H, H', !mapM_app. simpl.
  rewrite Hc. simpl.
  destruct (mapM (compileTerm user) pre) as [fa | e]; simpl; [| reflexivity].
  destruct (mapM (compileTerm user) post) as [fb | e]; simpl; [| reflexivity].
  intros issue log. unfold searchFilter.
  rewrite every_skip_noop. reflexivity.
Qed.

Lemma compileTerm_me_no_user (term : Term) :
  value term = Some "@me" -> compileTerm None term = Ok filterReject.
Proof.
  intros H. unfold compileTerm. rewrite H. reflexivity.
Qed.

Lemma mapM_In {A B : Type} (f : A -> result B) (l : list A) (ys : list B)
      (x : A) :
  mapM f l = Ok ys -> In x l -> exists y, f x = Ok y /\ In y ys.
Proof.
  revert ys. induction l as [| a l IH]; simpl; intros ys H Hin; [easy |].
  apply bind_Ok in H. destruct H as [y [Hy H]].
  apply bind_Ok in H. destruct H as [ys' [Hys H]].
  inversion H; subst ys; clear H.
  destruct Hin as [-> | Hin].
  - exists y. split; [exact Hy | left; reflexivity].
  - destruct (IH ys' Hys Hin) as [y' [Hy' Hin']].
    exists y'. split; [exact Hy' | right; exact Hin'].
Qed.

(** What [filterAuthor] accepts, for a name that is not empty. *)
Lemma authorFilter_accepts (name : string) (issue : jsval) :
  name <> "" ->
  accepts issue (authorFilter name)
  <-> exists a l,
        get issue "user" = Ok a /\ truthy a = true
        /\ get a "login" = Ok (VStr l) /\ startsWithNoCase l name = true.
Proof.
  intros Hname. unfold accepts, authorFilter, fuzzyMatches.
  rewrite (eqb_neq_false _ _ Hname).
  destruct (get issue "user") as [a | e] eqn:Ha; simpl.
  - destruct (truthy a) eqn:Ht.
    + destruct (get a "login") as [l | e] eqn:Hl; simpl.
      * destruct l as [| | b | n | l | items | props]; simpl;
          try (split; [intros [r [H _]]; discriminate
                      | intros [a' [l' [H1 [_ [H2 _]]]]];
                        inversion H1; subst; congruence]).
        split.
        -- intros [r [H Hr]]. inversion H; subst r. simpl in Hr.
           exists a, l. auto.
        -- intros [a' [l' [H1 [_ [H2 H3]]]]].
           inversion H1; subst a'. rewrite Hl in H2.
           inversion H2; subst l'.
           eexists. split; [reflexivity |]. exact H3.
      * split.
        -- intros [r [H _]]. discriminate.
        -- intros [a' [l' [H1 [_ [H2 _]]]]].
           inversion H1; subst a'. congruence.
    + split.
      * intros [r [H Hr]]. inversion H; subst r. simpl in Hr. congruence.
      * intros [a' [l' [H1 [H2 _]]]]. inversion H1; subst a'. congruence.
  - split.
    + intros [r [H _]]. discriminate.
    + intros [a' [l' [H1 _]]]. discriminate.
Qed.

(** C4.  A term whose value is [@me], compiled without a user, is
    [filterReject]: alone it gives a predicate that returns [false] on
    every record, and no term list that contains it accepts any record.
    With a user the factory of the qualifier is applied to the login of the
    user; for a login that is not empty this is the compilation of the same
    term with the login as its value.  So [author:@me] accepts the records
    that have a user whose login starts with the login of the current user,
    case set aside, and no others. *)
Theorem C4_me_is_the_current_user :
  (forall term,
      value term = Some "@me" ->
      compileTerm None term = Ok filterReject
      /\ forall issue, filterReject issue = Ok (Data (VBool false)))
  /\ (forall term search,
        value term = Some "@me" ->
        parseSearch search = [term] ->
        exists p, getSearchFilter search None = Ok p
                  /\ forall issue log, p issue log = (Ok (VBool false), log))
  /\ (forall term search p issue log,
        value term = Some "@me" ->
        In term (parseSearch search) ->
        getSearchFilter search None = Ok p ->
        fst (p issue log) <> Ok (VBool true))
  /\ (forall term u,
        value term = Some "@me" ->
        compileTerm (Some u) term
        = match filters (qualifier term) with
          | None => Ok noopFilter
          | Some factoryFn =>
              fn <- factoryFn (login u) ;;
              if negated term then Ok (negate fn) else Ok fn
          end)
  /\ (forall term u,
        value term = Some "@me" ->
        login u <> "" ->
        compileTerm (Some u) term
        = compileTerm (Some u) (withValue term (login u)))
  /\ (forall u search,
        login u <> "" ->
        parseSearch search = [mkTerm "author" "@me" false] ->
        exists p,
          getSearchFilter search (Some u) = Ok p
          /\ forall issue log,
              fst (p issue log) = Ok (VBool true)
              <-> exists a l,
                    get issue "user" = Ok a /\ truthy a = true
                    /\ get a "login" = Ok (VStr l)
                    /\ startsWithNoCase l (login u) = true).
Proof.
  split; [| split; [| split; [| split; [| split]]]].
  - intros term H. split; [apply compileTerm_me_no_user; exact H |].
    reflexivity.
  - intros term search H Hp. unfold getSearchFilter. rewrite Hp. simpl.
    rewrite (compileTerm_me_no_user term H). simpl.
    eexists. split; reflexivity.
  - intros term search p issue log H Hin Hp Htrue.
    unfold getSearchFilter in Hp. apply bind_Ok in Hp.
    destruct Hp as [filterFns [Hmap Hp]]. inversion Hp; subst p; clear Hp.
    apply searchFilter_true in Htrue. rewrite Forall_forall in Htrue.
    destruct (mapM_In _ _ _ _ Hmap Hin) as [fn [Hfn Hin']].
    rewrite (compileTerm_me_no_user term H) in Hfn.
    inversion Hfn; subst fn.
    destruct (Htrue _ Hin') as [r [Hr Ht]].
    inversion Hr; subst r. discriminate.
  - intros term u H. unfold compileTerm. rewrite H. reflexivity.
  - intros term u H Hlogin. unfold compileTerm, withValue. rewrite H. simpl.
    rewrite (eqb_neq_false _ _ Hlogin). unfold substituteMe. simpl.
    destruct (String.eqb (login u) "@me"); reflexivity.
  - intros u search Hlogin Hp. unfold getSearchFilter. rewrite Hp. simpl.
    eexists. split; [reflexivity |].
    intros issue log. rewrite searchFilter_true.
    rewrite <- (authorFilter_accepts (login u) issue Hlogin).
    split.
    + intros H. inversion H; assumption.
    + intros H. constructor; [exact H | constructor].
Qed.

(** ** Temporal terms *)

Lemma filters_created : filters "created" = Some (temporalFilter filterCreated).
Proof. reflexivity. Qed.

Lemma filters_updated : filters "updated" = Some (temporalFilter filterUpdated).
Proof. reflexivity. Qed.

Lemma single_accepts (fn : filter) (issue : jsval) (log : list LogEntry) :
  fst (searchFilter [fn] issue log) = Ok (VBool true) <-> accepts issue fn.
Proof.
  rewrite searchFilter_true. split.
  - intros H. inversion H; assumption.
  - intros H. constructor; [exact H | constructor].
Qed.

Lemma single_returns (fn : filter) (issue : jsval) (r : answer)
      (log : list LogEntry) :
  fn issue = Ok r ->
  searchFilter [fn] issue log = (Ok (VBool (toBoolean r)), log).
Proof.
  intros H. unfold searchFilter. simpl. rewrite H. simpl.
  destruct (toBoolean r); reflexivity.
Qed.

(** A term that reaches its factory: the value is there, and is not [@me]
    without a user. *)
Lemma compileTerm_factory (user : option GitHubUser) (term : Term)
      (v v' : string) (factoryFn : string -> result filter) :
  value term = Some v -> v <> "" ->
  substituteMe user v = Some v' ->
  filters (qualifier term) = Some factoryFn ->
  compileTerm user term
  = (fn <- factoryFn v' ;; if negated term then Ok (negate fn) else Ok fn).
Proof.
  intros Hv Hne Hs Hf. unfold compileTerm. rewrite Hv. simpl.
  rewrite (eqb_neq_false _ _ Hne), Hs, Hf. reflexivity.
Qed.

Lemma matchTemporal_string (q : option string) (c : comparator)
      (iso s : string) :
  comparatorOf q = Some c ->
  matchTemporal q iso (VStr s) = Ok (Data (VBool (compareStrings c s iso))).
Proof.
  intros H. unfold matchTemporal. rewrite H. reflexivity.
Qed.

Lemma matchTemporal_accepts (q : option string) (c : comparator)
      (iso : string) (a : jsval) :
  comparatorOf q = Some c ->
  (exists r, matchTemporal q iso a = Ok r /\ toBoolean r = true)
  <-> exists s, toPrimitive a = Ok (VStr s) /\ compareStrings c s iso = true.
Proof.
  intros H. unfold matchTemporal, compareWithISO. rewrite H.
  destruct (toPrimitive a) as [p | e]; simpl.
  - destruct p as [| | b | n | s | items | props]; simpl;
      try (split; [intros [r [Hr Ht]]; inversion Hr; subst r; discriminate
                  | intros [s' [Hs' _]]; discriminate]).
    split.
    + intros [r [Hr Ht]]. inversion Hr; subst r. exists s. auto.
    + intros [s' [Hs' Hc]]. inversion Hs'; subst s'.
      eexists. split; [reflexivity | exact Hc].
  - split.
    + intros [r [Hr _]]. discriminate.
    + intros [s' [Hs' _]]. discriminate.
Qed.

Lemma matchTemporal_default (q : option string) (iso : string) (a : jsval) :
  comparatorOf q = None -> matchTemporal q iso a = Ok (Data (VBool true)).
Proof.
  intros H. unfold matchTemporal. rewrite H. reflexivity.
Qed.

Lemma get_not_nullish (issue : jsval) (p : string) :
  nullish issue = false -> exists x, get issue p = Ok x.
Proof.
  destruct issue as [| | b | n | s | items | props]; simpl;
    try discriminate; intros _; eauto.
  - destruct (String.eqb p "length"); eauto.
  - destruct (String.eqb p "length"); eauto.
  - destruct (lookup p props); eauto.
Qed.

(** C5, amended.  Take a [created] or [updated] term whose value is there
    and is compiled as [v'] (the value itself, or the login of the user for
    [@me]).  If [v'] does not parse as a temporal filter the factory
    returns [filterNoop]; the term, alone in a search, then gives a
    predicate that returns [true] on every record when the term is not
    negated, and [false] on every record when it is.  If [v'] parses to a
    valid date with no comparator, the matcher returns [true] on every
    record, whatever its timestamp, and the predicate of the term returns
    [true] on every record when the term is not negated and [false] when it
    is. *)
Theorem C5_temporal_filter_degrades
    (term : Term) (user : option GitHubUser) (v v' : string) :
  qualifier term = "created" \/ qualifier term = "updated" ->
  value term = Some v -> v <> "" ->
  substituteMe user v = Some v' ->
  (parseTemporalFilter v' = None ->
   compileTerm user term
   = Ok (if negated term then negate filterNoop else filterNoop)
   /\ forall search,
       parseSearch search = [term] ->
       exists p, getSearchFilter search user = Ok p
                 /\ forall issue log,
                     p issue log = (Ok (VBool (negb (negated term))), log))
  /\ (forall f iso,
        parseTemporalFilter v' = Some f ->
        comparatorOf (tf_qualifier f) = None ->
        toISOString (tf_date f) = Ok iso ->
        exists fn,
          (if String.eqb (qualifier term) "created"
           then temporalFilter filterCreated v'
           else temporalFilter filterUpdated v') = Ok fn
          /\ (forall issue,
                nullish issue = false -> fn issue = Ok (Data (VBool true)))
          /\ forall search,
              parseSearch search = [term] ->
              exists p, getSearchFilter search user = Ok p
                        /\ forall issue log,
                            nullish issue = false ->
                            p issue log
                            = (Ok (VBool (negb (negated term))), log)).
Proof.
  intros Hq Hv Hne Hs.
  assert (Hf : exists reader field,
             filters (qualifier term) = Some (temporalFilter reader)
             /\ (if String.eqb (qualifier term) "created"
                 then temporalFilter filterCreated v'
                 else temporalFilter filterUpdated v')
                = temporalFilter reader v'
             /\ forall mt issue,
                 reader mt issue = (x <- get issue field ;; mt x)).
  { destruct Hq as [Hq | Hq]; rewrite Hq.
    - exists filterCreated, "created_at". repeat split.
    - exists filterUpdated, "updated_at". repeat split. }
  destruct Hf as [reader [field [Hf [Hsel Hreader]]]].
  pose proof (compileTerm_factory user term v v' _ Hv Hne Hs Hf) as Hc.
  split.
  - intros Hparse.
    assert (Hc' : compileTerm user term
                  = Ok (if negated term then negate filterNoop
                        else filterNoop)).
    { rewrite Hc. unfold temporalFilter. rewrite Hparse. simpl.
      destruct (negated term); reflexivity. }
    split; [exact Hc' |].
    intros search Hp. unfold getSearchFilter. rewrite Hp. simpl.
    rewrite Hc'. simpl. eexists. split; [reflexivity |].
    intros issue log. destruct (negated term); reflexivity.
  - intros f iso Hparse Hcmp Hiso.
    assert (Hfn : temporalFilter reader v'
                  = Ok (reader (matchTemporal (tf_qualifier f) iso))).
    { unfold temporalFilter. rewrite Hparse, Hiso. reflexivity. }
    assert (Hall : forall issue,
               nullish issue = false ->
               reader (matchTemporal (tf_qualifier f) iso) issue
               = Ok (Data (VBool true))).
    { intros issue Hn. rewrite Hreader.
      destruct (get_not_nullish issue field Hn) as [x Hx].
      rewrite Hx. simpl. apply matchTemporal_default. exact Hcmp. }
    exists (reader (matchTemporal (tf_qualifier f) iso)).
    split; [rewrite Hsel; exact Hfn |]. split; [exact Hall |].
    intros search Hp. unfold getSearchFilter. rewrite Hp. simpl.
    rewrite Hc, Hfn. simpl.
    destruct (negated term); simpl; (eexists; split; [reflexivity |]);
      intros issue log Hn.
    + rewrite (single_returns _ issue (Data (VBool false))); [reflexivity |].
      unfold negate. rewrite (Hall issue Hn). reflexivity.
    + rewrite (single_returns _ issue (Data (VBool true)));
        [reflexivity | exact (Hall issue Hn)].
Qed.

Lemma temporal_term (q field : string)
      (reader : (jsval -> result answer) -> filter)
      (v : string) (f : TemporalFilter) (c : comparator) (iso : string)
      (user : option GitHubUser) (search : string) :
  filters q = Some (temporalFilter reader) ->
  (forall mt issue, reader mt issue = (x <- get issue field ;; mt x)) ->
  v <> "" -> v <> "@me" ->
  parseTemporalFilter v = Some f ->
  comparatorOf (tf_qualifier f) = Some c ->
  toISOString (tf_date f) = Ok iso ->
  parseSearch search = [mkTerm q v false] ->
  exists p,
    getSearchFilter search user = Ok p
    /\ (forall props s log,
          lookup field props = Some (VStr s) ->
          p (VObj props) log = (Ok (VBool (compareStrings c s iso)), log))
    /\ (forall issue log,
          fst (p issue log) = Ok (VBool true)
          <-> exists a s,
                get issue field = Ok a /\ toPrimitive a = Ok (VStr s)
                /\ compareStrings c s iso = true).
Proof.
  intros Hf Hreader Hne Hme Hparse Hcmp Hiso Hp.
  assert (Hs : substituteMe user v = Some v).
  { unfold substituteMe. rewrite (eqb_neq_false _ _ Hme). reflexivity. }
  pose proof (compileTerm_factory user (mkTerm q v false) v v _
                eq_refl Hne Hs Hf) as Hc.
  unfold temporalFilter in Hc. rewrite Hparse, Hiso in Hc. simpl in Hc.
  unfold getSearchFilter. rewrite Hp. simpl. rewrite Hc. simpl.
  eexists. split; [reflexivity |]. split.
  - intros props s log Hl.
    rewrite (single_returns _ _ (Data (VBool (compareStrings c s iso))));
      [reflexivity |].
    rewrite Hreader. simpl. rewrite Hl. simpl.
    apply matchTemporal_string. exact Hcmp.
  - intros issue log. rewrite single_accepts. unfold accepts.
    rewrite Hreader.
    destruct (get issue field) as [a | e]; simpl.
    + rewrite (matchTemporal_accepts _ c iso a Hcmp). split.
      * intros [s [H1 H2]]. exists a, s. auto.
      * intros [a' [s [H0 [H1 H2]]]]. inversion H0; subst a'. eauto.
    + split.
      * intros [r [H _]]. discriminate.
      * intros [a' [s [H0 _]]]. discriminate.
Qed.

(** C6, amended.  For a [created] term that is not negated and whose value
    parses to a comparator and a valid date, the compiled predicate, on a
    record whose [created_at] is a string, returns the comparison of that
    string with the ISO string of the date, code unit by code unit:
    strictly greater for [>], greater or equal for [>=], strictly less for
    [<], less or equal for [<=].  It accepts exactly the records whose
    [created_at], as a primitive, is a string that compares so.  The same
    holds for [updated] and [updated_at]. *)
Theorem C6_temporal_comparison
    (v : string) (f : TemporalFilter) (c : comparator) (iso : string)
    (user : option GitHubUser) :
  v <> "" -> v <> "@me" ->
  parseTemporalFilter v = Some f ->
  comparatorOf (tf_qualifier f) = Some c ->
  toISOString (tf_date f) = Ok iso ->
  (forall search,
      parseSearch search = [mkTerm "created" v false] ->
      exists p,
        getSearchFilter search user = Ok p
        /\ (forall props s log,
              lookup "created_at" props = Some (VStr s) ->
              p (VObj props) log
              = (Ok (VBool (compareStrings c s iso)), log))
        /\ (forall issue log,
              fst (p issue log) = Ok (VBool true)
              <-> exists a s,
                    get issue "created_at" = Ok a
                    /\ toPrimitive a = Ok (VStr s)
                    /\ compareStrings c s iso = true))
  /\ (forall search,
        parseSearch search = [mkTerm "updated" v false] ->
        exists p,
          getSearchFilter search user = Ok p
          /\ (forall props s log,
                lookup "updated_at" props = Some (VStr s) ->
                p (VObj props) log
                = (Ok (VBool (compareStrings c s iso)), log))
          /\ (forall issue log,
                fst (p issue log) = Ok (VBool true)
                <-> exists a s,
                      get issue "updated_at" = Ok a
                      /\ toPrimitive a = Ok (VStr s)
                      /\ compareStrings c s iso = true)).
Proof.
  intros Hne Hme Hparse Hcmp Hiso. split; intros search Hp.
  - apply (temporal_term "created" "created_at" filterCreated v f c iso);
      auto using filters_created.
  - apply (temporal_term "updated" "updated_at" filterUpdated v f c iso);
      auto using filters_updated.
Qed.

(** ** Negation *)

Lemma single_throws (fn : filter) (issue ident : jsval) (e : error)
      (log : list LogEntry) :
  fn issue = Throw e -> issueIdent issue = Ok ident ->
  searchFilter [fn] issue log
  = (Ok (VBool false), (log ++ [failure ident e])%list).
Proof.
  intros H Hid. unfold searchFilter. simpl. rewrite H. simpl. rewrite Hid.
  reflexivity.
Qed.

(** C7, amended.  Take a qualifier of the registry and a value that reaches
    its factory (the value is not empty, and is not [@me] without a user),
    and let [fn] be the matcher the factory returns.  On a record where
    [fn] returns, the predicate compiled from the negated term returns the
    negation of the predicate compiled from the plain term.  On a record
    where [fn] throws, both return [false], and both log the failure. *)
Theorem C7_negation_complements
    (q v v' : string) (user : option GitHubUser)
    (factoryFn : string -> result filter) (fn : filter)
    (search searchNegated : string) :
  registered q = true ->
  v <> "" ->
  substituteMe user v = Some v' ->
  filters q = Some factoryFn ->
  factoryFn v' = Ok fn ->
  parseSearch search = [mkTerm q v false] ->
  parseSearch searchNegated = [mkTerm q v true] ->
  exists p pn,
    getSearchFilter search user = Ok p
    /\ getSearchFilter searchNegated user = Ok pn
    /\ forall issue log,
        (forall r,
            fn issue = Ok r ->
            p issue log = (Ok (VBool (toBoolean r)), log)
            /\ pn issue log = (Ok (VBool (negb (toBoolean r))), log))
        /\ (forall e ident,
              fn issue = Throw e ->
              issueIdent issue = Ok ident ->
              p issue log
              = (Ok (VBool false), (log ++ [failure ident e])%list)
              /\ pn issue log
                 = (Ok (VBool false), (log ++ [failure ident e])%list)).
Proof.
  intros _ Hne Hs Hf Hfn Hp Hpn.
  pose proof (compileTerm_factory user (mkTerm q v false) v v' _
                eq_refl Hne Hs Hf) as Hc.
  pose proof (compileTerm_factory user (mkTerm q v true) v v' _
                eq_refl Hne Hs Hf) as Hcn.
  rewrite Hfn in Hc, Hcn. simpl in Hc, Hcn.
  unfold getSearchFilter. rewrite Hp, Hpn. simpl. rewrite Hc, Hcn. simpl.
  exists (searchFilter [fn]), (searchFilter [negate fn]).
  split; [reflexivity |]. split; [reflexivity |].
  intros issue log. split.
  - intros r Hr. split.
    + apply single_returns. exact Hr.
    + rewrite (single_returns (negate fn) issue
                 (Data (VBool (negb (toBoolean r))))).
      * reflexivity.
      * unfold negate. rewrite Hr. reflexivity.
  - intros e ident He Hid. split.
    + apply single_throws; assumption.
    + apply single_throws; [| exact Hid].
      unfold negate. rewrite He. reflexivity.
Qed.

(** ** References *)

Lemma keyLinks_spec (links : list jsval) :
  forall keyed keys,
    keyLinks keyed links = Ok keys ->
    forall k,
      In k keys
      <-> In k keyed
          \/ (k <> "__proto__"
              /\ exists link, In link links /\ targetKey link = Ok k).
Proof.
  induction links as [| link rest IH]; simpl; intros keyed keys H k.
  - inversion H; subst keys. split; [auto |].
    intros [Hk | [_ [l [[] _]]]]. exact Hk.
  - apply bind_Ok in H. destruct H as [target [Ht H]].
    apply bind_Ok in H. destruct H as [key [Hk H]].
    apply bind_Ok in H. destruct H as [p [Hp H]].
    assert (Htk : targetKey link = Ok p).
    { unfold targetKey. rewrite Ht. simpl. rewrite Hk. simpl. exact Hp. }
    rewrite (IH _ _ H k). clear IH H.
    destruct (String.eqb p "__proto__") eqn:Hproto.
    + apply String.eqb_eq in Hproto. split.
      * intros [Hin | [Hne [l [Hl Hlk]]]]; [auto |].
        right. split; [exact Hne |]. exists l. auto.
      * intros [Hin | [Hne [l [[<- | Hl] Hlk]]]]; [auto | |].
        -- exfalso. rewrite Htk in Hlk. inversion Hlk. congruence.
        -- right. split; [exact Hne |]. exists l. auto.
    + apply String.eqb_neq in Hproto. split.
      * intros [[<- | Hin] | [Hne [l [Hl Hlk]]]].
        -- right. split; [exact Hproto |]. exists link. auto.
        -- auto.
        -- right. split; [exact Hne |]. exists l. auto.
      * intros [Hin | [Hne [l [[<- | Hl] Hlk]]]].
        -- left. right. exact Hin.
        -- left. left. rewrite Htk in Hlk. inversion Hlk. reflexivity.
        -- right. split; [exact Hne |]. exists l. auto.
Qed.

Lemma existsb_eqb_In (k : string) (l : list string) :
  existsb (String.eqb k) l = true <-> In k l.
Proof.
  rewrite existsb_exists. split.
  - intros [x [Hin Hx]]. apply String.eqb_eq in Hx. subst x. exact Hin.
  - intros Hin. exists k. split; [exact Hin | apply String.eqb_refl].
Qed.

Lemma inherited_proto : inherited "__proto__" = true.
Proof. reflexivity. Qed.

Lemma filters_ref : filters "ref" = Some referenceFilter.
Proof. reflexivity. Qed.

(** C8, amended.  For a [ref] term with value [K], let [links] be the links
    the store holds for the record it has under [K] (none when it has no
    such record).  The compiled predicate returns [true] on the record
    whose own key is [K], and on every record whose key is the key of the
    target of one of these links; on any other record whose key is a string
    it returns [false], a key that names a member of [Object.prototype]
    left aside. *)
Theorem C8_reference_matches_own_key_and_link_targets
    (K : string) (user : option GitHubUser) (links : list jsval)
    (keys : list string) (search : string) :
  K <> "" -> K <> "@me" ->
  orEmpty (if truthy (getIssueByKey K)
           then getIssueLinks (getIssueByKey K)
           else getIssueByKey K) = VArr links ->
  keyLinks [] links = Ok keys ->
  parseSearch search = [mkTerm "ref" K false] ->
  exists p,
    getSearchFilter search user = Ok p
    /\ (forall props log,
          lookup "key" props = Some (VStr K) ->
          p (VObj props) log = (Ok (VBool true), log))
    /\ (forall props k link log,
          lookup "key" props = Some (VStr k) ->
          In link links -> targetKey link = Ok k ->
          p (VObj props) log = (Ok (VBool true), log))
    /\ (forall props k log,
          lookup "key" props = Some (VStr k) ->
          k <> K ->
          inherited k = false ->
          (forall link, In link links -> targetKey link <> Ok k) ->
          p (VObj props) log = (Ok (VBool false), log)).
Proof.
  intros Hne Hme Hlinks Hkeys Hp.
  assert (Hs : substituteMe user K = Some K).
  { unfold substituteMe. rewrite (eqb_neq_false _ _ Hme). reflexivity. }
  pose proof (compileTerm_factory user (mkTerm "ref" K false) K K _
                eq_refl Hne Hs filters_ref) as Hc.
  unfold referenceFilter in Hc. rewrite Hlinks, Hkeys in Hc. simpl in Hc.
  unfold getSearchFilter. rewrite Hp. simpl. rewrite Hc. simpl.
  eexists. split; [reflexivity |].
  pose proof (keyLinks_spec links [] keys Hkeys) as Hspec.
  split; [| split].
  - intros props log Hl.
    rewrite (single_returns _ _ (Data (VBool true))); [reflexivity |].
    simpl. rewrite Hl. simpl. rewrite String.eqb_refl. reflexivity.
  - intros props k link log Hl Hin Htk.
    assert (Hr : exists r,
               (fun issue : jsval =>
                  key <- get issue "key" ;;
                  if strictEqStr key K then Ok (Data (VBool true))
                  else p <- toString key ;; Ok (lookupFlag keys p))
                 (VObj props) = Ok r /\ toBoolean r = true).
    { simpl. rewrite Hl. simpl.
      destruct (String.eqb k K); [eauto |]. simpl.
      unfold lookupFlag.
      destruct (existsb (String.eqb k) keys) eqn:Hex; [eauto |].
      destruct (String.eqb k "__proto__") eqn:Hproto.
      - apply String.eqb_eq in Hproto. subst k.
        rewrite inherited_proto. eauto.
      - apply String.eqb_neq in Hproto.
        assert (Hk : In k keys) by (apply Hspec; right; eauto).
        apply existsb_eqb_In in Hk. congruence. }
    destruct Hr as [r [Hr Ht]].
    rewrite (single_returns _ _ r log Hr), Ht. reflexivity.
  - intros props k log Hl Hk Hinh Hnone.
    rewrite (single_returns _ _ (Data VUndefined)); [reflexivity |].
    simpl. rewrite Hl. simpl. rewrite (eqb_neq_false _ _ Hk). simpl.
    unfold lookupFlag. rewrite Hinh.
    destruct (existsb (String.eqb k) keys) eqn:Hex; [| reflexivity].
    apply existsb_eqb_In in Hex. apply Hspec in Hex.
    destruct Hex as [[] | [_ [link [Hin Htk]]]].
    exfalso. exact (Hnone link Hin Htk).
Qed.

(** ** Comments *)

Lemma get_throws_TypeError (v : jsval) (p : string) (e : error) :
  get v p = Throw e -> e = TypeError.
Proof.
  destruct v as [| | b | n | s | items | props]; simpl; intros H;
    try (inversion H; reflexivity); try discriminate.
  - destruct (String.eqb p "length"); discriminate.
  - destruct (String.eqb p "length"); discriminate.
  - destruct (lookup p props); discriminate.
Qed.

(** The callback of [comments.some]: it answers for a comment that has an
    author with a string login, and throws on any other. *)
Lemma commented_callback (name : string) (comment : jsval) :
  name <> "" ->
  (user <- get comment "user" ;;
   l <- get user "login" ;;
   fuzzyMatches l name)
  = match commentAuthor comment with
    | Some l => Ok (Data (VBool (startsWithNoCase l name)))
    | None => Throw TypeError
    end.
Proof.
  intros Hname. unfold commentAuthor, fuzzyMatches.
  rewrite (eqb_neq_false _ _ Hname).
  destruct (get comment "user") as [u | e] eqn:Hu; simpl.
  - destruct (get u "login") as [l | e] eqn:Hl; simpl.
    + destruct l; reflexivity.
    + rewrite (get_throws_TypeError _ _ _ Hl). reflexivity.
  - rewrite (get_throws_TypeError _ _ _ Hu). reflexivity.
Qed.

Section SomeComment.

Variable name : string.
Variable cb : jsval -> result answer.
Hypothesis cb_spec :
  forall comment,
    cb comment
    = match commentAuthor comment with
      | Some l => Ok (Data (VBool (startsWithNoCase l name)))
      | None => Throw TypeError
      end.

Lemma someItems_well_formed (comments : list jsval) :
  Forall (fun c => commentAuthor c <> None) comments ->
  someItems cb comments = Ok (existsb (commentMatches name) comments).
Proof.
  induction comments as [| c rest IH]; simpl; intros H; [reflexivity |].
  inversion H as [| ? ? Hc Hrest]; subst.
  rewrite cb_spec. unfold commentMatches.
  destruct (commentAuthor c) as [l |]; [| congruence]. simpl.
  destruct (startsWithNoCase l name); simpl; [reflexivity |].
  exact (IH Hrest).
Qed.

Lemma someItems_true (comments : list jsval) :
  someItems cb comments = Ok true
  <-> exists pre c post,
        comments = (pre ++ c :: post)%list
        /\ commentMatches name c = true
        /\ Forall (fun c' => commentAuthor c' <> None) pre.
Proof.
  induction comments as [| c rest IH]; simpl.
  - split; [discriminate |].
    intros [pre [c [post [H _]]]]. destruct pre; discriminate.
  - rewrite cb_spec. unfold commentMatches at 1.
    destruct (commentAuthor c) as [l |] eqn:Hc; simpl.
    + destruct (startsWithNoCase l name) eqn:Hm; simpl.
      * split; [| reflexivity]. intros _.
        exists [], c, rest. repeat split; [| constructor].
        unfold commentMatches. rewrite Hc. exact Hm.
      * rewrite IH. split.
        -- intros [pre [c' [post [-> [Hm' Hpre]]]]].
           exists (c :: pre), c', post. repeat split; [exact Hm' |].
           constructor; [congruence | exact Hpre].
        -- intros [pre [c' [post [Heq [Hm' Hpre]]]]].
           destruct pre as [| c0 pre]; simpl in Heq; inversion Heq; subst.
           ++ unfold commentMatches in Hm'. rewrite Hc in Hm'. congruence.
           ++ inversion Hpre; subst. exists pre, c', post. auto.
    + split; [discriminate |].
      intros [pre [c' [post [Heq [Hm' Hpre]]]]].
      destruct pre as [| c0 pre]; simpl in Heq; inversion Heq; subst.
      * unfold commentMatches in Hm'. rewrite Hc in Hm'. discriminate.
      * inversion Hpre; subst. congruence.
Qed.

End SomeComment.

Lemma filters_commented :
  filters "commented" = Some (fun v => Ok (commentedFilter v)).
Proof. reflexivity. Qed.

(** C9, amended.  For a [commented] term with a name, the compiled
    predicate returns [false], and logs nothing, on every record whose
    [comments] is missing or is not an array.  On a record with an array of
    comments it accepts the record exactly when some comment has an author
    whose login starts with the name, case set aside, and every comment
    before that one has a user with a string login; when all the comments
    have one, it returns whether some author's login starts with the
    name. *)
Theorem C9_commented_needs_a_comment_list
    (NAME : string) (user : option GitHubUser) (search : string) :
  NAME <> "" -> NAME <> "@me" ->
  parseSearch search = [mkTerm "commented" NAME false] ->
  exists p,
    getSearchFilter search user = Ok p
    /\ (forall props log,
          lookup "comments" props = None
          \/ (exists c, lookup "comments" props = Some c
                        /\ isArray c = false) ->
          p (VObj props) log = (Ok (VBool false), log))
    /\ (forall props comments log,
          lookup "comments" props = Some (VArr comments) ->
          fst (p (VObj props) log) = Ok (VBool true)
          <-> exists pre c post,
                comments = (pre ++ c :: post)%list
                /\ commentMatches NAME c = true
                /\ Forall (fun c' => commentAuthor c' <> None) pre)
    /\ (forall props comments log,
          lookup "comments" props = Some (VArr comments) ->
          Forall (fun c => commentAuthor c <> None) comments ->
          p (VObj props) log
          = (Ok (VBool (existsb (commentMatches NAME) comments)), log)).
Proof.
  intros Hne Hme Hp.
  assert (Hs : substituteMe user NAME = Some NAME).
  { unfold substituteMe. rewrite (eqb_neq_false _ _ Hme). reflexivity. }
  pose proof (compileTerm_factory user (mkTerm "commented" NAME false)
                NAME NAME _ eq_refl Hne Hs filters_commented) as Hc.
  simpl in Hc.
  unfold getSearchFilter. rewrite Hp. simpl. rewrite Hc. simpl.
  eexists. split; [reflexivity |].
  pose proof (commented_callback NAME) as Hcb.
  split; [| split].
  - intros props log H.
    rewrite (single_returns _ _ (Data (VBool false))); [reflexivity |].
    unfold commentedFilter. simpl.
    destruct H as [H | [c [H Hc']]]; rewrite H; simpl; [reflexivity |].
    rewrite Hc'. reflexivity.
  - intros props comments log Hl. rewrite single_accepts.
    rewrite <- (someItems_true NAME _ (fun c => Hcb c Hne)).
    unfold accepts, commentedFilter. simpl. rewrite Hl. simpl.
    destruct (someItems _ comments) as [b | e]; simpl.
    + split.
      * intros [r [Hr Ht]]. inversion Hr; subst r. simpl in Ht. congruence.
      * intros H. inversion H; subst b. eauto.
    + split; [intros [r [Hr _]] |]; discriminate.
  - intros props comments log Hl Hwf.
    rewrite (single_returns _ _
               (Data (VBool (existsb (commentMatches NAME) comments))));
      [reflexivity |].
    unfold commentedFilter. simpl. rewrite Hl. simpl.
    rewrite (someItems_well_formed NAME _ (fun c => Hcb c Hne) comments Hwf).
    reflexivity.
Qed.

(** ** The order of the terms *)

Lemma mapM_perm {A B : Type} (f : A -> result B) (l l' : list A) :
  Permutation l l' ->
  forall ys, mapM f l = Ok ys ->
             exists ys', mapM f l' = Ok ys' /\ Permutation ys ys'.
Proof.
  induction 1 as [| x l l' Hperm IH | x y l | l l' l'' H1 IH1 H2 IH2];
    simpl; intros ys H.
  - inversion H; subst. exists []. split; [reflexivity | constructor].
  - apply bind_Ok in H. destruct H as [b [Hb H]].
    apply bind_Ok in H. destruct H as [bs [Hbs H]].
    inversion H; subst ys; clear H.
    destruct (IH bs Hbs) as [bs' [Hbs' Hp]].
    rewrite Hb, Hbs'. simpl. exists (b :: bs'). split; [reflexivity |].
    constructor. exact Hp.
  - apply bind_Ok in H. destruct H as [b [Hb H]].
    apply bind_Ok in H. destruct H as [bs [H Hys]].
    apply bind_Ok in H. destruct H as [a [Ha H]].
    apply bind_Ok in H. destruct H as [rest [Hrest H]].
    inversion H; subst bs; clear H. inversion Hys; subst ys; clear Hys.
    rewrite Ha, Hb, Hrest. simpl. exists (a :: b :: rest).
    split; [reflexivity | constructor].
  - destruct (IH1 ys H) as [ys' [H' Hp]].
    destruct (IH2 ys' H') as [ys'' [H'' Hp']].
    exists ys''. split; [exact H'' | eapply perm_trans; eassumption].
Qed.

Lemma accepts_perm (issue : jsval) (fs fs' : list filter) :
  Permutation fs fs' ->
  Forall (accepts issue) fs -> Forall (accepts issue) fs'.
Proof.
  intros Hperm H. rewrite Forall_forall in *.
  intros fn Hin. apply H. eapply Permutation_in; [| exact Hin].
  apply Permutation_sym. exact Hperm.
Qed.

Lemma searchFilter_boolean (filterFns : list filter) (issue ident : jsval)
      (log : list LogEntry) :
  issueIdent issue = Ok ident ->
  fst (searchFilter filterFns issue log) = Ok (VBool true)
  \/ fst (searchFilter filterFns issue log) = Ok (VBool false).
Proof.
  intros Hid. unfold searchFilter.
  destruct (every filterFns issue) as [[|] | e]; simpl; auto.
  rewrite Hid. simpl. auto.
Qed.

(** C10, amended.  The predicate returns [true] exactly when every matcher
    of the term list returns, and returns something truthy.  So when the
    terms of one search are a permutation of the terms of another, both
    compile or both fail to, the two predicates accept the same records,
    and they return the same boolean on every record for which the log
    identifier can be computed. *)
Theorem C10_term_order_is_irrelevant
    (search search' : string) (user : option GitHubUser) :
  Permutation (parseSearch search) (parseSearch search') ->
  (forall p,
      getSearchFilter search user = Ok p ->
      exists filterFns,
        mapM (compileTerm user) (parseSearch search) = Ok filterFns
        /\ forall issue log,
            fst (p issue log) = Ok (VBool true)
            <-> Forall (accepts issue) filterFns)
  /\ match getSearchFilter search user, getSearchFilter search' user with
     | Ok p, Ok p' =>
         forall issue log log',
           (fst (p issue log) = Ok (VBool true)
            <-> fst (p' issue log') = Ok (VBool true))
           /\ (forall ident,
                 issueIdent issue = Ok ident ->
                 fst (p issue log) = fst (p' issue log'))
     | Throw _, Throw _ => True
     | _, _ => False
     end.
Proof.
  intros Hperm. split.
  - intros p Hp. unfold getSearchFilter in Hp. apply bind_Ok in Hp.
    destruct Hp as [filterFns [Hmap Hp]]. inversion Hp; subst p.
    exists filterFns. split; [exact Hmap |].
    intros issue log. apply searchFilter_true.
  - unfold getSearchFilter.
    destruct (mapM (compileTerm user) (parseSearch search))
      as [fs | e] eqn:Hfs; simpl.
    + destruct (mapM_perm _ _ _ Hperm fs Hfs) as [fs' [Hfs' Hp]].
      rewrite Hfs'. simpl. intros issue log log'.
      assert (Hiff : fst (searchFilter fs issue log) = Ok (VBool true)
                     <-> fst (searchFilter fs' issue log') = Ok (VBool true)).
      { rewrite !searchFilter_true. split; apply accepts_perm;
          [exact Hp | apply Permutation_sym; exact Hp]. }
      split; [exact Hiff |].
      intros ident Hid.
      destruct (searchFilter_boolean fs issue ident log Hid) as [H | H];
        destruct (searchFilter_boolean fs' issue ident log' Hid) as [H' | H'];
        rewrite H, H'; try reflexivity.
      * apply Hiff in H. congruence.
      * apply Hiff in H'. congruence.
    + destruct (mapM (compileTerm user) (parseSearch search'))
        as [fs' | e'] eqn:Hfs'; simpl; [| exact I].
      destruct (mapM_perm _ _ _ (Permutation_sym Hperm) fs' Hfs')
        as [fs [Hfs2 _]].
      congruence.
Qed.

(** ** Strings *)

Lemma lowerChar_idempotent (c : ascii) : lowerChar (lowerChar c) = lowerChar c.
Proof.
  destruct c as [[] [] [] [] [] [] [] []]; reflexivity.
Qed.

Lemma lower_idempotent (s : string) : lower (lower s) = lower s.
Proof.
  induction s as [| c s IH]; simpl; [reflexivity |].
  rewrite lowerChar_idempotent, IH. reflexivity.
Qed.

Lemma lower_app (a b : string) : lower (a ++ b) = lower a ++ lower b.
Proof.
  induction a as [| c a IH]; simpl; [reflexivity |].
  rewrite IH. reflexivity.
Qed.

Lemma string_app_assoc (a b c : string) : (a ++ b) ++ c = a ++ b ++ c.
Proof.
  induction a as [| x a IH]; simpl; [reflexivity |].
  rewrite IH. reflexivity.
Qed.

Lemma lower_eqb_empty (s : string) :
  String.eqb (lower s) "" = String.eqb s "".
Proof. destruct s; reflexivity. Qed.

Lemma prefix_app (p s t : string) :
  String.prefix p s = true -> String.prefix p (s ++ t) = true.
Proof.
  revert s. induction p as [| c p IH]; intros s H.
  - destruct s; destruct t; reflexivity.
  - destruct s as [| d s]; simpl in *; [discriminate |].
    destruct (ascii_dec c d); [apply IH; exact H | discriminate].
Qed.

Lemma strIncludes_cons (c : ascii) (s p : string) :
  strIncludes (String c s) p
  = (String.prefix p (String c s) || strIncludes s p)%bool.
Proof.
  cbn [strIncludes]. destruct (String.prefix p (String c s)); reflexivity.
Qed.

Lemma strIncludes_prefix (s p : string) :
  String.prefix p s = true -> strIncludes s p = true.
Proof.
  intros H. destruct s as [| c s].
  - cbn [strIncludes]. rewrite H. reflexivity.
  - rewrite strIncludes_cons, H. reflexivity.
Qed.

Lemma strIncludes_app_r (s t p : string) :
  strIncludes s p = true -> strIncludes (s ++ t) p = true.
Proof.
  induction s as [| c s IH]; intros H.
  - apply strIncludes_prefix. apply (prefix_app p "" t).
    cbn [strIncludes] in H.
    destruct (String.prefix p ""); [reflexivity | discriminate].
  - change (String c s ++ t) with (String c (s ++ t)).
    rewrite strIncludes_cons in *.
    apply orb_true_iff in H. apply orb_true_iff.
    destruct H as [H | H].
    + left. exact (prefix_app p (String c s) t H).
    + right. exact (IH H).
Qed.

Lemma strIncludes_app_l (s t p : string) :
  strIncludes s p = true -> strIncludes (t ++ s) p = true.
Proof.
  intros H. induction t as [| c t IH]; [exact H |].
  change (String c t ++ s) with (String c (t ++ s)).
  rewrite strIncludes_cons, IH. apply orb_true_r.
Qed.

Lemma includes_string (a p : string) :
  p <> "" ->
  includes (VStr a) p = Ok (Data (VBool (strIncludes (lower a) (lower p)))).
Proof.
  intros H. unfold includes. rewrite (eqb_neq_false _ _ H). reflexivity.
Qed.

Lemma fuzzyMatches_string (a p : string) :
  p <> "" ->
  fuzzyMatches (VStr a) p = Ok (Data (VBool (startsWithNoCase a p))).
Proof.
  intros H. unfold fuzzyMatches. rewrite (eqb_neq_false _ _ H). reflexivity.
Qed.

(** X14.  The two string tests do not see letter case: putting the text or
    the pattern in lower case changes no answer.  And a text that starts
    with the pattern contains it, so whatever [fuzzyMatches] accepts,
    [includes] accepts too. *)
Theorem X14_string_tests_ignore_case (a p : string) :
  includes (VStr (lower a)) p = includes (VStr a) p
  /\ fuzzyMatches (VStr (lower a)) p = fuzzyMatches (VStr a) p
  /\ (exists r r',
        includes (VStr a) (lower p) = Ok r /\ includes (VStr a) p = Ok r'
        /\ toBoolean r = toBoolean r')
  /\ (exists r r',
        fuzzyMatches (VStr a) (lower p) = Ok r
        /\ fuzzyMatches (VStr a) p = Ok r'
        /\ toBoolean r = toBoolean r')
  /\ (forall r r',
        fuzzyMatches (VStr a) p = Ok r -> toBoolean r = true ->
        includes (VStr a) p = Ok r' -> toBoolean r' = true).
Proof.
  unfold includes, fuzzyMatches, toLowerCase. simpl.
  rewrite !lower_idempotent, lower_eqb_empty.
  split; [reflexivity |]. split; [reflexivity |].
  destruct (String.eqb p "") eqn:Hp.
  - apply String.eqb_eq in Hp. subst p. simpl.
    repeat split; try (eexists; eexists; repeat split).
    intros r r' H Hr. inversion H; subst r. discriminate.
  - split; [eexists; eexists; repeat split |].
    split; [eexists; eexists; repeat split |].
    intros r r' H Hr H'. inversion H; subst r. inversion H'; subst r'.
    simpl in *. apply strIncludes_prefix. exact Hr.
Qed.

(** ** Conjunction and the log *)

Lemma mapM_app_Ok {A B : Type} (f : A -> result B) (l1 l2 : list A)
      (ys : list B) :
  mapM f (l1 ++ l2)%list = Ok ys
  <-> exists ys1 ys2,
        mapM f l1 = Ok ys1 /\ mapM f l2 = Ok ys2 /\ ys = (ys1 ++ ys2)%list.
Proof.
  rewrite mapM_app. split.
  - intros H. apply bind_Ok in H. destruct H as [ys1 [H1 H]].
    apply bind_Ok in H. destruct H as [ys2 [H2 H]].
    inversion H; subst ys. eauto.
  - intros [ys1 [ys2 [H1 [H2 ->]]]]. rewrite H1, H2. reflexivity.
Qed.

(** X1.  The terms of a search are conjoined.  When the terms of a search
    are those of a first search followed by those of a second, it compiles
    exactly when both compile, and its predicate accepts a record exactly
    when both predicates accept it. *)
Theorem X1_terms_are_conjoined
    (search s1 s2 : string) (user : option GitHubUser) :
  parseSearch search = (parseSearch s1 ++ parseSearch s2)%list ->
  (forall p,
      getSearchFilter search user = Ok p ->
      exists p1 p2,
        getSearchFilter s1 user = Ok p1
        /\ getSearchFilter s2 user = Ok p2
        /\ forall issue log log1 log2,
            fst (p issue log) = Ok (VBool true)
            <-> fst (p1 issue log1) = Ok (VBool true)
                /\ fst (p2 issue log2) = Ok (VBool true))
  /\ (forall p1 p2,
        getSearchFilter s1 user = Ok p1 ->
        getSearchFilter s2 user = Ok p2 ->
        exists p, getSearchFilter search user = Ok p).
Proof.
  intros Hparse. unfold getSearchFilter. rewrite Hparse. split.
  - intros p Hp. apply bind_Ok in Hp. destruct Hp as [fs [Hfs Hp]].
    inversion Hp; subst p; clear Hp.
    apply mapM_app_Ok in Hfs. destruct Hfs as [fs1 [fs2 [H1 [H2 ->]]]].
    rewrite H1, H2. simpl. eexists. eexists.
    split; [reflexivity |]. split; [reflexivity |].
    intros issue log log1 log2. rewrite !searchFilter_true.
    apply Forall_app.
  - intros p1 p2 H1 H2.
    apply bind_Ok in H1. destruct H1 as [fs1 [H1 _]].
    apply bind_Ok in H2. destruct H2 as [fs2 [H2 _]].
    assert (H : mapM (compileTerm user)
                     (parseSearch s1 ++ parseSearch s2)%list
                = Ok (fs1 ++ fs2)%list)
      by (apply mapM_app_Ok; eauto).
    rewrite H. simpl. eauto.
Qed.

(** X2.  An application of the compiled predicate never takes a record out
    of the log and adds at most one; it adds none when it returns [true],
    and when it adds one it returns [false]. *)
Theorem X2_log_only_grows
    (search : string) (user : option GitHubUser) (p : predicate)
    (issue : jsval) (log : list LogEntry) :
  getSearchFilter search user = Ok p ->
  exists added,
    snd (p issue log) = (log ++ added)%list
    /\ List.length added <= 1
    /\ (fst (p issue log) = Ok (VBool true) -> added = [])
    /\ (added <> [] -> fst (p issue log) = Ok (VBool false)).
Proof.
  unfold getSearchFilter. intros Hp.
  apply bind_Ok in Hp. destruct Hp as [fs [_ Hp]].
  inversion Hp; subst p; clear Hp. unfold searchFilter.
  destruct (every fs issue) as [b | e].
  - exists []. simpl. rewrite app_nil_r.
    repeat split; auto. intros H. contradiction H; reflexivity.
  - destruct (issueIdent issue) as [ident | e'].
    + exists [failure ident e]. simpl.
      repeat split; auto. discriminate.
    + exists []. simpl. rewrite app_nil_r.
      repeat split; auto; try discriminate.
      intros H. contradiction H; reflexivity.
Qed.

(** ** The [is] matchers *)

Lemma someItems_tests (cb : jsval -> result answer) (test : jsval -> bool)
      (l : list jsval) :
  Forall (fun x => exists r, cb x = Ok r /\ toBoolean r = test x) l ->
  someItems cb l = Ok (existsb test l).
Proof.
  induction 1 as [| x l [r [Hr Ht]] _ IH]; simpl; [reflexivity |].
  rewrite Hr. simpl. rewrite Ht.
  destruct (test x); simpl; [reflexivity | exact IH].
Qed.

Lemma accepts_Ok (issue : jsval) (fn : filter) (r : answer) :
  fn issue = Ok r -> (accepts issue fn <-> toBoolean r = true).
Proof.
  intros H. unfold accepts. split.
  - intros [r' [Hr' Ht]]. congruence.
  - intros Ht. eauto.
Qed.

(** X3.  On a record whose [assignees] is an array, [is:assigned] answers
    with its length and [is:unassigned] with whether the length is zero:
    one of them accepts the record and not the other.  On a record whose
    [assignees] is [undefined] or [null] both throw. *)
Theorem X3_assigned_or_unassigned (issue : jsval) :
  (forall l,
      get issue "assignees" = Ok (VArr l) ->
      (accepts issue (isFilter "assigned") <-> l <> [])
      /\ (accepts issue (isFilter "unassigned") <-> l = [])
      /\ ~ throwsOn issue (isFilter "assigned")
      /\ ~ throwsOn issue (isFilter "unassigned"))
  /\ (forall a,
        get issue "assignees" = Ok a -> nullish a = true ->
        throwsOn issue (isFilter "assigned")
        /\ throwsOn issue (isFilter "unassigned")).
Proof.
  change (isFilter "assigned") with filterAssigned.
  change (isFilter "unassigned") with filterUnassigned.
  unfold filterAssigned, filterUnassigned, throwsOn. split.
  - intros l Hl.
    rewrite (accepts_Ok issue _ (Data (VNum (Z.of_nat (List.length l)))));
      [| rewrite Hl; reflexivity].
    rewrite (accepts_Ok issue _
               (Data (VBool (Z.eqb (Z.of_nat (List.length l)) 0))));
      [| rewrite Hl; reflexivity].
    rewrite Hl. simpl.
    destruct l as [| x l]; simpl.
    + repeat split; try congruence; try discriminate;
        intros [e He]; discriminate.
    + repeat split; try congruence; try discriminate;
        intros [e He]; discriminate.
  - intros a Ha Hn. rewrite Ha. simpl.
    destruct a; try discriminate; simpl; eauto.
Qed.

(** X4.  [is:open] accepts exactly the records whose [state] is the string
    [open], and [is:closed] those whose [state] is the string [closed]; no
    record is accepted by both. *)
Theorem X4_open_and_closed_exclude_each_other (issue : jsval) :
  (accepts issue (isFilter "open") <-> get issue "state" = Ok (VStr "open"))
  /\ (accepts issue (isFilter "closed")
      <-> get issue "state" = Ok (VStr "closed"))
  /\ ~ (accepts issue (isFilter "open") /\ accepts issue (isFilter "closed")).
Proof.
  change (isFilter "open") with filterOpen.
  change (isFilter "closed") with filterClosed.
  assert (H : forall s,
             (exists r,
                 (state <- get issue "state" ;;
                  Ok (Data (VBool (strictEqStr state s)))) = Ok r
                 /\ toBoolean r = true)
             <-> get issue "state" = Ok (VStr s)).
  { intros s. destruct (get issue "state") as [st | e]; simpl.
    - split.
      + intros [r [Hr Ht]]. inversion Hr; subst r. simpl in Ht.
        destruct st; simpl in Ht; try discriminate.
        apply String.eqb_eq in Ht. subst. reflexivity.
      + intros Hst. inversion Hst; subst st. eexists.
        split; [reflexivity |]. simpl. apply String.eqb_refl.
    - split; [intros [r [Hr _]] |]; discriminate. }
  unfold accepts, filterOpen, filterClosed.
  split; [apply H |]. split; [apply H |].
  intros [Ho Hc]. apply H in Ho. apply H in Hc. congruence.
Qed.

(** X5.  [is:issue] and [is:pull] split the records: on every value but
    [undefined] and [null] neither throws, and exactly one accepts. *)
Theorem X5_issue_or_pull (issue : jsval) :
  nullish issue = false ->
  ~ throwsOn issue (isFilter "issue")
  /\ ~ throwsOn issue (isFilter "pull")
  /\ (accepts issue (isFilter "issue") <-> ~ accepts issue (isFilter "pull")).
Proof.
  change (isFilter "issue") with filterIssue.
  change (isFilter "pull") with filterPull.
  intros Hn. destruct (get_not_nullish issue "pull_request" Hn) as [pr Hpr].
  unfold throwsOn, accepts, filterIssue, filterPull. rewrite Hpr. simpl.
  split; [intros [e He]; discriminate |].
  split; [intros [e He]; discriminate |].
  split.
  - intros [r [Hr Ht]] [r' [Hr' Ht']].
    inversion Hr; subst r. inversion Hr'; subst r'. simpl in *.
    rewrite Ht' in Ht. discriminate.
  - intros H. eexists. split; [reflexivity |]. simpl.
    destruct (truthy pr) eqn:Ht; [| reflexivity].
    exfalso. apply H. eexists. split; [reflexivity | exact Ht].
Qed.

Lemma toString_string (s : string) : toString (VStr s) = Ok s.
Proof. reflexivity. Qed.

(** X6.  [is:epic] accepts a record whose [links] is missing or falsy, and
    a record whose links all carry a string type accepts it exactly when
    none of them is of type [CHILD_OF] or [CLOSES] (types that name a
    member of [Object.prototype] left aside). *)
Theorem X6_epic_has_no_child_link (issue : jsval) :
  (forall l,
      get issue "links" = Ok l -> truthy l = false ->
      isFilter "epic" issue = Ok (Data (VBool true)))
  /\ (forall links,
        get issue "links" = Ok (VArr links) ->
        Forall (fun link =>
                  exists ty, stringField "type" link = Some ty
                             /\ inherited ty = false) links ->
        isFilter "epic" issue
        = Ok (Data (VBool (negb (existsb (childLink CHILD_OF CLOSES)
                                         links))))).
Proof.
  change (isFilter "epic") with filterEpic. unfold filterEpic. split.
  - intros l Hl Ht. rewrite Hl. simpl. rewrite Ht. reflexivity.
  - intros links Hl Hwf. rewrite Hl. simpl.
    rewrite (someItems_tests _ (childLink CHILD_OF CLOSES)).
    + reflexivity.
    + eapply Forall_impl; [| exact Hwf].
      intros link [ty [Hty Hi]]. unfold childLink. rewrite Hty.
      unfold stringField in Hty.
      destruct (get link "type") as [t |]; [| discriminate].
      destruct t; try discriminate. inversion Hty; subst.
      simpl. unfold CHILD_LINK_TYPES, lookupFlag. simpl. rewrite Hi.
      rewrite orb_false_r.
      eexists. split; [reflexivity |].
      destruct (String.eqb ty CHILD_OF || String.eqb ty CLOSES)%bool;
        reflexivity.
Qed.

(** ** Labels, milestones and people *)

Lemma stringField_get (p : string) (v : jsval) (s : string) :
  stringField p v = Some s -> get v p = Ok (VStr s).
Proof.
  unfold stringField. destruct (get v p) as [x |]; [| discriminate].
  destruct x; try discriminate. intros H. inversion H. reflexivity.
Qed.

Lemma stringField_some (p : string) (v : jsval) :
  stringField p v <> None -> exists s, stringField p v = Some s.
Proof.
  destruct (stringField p v) as [s |]; [eauto | congruence].
Qed.

Lemma commentAuthor_get (c : jsval) (l : string) :
  commentAuthor c = Some l ->
  exists u, get c "user" = Ok u /\ get u "login" = Ok (VStr l).
Proof.
  unfold commentAuthor. destruct (get c "user") as [u |]; [| discriminate].
  destruct (get u "login") as [x |] eqn:Hx; [| discriminate].
  destruct x; try discriminate. intros H. inversion H; subst. eauto.
Qed.

(** X7.  [label] with a name rejects, without throwing, a record whose
    [labels] is missing or falsy; on a record whose labels all have a
    string name it answers whether some name contains the name searched
    for, case set aside. *)
Theorem X7_label_is_a_substring_match (name : string) (issue : jsval) :
  name <> "" ->
  (forall l,
      get issue "labels" = Ok l -> truthy l = false ->
      labelFilter name issue = Ok (Data (VBool false)))
  /\ (forall labels,
        get issue "labels" = Ok (VArr labels) ->
        Forall (fun label => stringField "name" label <> None) labels ->
        labelFilter name issue
        = Ok (Data (VBool (existsb (labelMatches name) labels)))).
Proof.
  intros Hname. unfold labelFilter. split.
  - intros l Hl Ht. rewrite Hl. simpl. unfold orEmpty. rewrite Ht.
    reflexivity.
  - intros labels Hl Hwf. rewrite Hl. simpl.
    rewrite (someItems_tests _ (labelMatches name)); [reflexivity |].
    eapply Forall_impl; [| exact Hwf].
    intros label Hs. apply stringField_some in Hs. destruct Hs as [n Hn].
    unfold labelMatches. rewrite Hn.
    rewrite (stringField_get _ _ _ Hn). simpl.
    rewrite (includes_string n name Hname). eauto.
Qed.

(** X10.  [milestone] rejects, without throwing, a record with no
    milestone; on a record whose milestone has a string title it answers
    whether the title starts with the name searched for, case set
    aside. *)
Theorem X10_milestone_is_a_prefix_match (name : string) (issue : jsval) :
  name <> "" ->
  (forall m,
      get issue "milestone" = Ok m -> truthy m = false ->
      milestoneFilter name issue = Ok (Data m)
      /\ ~ accepts issue (milestoneFilter name))
  /\ (forall m title,
        get issue "milestone" = Ok m -> truthy m = true ->
        stringField "title" m = Some title ->
        milestoneFilter name issue
        = Ok (Data (VBool (startsWithNoCase title name)))).
Proof.
  intros Hname. unfold milestoneFilter. split.
  - intros m Hm Ht. rewrite Hm. simpl. rewrite Ht.
    split; [reflexivity |].
    intros [r [Hr Hr']]. rewrite Hm in Hr. simpl in Hr. rewrite Ht in Hr.
    inversion Hr; subst r. simpl in Hr'. congruence.
  - intros m title Hm Ht Htitle. rewrite Hm. simpl. rewrite Ht.
    rewrite (stringField_get _ _ _ Htitle). simpl.
    apply fuzzyMatches_string. exact Hname.
Qed.

Lemma login_callback (name : string) (user : jsval) :
  name <> "" -> stringField "login" user <> None ->
  exists r,
    (l <- get user "login" ;; fuzzyMatches l name) = Ok r
    /\ toBoolean r = loginMatches name user.
Proof.
  intros Hname Hs. apply stringField_some in Hs. destruct Hs as [l Hl].
  unfold loginMatches. rewrite Hl, (stringField_get _ _ _ Hl). simpl.
  rewrite (fuzzyMatches_string l name Hname). eauto.
Qed.


(** X11.  [assignee] rejects, without throwing, a record whose [assignees]
    is missing or falsy; on a record whose assignees all have a string
    login it answers whether some login starts with the name searched for,
    case set aside. *)
Theorem X11_assignee_is_a_prefix_match (name : string) (issue : jsval) :
  name <> "" ->
  (forall l,
      get issue "assignees" = Ok l -> truthy l = false ->
      assigneeFilter name issue = Ok (Data (VBool false)))
  /\ (forall assignees,
        get issue "assignees" = Ok (VArr assignees) ->
        Forall (fun a => stringField "login" a <> None) assignees ->
        assigneeFilter name issue
        = Ok (Data (VBool (existsb (loginMatches name) assignees)))).
Proof.
  intros Hname. unfold assigneeFilter. split.
  - intros l Hl Ht. rewrite Hl. simpl. unfold orEmpty. rewrite Ht.
    reflexivity.
  - intros assignees Hl Hwf. rewrite Hl. simpl.
    rewrite (someItems_tests _ (loginMatches name)); [reflexivity |].
    eapply Forall_impl; [| exact Hwf].
    intros a Hs. apply login_callback; assumption.
Qed.


(** X13.  [involves] is the disjunction of [assignee], [author], [reviewer]
    and [commented] for the same name: when it accepts a record one of the
    four accepts it, and on a record where none of the four throws it
    accepts exactly when one of them does. *)
Theorem X13_involves_is_a_disjunction (name : string) (issue : jsval) :
  (accepts issue (involvesFilter name) ->
   accepts issue (assigneeFilter name)
   \/ accepts issue (authorFilter name)
   \/ accepts issue (reviewerFilter name)
   \/ accepts issue (commentedFilter name))
  /\ (~ throwsOn issue (assigneeFilter name) ->
      ~ throwsOn issue (authorFilter name) ->
      ~ throwsOn issue (reviewerFilter name) ->
      ~ throwsOn issue (commentedFilter name) ->
      ~ throwsOn issue (involvesFilter name)
      /\ (accepts issue (assigneeFilter name)
          \/ accepts issue (authorFilter name)
          \/ accepts issue (reviewerFilter name)
          \/ accepts issue (commentedFilter name) ->
          accepts issue (involvesFilter name))).
Proof.
  unfold involvesFilter, accepts, throwsOn.
  destruct (assigneeFilter name issue) as [a | ea]; simpl.
  2:{ split; [intros [r [Hr _]]; discriminate |].
      intros H. exfalso. apply H. eauto. }
  destruct (toBoolean a) eqn:Ha.
  { split; [intros _; left; eauto |].
    intros _ _ _ _. split; [intros [e He]; discriminate | eauto]. }
  destruct (authorFilter name issue) as [b | eb]; simpl.
  2:{ split; [intros [r [Hr _]]; discriminate |].
      intros _ H. exfalso. apply H. eauto. }
  destruct (toBoolean b) eqn:Hb.
  { split; [intros _; right; left; eauto |].
    intros _ _ _ _. split; [intros [e He]; discriminate | eauto]. }
  destruct (reviewerFilter name issue) as [c | ec]; simpl.
  2:{ split; [intros [r [Hr _]]; discriminate |].
      intros _ _ H. exfalso. apply H. eauto. }
  destruct (toBoolean c) eqn:Hc.
  { split; [intros _; right; right; left; eauto |].
    intros _ _ _ _. split; [intros [e He]; discriminate | eauto]. }
  split; [intros H; right; right; right; exact H |].
  intros _ _ _ Hd. split; [exact Hd |].
  intros [[r [Hr Ht]] | [[r [Hr Ht]] | [[r [Hr Ht]] | H]]];
    try (inversion Hr; subst r; congruence).
  exact H.
Qed.

(** ** Text and repository *)

(** X8.  [text] looks for the value, letter case set aside, in
    [#number title], a blank line and the body, each printed as a template
    literal prints it ([toString]: a Number as its digits up to 2^53, with
    an exponent from 10^21 on).  So a record is found by [#] and its number
    so printed, by whatever its title or its body contains, and a record
    without a body by [undefined]. *)
Theorem X8_text_sees_number_title_and_body
    (text : string) (issue number title body : jsval) (n t b : string) :
  text <> "" ->
  get issue "number" = Ok number -> toString number = Ok n ->
  get issue "title" = Ok title -> toString title = Ok t ->
  get issue "body" = Ok body -> toString body = Ok b ->
  textFilter text issue
  = Ok (Data (VBool (strIncludes
                       (lower ("#" ++ n ++ " " ++ t
                               ++ newline ++ newline ++ b))
                       (lower text))))
  /\ (lower text = lower ("#" ++ n) -> accepts issue (textFilter text))
  /\ (strIncludes (lower t) (lower text) = true ->
      accepts issue (textFilter text))
  /\ (strIncludes (lower b) (lower text) = true ->
      accepts issue (textFilter text))
  /\ (body = VUndefined -> lower text = "undefined" ->
      accepts issue (textFilter text)).
Proof.
  intros Htext Hn Hns Ht Hts Hb Hbs.
  assert (H : textFilter text issue
              = Ok (Data (VBool (strIncludes
                                   (lower ("#" ++ n ++ " " ++ t
                                           ++ newline ++ newline ++ b))
                                   (lower text))))).
  { unfold textFilter. rewrite Hn. simpl. rewrite Hns. simpl.
    rewrite Ht. simpl. rewrite Hts. simpl. rewrite Hb. simpl.
    rewrite Hbs. simpl. rewrite includes_string.
    - rewrite lower_idempotent. reflexivity.
    - intros H. apply Htext.
      apply String.eqb_eq. rewrite <- lower_eqb_empty, H. reflexivity. }
  assert (Hbody : strIncludes (lower b) (lower text) = true ->
                  accepts issue (textFilter text)).
  { intros Hin. rewrite (accepts_Ok _ _ _ H). cbn [toBoolean truthy].
    rewrite !lower_app. do 6 apply strIncludes_app_l. exact Hin. }
  split; [exact H |]. split; [| split; [| split; [exact Hbody |]]].
  - intros Heq. rewrite (accepts_Ok _ _ _ H). cbn [toBoolean truthy]. rewrite Heq.
    rewrite <- (string_app_assoc "#" n), (lower_app ("#" ++ n)).
    apply strIncludes_app_r. apply strIncludes_prefix.
    clear. induction (lower ("#" ++ n)) as [| c s IH]; simpl;
      [reflexivity |].
    destruct (ascii_dec c c); [exact IH | congruence].
  - intros Hin. rewrite (accepts_Ok _ _ _ H). cbn [toBoolean truthy].
    rewrite !lower_app. do 3 apply strIncludes_app_l.
    apply strIncludes_app_r. exact Hin.
  - intros -> Heq. apply Hbody. simpl in Hbs. inversion Hbs; subst b.
    rewrite Heq. reflexivity.
Qed.




(** ** Temporal matchers *)

Lemma leb_negb_ltb (a b : string) : String.leb a b = negb (String.ltb b a).
Proof.
  unfold String.leb, String.ltb. rewrite (String.compare_antisym b a).
  destruct (String.compare a b); reflexivity.
Qed.

Lemma matchTemporal_primitive (q : option string) (c : comparator)
      (iso : string) (a : jsval) :
  comparatorOf q = Some c ->
  match a with
  | VUndefined | VNull | VBool _ | VNum _ => True
  | _ => False
  end ->
  matchTemporal q iso a = Ok (Data (VBool false)).
Proof.
  intros H Ha. unfold matchTemporal, compareWithISO. rewrite H.
  destruct a; try contradiction; reflexivity.
Qed.

(** X15.  On a record whose [created_at] is a string, [>] and [<=] against
    the same date answer opposite, and so do [<] and [>=]: each pair splits
    such records in two.  A record whose [created_at] is missing, [null], a
    boolean or a number is rejected under every comparator, without a
    throw. *)
Theorem X15_comparators_split_the_records (iso : string) (issue : jsval) :
  (forall s,
      get issue "created_at" = Ok (VStr s) ->
      (accepts issue (filterCreated (matchTemporal (Some ">") iso))
       <-> ~ accepts issue (filterCreated (matchTemporal (Some "<=") iso)))
      /\ (accepts issue (filterCreated (matchTemporal (Some "<") iso))
          <-> ~ accepts issue (filterCreated (matchTemporal (Some ">=") iso))))
  /\ (forall q c a,
        comparatorOf q = Some c ->
        get issue "created_at" = Ok a ->
        match a with
        | VUndefined | VNull | VBool _ | VNum _ => True
        | _ => False
        end ->
        filterCreated (matchTemporal q iso) issue = Ok (Data (VBool false))).
Proof.
  split.
  - intros s Hs.
    assert (H : forall q c,
               comparatorOf q = Some c ->
               filterCreated (matchTemporal q iso) issue
               = Ok (Data (VBool (compareStrings c s iso)))).
    { intros q c Hq. unfold filterCreated. rewrite Hs. simpl.
      apply matchTemporal_string. exact Hq. }
    rewrite (accepts_Ok _ _ _ (H (Some ">") Gt eq_refl)).
    rewrite (accepts_Ok _ _ _ (H (Some "<=") Le eq_refl)).
    rewrite (accepts_Ok _ _ _ (H (Some "<") Lt eq_refl)).
    rewrite (accepts_Ok _ _ _ (H (Some ">=") Ge eq_refl)).
    simpl. rewrite !leb_negb_ltb.
    split.
    + destruct (String.ltb iso s); simpl; split; congruence.
    + destruct (String.ltb s iso); simpl; split; congruence.
  - intros q c a Hq Ha Hprim. unfold filterCreated. rewrite Ha. simpl.
    apply (matchTemporal_primitive q c iso a Hq Hprim).
Qed.

(** X16.  A [created] or [updated] term whose value parses to a filter
    with an invalid date is not compiled: [toISOString] throws a
    [RangeError] in the factory, outside the [try] of the predicate, and
    [getSearchFilter] throws it for every search in which the terms before
    that one compile. *)
Theorem X16_invalid_date_escapes
    (term : Term) (user : option GitHubUser) (v v' : string)
    (f : TemporalFilter) :
  qualifier term = "created" \/ qualifier term = "updated" ->
  value term = Some v -> v <> "" ->
  substituteMe user v = Some v' ->
  parseTemporalFilter v' = Some f ->
  (tf_date f = None
   \/ exists ms, tf_date f = Some ms /\ (8640000000000000 < Z.abs ms)%Z) ->
  compileTerm user term = Throw RangeError
  /\ forall search pre post fs,
      parseSearch search = (pre ++ term :: post)%list ->
      mapM (compileTerm user) pre = Ok fs ->
      getSearchFilter search user = Throw RangeError.
Proof.
  intros Hq Hv Hne Hs Hparse Hdate.
  assert (Hiso : toISOString (tf_date f) = Throw RangeError).
  { unfold toISOString. destruct Hdate as [-> | [ms [-> Hms]]];
      [reflexivity |].
    apply Z.ltb_lt in Hms. rewrite Hms. reflexivity. }
  assert (Hc : compileTerm user term = Throw RangeError).
  { destruct Hq as [Hq | Hq].
    - rewrite (compileTerm_factory user term v v' _ Hv Hne Hs
                 (eq_trans (f_equal filters Hq) filters_created)).
      unfold temporalFilter. rewrite Hparse, Hiso. reflexivity.
    - rewrite (compileTerm_factory user term v v' _ Hv Hne Hs
                 (eq_trans (f_equal filters Hq) filters_updated)).
      unfold temporalFilter. rewrite Hparse, Hiso. reflexivity. }
  split; [exact Hc |].
  intros search pre post fs Hp Hpre. unfold getSearchFilter.
  rewrite Hp, mapM_app, Hpre. simpl. rewrite Hc. reflexivity.
Qed.

(** ** Values [is] does not know *)

Lemma isFilter_unknown (v : string) :
  ~ In v ["assigned"; "unassigned"; "closed"; "open"; "issue"; "pull";
          "milestoned"; "epic"] ->
  isFilter v = filterNoop.
Proof.
  intros H. unfold isFilter.
  repeat match goal with
         | |- (if String.eqb v ?s then _ else _) = _ =>
             rewrite (eqb_neq_false v s);
               [| intros ->; apply H; simpl;
                  repeat (first [left; reflexivity | right])]
         end.
  reflexivity.
Qed.

(** X23.  [is] knows eight values, in lower case.  A term with any other
    value filters nothing: [is:merged], or [is:Open], compiles to a
    matcher that accepts every record, and negated to one that rejects
    every record. *)
Theorem X23_is_with_an_unknown_value
    (term : Term) (user : option GitHubUser) (v : string) :
  qualifier term = "is" -> value term = Some v ->
  v <> "" -> v <> "@me" ->
  ~ In v ["assigned"; "unassigned"; "closed"; "open"; "issue"; "pull";
          "milestoned"; "epic"] ->
  exists fn,
    compileTerm user term = Ok fn
    /\ forall issue, fn issue = Ok (Data (VBool (negb (negated term)))).
Proof.
  intros Hq Hv Hne Hme Hun.
  assert (Hs : substituteMe user v = Some v).
  { unfold substituteMe. rewrite (eqb_neq_false _ _ Hme). reflexivity. }
  assert (Hf : filters (qualifier term) = Some (fun v => Ok (isFilter v)))
    by (rewrite Hq; reflexivity).
  rewrite (compileTerm_factory user term v v _ Hv Hne Hs Hf).
  rewrite (isFilter_unknown v Hun). simpl.
  destruct (negated term); eexists; split; reflexivity.
Qed.

End Search.

(** ** The module on the sample collaborators *)

Notation "'compileSample'" :=
  (getSearchFilter sampleParse sampleTemporal sampleIdent
                   sampleByKey sampleLinks "CHILD_OF" "CLOSES").

(** [repo:wuffle] on a record with no repository: the matcher throws, the
    predicate returns [false] and logs the key of the record with the
    error. *)
Lemma C1_witness :
  exists p entry,
    compileSample "repo:wuffle" None = Ok p
    /\ p (issueWithKey "ORG/REPO#5") [] = (Ok (VBool false), [entry])
    /\ log_issue entry = VStr "ORG/REPO#5"
    /\ log_err entry = TypeError
    /\ log_msg entry = "filter failed".
Proof.
  destruct (C1_matcher_exceptions_are_contained
              sampleParse sampleTemporal sampleIdent sampleByKey sampleLinks
              "CHILD_OF" "CLOSES" "repo:wuffle" None
              (searchFilter sampleIdent [repoFilter "wuffle"])
              (issueWithKey "ORG/REPO#5") []
              eq_refl) as [fs [Hfs [_ [H _]]]].
  inversion Hfs; subst fs.
  destruct (H (VStr "ORG/REPO#5") eq_refl) as [_ [Hlog _]].
  destruct (Hlog [] (repoFilter "wuffle") [] TypeError
                 eq_refl (Forall_nil _) eq_refl)
    as [entry [Hp [Hi [He Hm]]]].
  exists (searchFilter sampleIdent [repoFilter "wuffle"]), entry.
  split; [reflexivity |]. split; [exact Hp |].
  split; [exact Hi |]. split; [exact He | exact Hm].
Defined.

(** The exception of the catch block reaches the caller: with an
    identifier that reads through the repository, on a record that has
    none; and with an identifier that reads the key, on [null]. *)
Lemma C1_counterexample :
  (exists p,
      getSearchFilter sampleParse sampleTemporal strictIdent
                      sampleByKey sampleLinks "CHILD_OF" "CLOSES"
                      "repo:wuffle" None = Ok p
      /\ p (issueWithKey "ORG/REPO#5") [] = (Throw TypeError, []))
  /\ (exists p,
        compileSample "repo:wuffle" None = Ok p
        /\ p VNull [] = (Throw TypeError, [])).
Proof.
  split; eexists; split; reflexivity.
Qed.

(** The empty search, and a term without a value next to [is:open]. *)
Lemma C2_witness :
  (exists p, compileSample "" None = Ok p
             /\ p VNull [] = (Ok (VBool true), []))
  /\ samePredicate (compileSample "is:open label:" None)
                   (compileSample "is:open" None).
Proof.
  destruct (C2_empty_matches_everything
              sampleParse sampleTemporal sampleIdent sampleByKey sampleLinks
              "CHILD_OF" "CLOSES") as [H1 [_ [_ H4]]].
  split.
  - destruct (H1 "" None eq_refl) as [p [Hp Hall]].
    exists p. split; [exact Hp | apply Hall].
  - apply (H4 {| qualifier := "label"; value := None; negated := false |}
              None "is:open label:" "is:open" [mkTerm "is" "open" false] []);
      reflexivity.
Defined.

(** [foo:@me] without a user: the qualifier is unknown, and yet no record
    passes. *)
Lemma C3_counterexample :
  registered "foo" = false
  /\ exists p,
      compileSample "foo:@me" None = Ok p
      /\ forall issue log, p issue log = (Ok (VBool false), log).
Proof.
  split; [reflexivity |]. eexists. split; reflexivity.
Qed.

Lemma C3_witness :
  compileTerm sampleTemporal sampleByKey sampleLinks "CHILD_OF" "CLOSES"
              None (mkTerm "foo" "bar" false) = Ok filterNoop
  /\ samePredicate (compileSample "is:open foo:bar" None)
                   (compileSample "is:open" None).
Proof.
  destruct (C3_unknown_qualifier_is_noop
              sampleParse sampleTemporal sampleIdent sampleByKey sampleLinks
              "CHILD_OF" "CLOSES" (mkTerm "foo" "bar" false) None
              eq_refl eq_refl) as [H1 [_ H3]].
  - simpl. discriminate.
  - split; [exact H1 |].
    apply (H3 "is:open foo:bar" "is:open" [mkTerm "is" "open" false] []);
      reflexivity.
Defined.

(** A qualifier that names a member of [Object.prototype] is not in the
    registry, but [filters] finds the member: [constructor:bar] compiles to
    something that cannot be called, so every record is rejected and
    logged; [valueOf:bar] makes [getSearchFilter] itself throw. *)
Lemma inherited_qualifier_rejects_all :
  registered "constructor" = false
  /\ (exists p,
        compileSample "constructor:bar" None = Ok p
        /\ forall issue ident log,
            sampleIdent issue = Ok ident ->
            p issue log
            = (Ok (VBool false), (log ++ [failure ident TypeError])%list))
  /\ compileSample "valueOf:bar" None = Throw TypeError.
Proof.
  split; [reflexivity |]. split; [| reflexivity].
  eexists. split; [reflexivity |].
  intros issue ident log H. unfold searchFilter. simpl. rewrite H.
  reflexivity.
Qed.

(** [author:@me] for alice. *)
Lemma C4_witness :
  exists p,
    compileSample "author:@me" (Some alice) = Ok p
    /\ fst (p (issueBy "Alice99") []) = Ok (VBool true)
    /\ fst (p (issueBy "balice") []) <> Ok (VBool true).
Proof.
  destruct (C4_me_is_the_current_user
              sampleParse sampleTemporal sampleIdent sampleByKey sampleLinks
              "CHILD_OF" "CLOSES") as [_ [_ [_ [_ [_ H]]]]].
  assert (Hlogin : login alice <> "") by (simpl; discriminate).
  destruct (H alice "author:@me" Hlogin eq_refl) as [p [Hp Hiff]].
  exists p. split; [exact Hp |]. split.
  - apply Hiff. exists (userNamed "Alice99"), "Alice99".
    repeat split.
  - intros Htrue. apply Hiff in Htrue.
    destruct Htrue as [a [l [Ha [_ [Hl Hm]]]]].
    inversion Ha; subst a. inversion Hl; subst l. discriminate Hm.
Defined.

(** A negated term, and [@me] without a user: the value does not parse, and
    the predicate is always false. *)
Lemma C5_counterexample :
  sampleTemporal "yesterday" = None
  /\ (exists p,
        compileSample "-created:yesterday" None = Ok p
        /\ forall issue log, p issue log = (Ok (VBool false), log))
  /\ sampleTemporal "@me" = None
  /\ (exists p,
        compileSample "created:@me" None = Ok p
        /\ forall issue log, p issue log = (Ok (VBool false), log)).
Proof.
  split; [reflexivity |]. split; [eexists; split; reflexivity |].
  split; [reflexivity |]. eexists. split; reflexivity.
Qed.

Lemma C5_witness :
  (exists p,
      compileSample "created:yesterday" None = Ok p
      /\ forall issue log, p issue log = (Ok (VBool true), log))
  /\ (exists p,
        compileSample "updated:2023-03-01" None = Ok p
        /\ forall issue log,
            nullish issue = false -> p issue log = (Ok (VBool true), log)).
Proof.
  split.
  - destruct (C5_temporal_filter_degrades
                sampleParse sampleTemporal sampleIdent sampleByKey sampleLinks
                "CHILD_OF" "CLOSES" (mkTerm "created" "yesterday" false) None
                "yesterday" "yesterday") as [H _];
      [left; reflexivity | reflexivity | discriminate | reflexivity |].
    destruct (H eq_refl) as [_ H'].
    exact (H' "created:yesterday" eq_refl).
  - destruct (C5_temporal_filter_degrades
                sampleParse sampleTemporal sampleIdent sampleByKey sampleLinks
                "CHILD_OF" "CLOSES" (mkTerm "updated" "2023-03-01" false) None
                "2023-03-01" "2023-03-01") as [_ H];
      [right; reflexivity | reflexivity | discriminate | reflexivity |].
    destruct (H {| tf_date := Some 1677628800000%Z; tf_qualifier := None |}
                "2023-03-01T00:00:00.000Z" eq_refl eq_refl eq_refl)
      as [fn [_ [_ H']]].
    exact (H' "updated:2023-03-01" eq_refl).
Defined.

(** The negated term [-created:>2023-03-01] is a [created] term with
    comparator [>]: it accepts the record of January and rejects the record
    of June. *)
Lemma C6_counterexample :
  sampleParse "-created:>2023-03-01" = [mkTerm "created" ">2023-03-01" true]
  /\ sampleTemporal ">2023-03-01"
     = Some {| tf_date := Some 1677628800000%Z; tf_qualifier := Some ">" |}
  /\ toISOString (Some 1677628800000%Z) = Ok "2023-03-01T00:00:00.000Z"
  /\ compareStrings Gt "2023-01-01T00:00:00Z" "2023-03-01T00:00:00.000Z"
     = false
  /\ exists p,
      compileSample "-created:>2023-03-01" None = Ok p
      /\ p (issueCreated "2023-01-01T00:00:00Z") [] = (Ok (VBool true), [])
      /\ p (issueCreated "2023-06-01T00:00:00Z") [] = (Ok (VBool false), []).
Proof.
  repeat (split; [reflexivity |]).
  eexists. repeat split.
Qed.

(** [created:>2023-03-01] on a record of January and a record of June. *)
Lemma C6_witness :
  exists p,
    compileSample "created:>2023-03-01" None = Ok p
    /\ p (issueCreated "2023-01-01T00:00:00Z") [] = (Ok (VBool false), [])
    /\ p (issueCreated "2023-06-01T00:00:00Z") [] = (Ok (VBool true), []).
Proof.
  destruct (C6_temporal_comparison
              sampleParse sampleTemporal sampleIdent sampleByKey sampleLinks
              "CHILD_OF" "CLOSES" ">2023-03-01"
              {| tf_date := Some 1677628800000%Z; tf_qualifier := Some ">" |}
              Gt "2023-03-01T00:00:00.000Z" None) as [H _];
    [discriminate | discriminate | reflexivity | reflexivity | reflexivity |].
  destruct (H "created:>2023-03-01" eq_refl) as [p [Hp [Hstr _]]].
  exists p. split; [exact Hp |]. split.
  - exact (Hstr [("key", VStr "ORG/REPO#2");
                 ("created_at", VStr "2023-01-01T00:00:00Z");
                 ("updated_at", VStr "2023-01-01T00:00:00Z")]
                "2023-01-01T00:00:00Z" [] eq_refl).
  - exact (Hstr [("key", VStr "ORG/REPO#2");
                 ("created_at", VStr "2023-06-01T00:00:00Z");
                 ("updated_at", VStr "2023-06-01T00:00:00Z")]
                "2023-06-01T00:00:00Z" [] eq_refl).
Defined.

(** The timestamps of the records have no milliseconds, the normalised date
    has: a record created at the very instant of the date compares as later
    than it, so [>] accepts it and [<=] rejects it. *)
Lemma record_at_the_instant_of_the_date :
  instantOf "2023-03-01T00:00:00Z" = Some 1677628800000%Z
  /\ toISOString (Some 1677628800000%Z) = Ok "2023-03-01T00:00:00.000Z"
  /\ (exists p,
        compileSample "created:>2023-03-01" None = Ok p
        /\ p (issueCreated "2023-03-01T00:00:00Z") []
           = (Ok (VBool true), []))
  /\ (exists p,
        compileSample "created:<=2023-03-01" None = Ok p
        /\ p (issueCreated "2023-03-01T00:00:00Z") []
           = (Ok (VBool false), [])).
Proof.
  split; [reflexivity |]. split; [reflexivity |].
  split; eexists; split; reflexivity.
Qed.

(** [foo:bar] and [-foo:bar] accept the same records: all of them.  So do
    [author:] and [-author:], whose value is missing; and [author:@me] and
    [-author:@me], compiled without a user, both reject every record. *)
Lemma C7_counterexample :
  (exists p pn,
      compileSample "foo:bar" None = Ok p
      /\ compileSample "-foo:bar" None = Ok pn
      /\ forall issue log,
          p issue log = (Ok (VBool true), log)
          /\ pn issue log = (Ok (VBool true), log))
  /\ (exists p pn,
        compileSample "author:" None = Ok p
        /\ compileSample "-author:" None = Ok pn
        /\ forall issue log,
            p issue log = (Ok (VBool true), log)
            /\ pn issue log = (Ok (VBool true), log))
  /\ (exists p pn,
        compileSample "author:@me" None = Ok p
        /\ compileSample "-author:@me" None = Ok pn
        /\ forall issue log,
            p issue log = (Ok (VBool false), log)
            /\ pn issue log = (Ok (VBool false), log)).
Proof.
  split; [| split];
    (eexists; eexists; split; [reflexivity |]; split; [reflexivity |];
     intros issue log; split; reflexivity).
Qed.

(** [is:assigned] and [-is:assigned], on a record with an assignee and on a
    record without the field. *)
Lemma C7_witness :
  exists p pn,
    compileSample "is:assigned" None = Ok p
    /\ compileSample "-is:assigned" None = Ok pn
    /\ p (issueAssignedTo "bob") [] = (Ok (VBool true), [])
    /\ pn (issueAssignedTo "bob") [] = (Ok (VBool false), [])
    /\ p (issueWithKey "ORG/REPO#5") []
       = (Ok (VBool false), [failure (VStr "ORG/REPO#5") TypeError])
    /\ pn (issueWithKey "ORG/REPO#5") []
       = (Ok (VBool false), [failure (VStr "ORG/REPO#5") TypeError]).
Proof.
  destruct (C7_negation_complements
              sampleParse sampleTemporal sampleIdent sampleByKey sampleLinks
              "CHILD_OF" "CLOSES" "is" "assigned" "assigned" None
              (fun v => Ok (isFilter "CHILD_OF" "CLOSES" v)) filterAssigned
              "is:assigned" "-is:assigned")
    as [p [pn [Hp [Hpn H]]]];
    [reflexivity | discriminate | reflexivity | reflexivity | reflexivity
     | reflexivity | reflexivity |].
  exists p, pn. split; [exact Hp |]. split; [exact Hpn |].
  destruct (H (issueAssignedTo "bob") []) as [Hret _].
  destruct (Hret (Data (VNum 1)) eq_refl) as [H1 H2].
  destruct (H (issueWithKey "ORG/REPO#5") []) as [_ Hthrow].
  destruct (Hthrow TypeError (VStr "ORG/REPO#5") eq_refl eq_refl) as [H3 H4].
  repeat split; assumption.
Defined.

(** The sample store links [ORG/REPO#5] to [ORG/REPO#7] and holds no link
    for [ORG/REPO#9].  A record [ORG/REPO#9] that carries a link to
    [ORG/REPO#5] is rejected by [ref:ORG/REPO#5], and the record
    [ORG/REPO#7], which has no link at all, is accepted.  The negated term
    rejects the record [ORG/REPO#5] itself. *)
Lemma C8_counterexample :
  (exists link,
      get issueLinkingTo5 "links" = Ok (VArr [link])
      /\ targetKey link = Ok "ORG/REPO#5")
  /\ get (issueWithKey "ORG/REPO#7") "links" = Ok VUndefined
  /\ (exists p,
        compileSample "ref:ORG/REPO#5" None = Ok p
        /\ p issueLinkingTo5 [] = (Ok (VBool false), [])
        /\ p (issueWithKey "ORG/REPO#7") [] = (Ok (VBool true), []))
  /\ (exists p,
        compileSample "-ref:ORG/REPO#5" None = Ok p
        /\ p (issueWithKey "ORG/REPO#5") [] = (Ok (VBool false), [])).
Proof.
  split; [eexists; split; reflexivity |]. split; [reflexivity |].
  split; eexists; repeat split.
Qed.

Lemma C8_witness :
  exists p,
    compileSample "ref:ORG/REPO#5" None = Ok p
    /\ p (issueWithKey "ORG/REPO#5") [] = (Ok (VBool true), [])
    /\ p (issueWithKey "ORG/REPO#7") [] = (Ok (VBool true), [])
    /\ p issueLinkingTo5 [] = (Ok (VBool false), []).
Proof.
  destruct (C8_reference_matches_own_key_and_link_targets
              sampleParse sampleTemporal sampleIdent sampleByKey sampleLinks
              "CHILD_OF" "CLOSES" "ORG/REPO#5" None
              [ VObj [("type", VStr "PARENT_OF");
                      ("target", issueWithKey "ORG/REPO#7")] ]
              ["ORG/REPO#7"] "ref:ORG/REPO#5")
    as [p [Hp [Hown [Htarget Hother]]]];
    [discriminate | discriminate | reflexivity | reflexivity | reflexivity |].
  exists p. split; [exact Hp |]. split; [| split].
  - apply Hown. reflexivity.
  - apply (Htarget _ "ORG/REPO#7"
             (VObj [("type", VStr "PARENT_OF");
                    ("target", issueWithKey "ORG/REPO#7")]));
      [reflexivity | left; reflexivity | reflexivity].
  - apply (Hother _ "ORG/REPO#9"); [reflexivity | discriminate | reflexivity |].
    intros link [<- | []]. discriminate.
Defined.

(** A comment whose user is [null] comes before a comment by alice: the
    matcher throws on the first, and the record is rejected.  Besides, the
    negated term accepts a record without comments, [commented:] with no
    name accepts it too, and [commented:@me] asks for the comments of the
    current user. *)
Lemma C9_counterexample :
  commentMatches "alice" (commentBy "alice") = true
  /\ (exists p,
        compileSample "commented:alice" None = Ok p
        /\ p (issueWithComments [ghostComment; commentBy "alice"]) []
           = (Ok (VBool false), [failure (VStr "ORG/REPO#4") TypeError]))
  /\ (exists p,
        compileSample "-commented:alice" None = Ok p
        /\ p (issueWithKey "ORG/REPO#5") [] = (Ok (VBool true), []))
  /\ (exists p,
        compileSample "commented:" None = Ok p
        /\ p (issueWithKey "ORG/REPO#5") [] = (Ok (VBool true), []))
  /\ (exists p,
        compileSample "commented:@me" (Some alice) = Ok p
        /\ commentMatches "@me" (commentBy "alice") = false
        /\ p (issueWithComments [commentBy "alice"]) []
           = (Ok (VBool true), [])).
Proof.
  split; [reflexivity |].
  repeat split; eexists; repeat split.
Qed.

Lemma C9_witness :
  exists p,
    compileSample "commented:alice" None = Ok p
    /\ p (issueWithKey "ORG/REPO#5") [] = (Ok (VBool false), [])
    /\ p (issueWithComments [commentBy "bob"; commentBy "Alice"]) []
       = (Ok (VBool true), [])
    /\ fst (p (issueWithComments [commentBy "Alice"; ghostComment]) [])
       = Ok (VBool true).
Proof.
  destruct (C9_commented_needs_a_comment_list
              sampleParse sampleTemporal sampleIdent sampleByKey sampleLinks
              "CHILD_OF" "CLOSES" "alice" None "commented:alice")
    as [p [Hp [Habsent [Hiff Hwf]]]];
    [discriminate | discriminate | reflexivity |].
  exists p. split; [exact Hp |]. split; [| split].
  - apply Habsent. left. reflexivity.
  - apply (Hwf [("key", VStr "ORG/REPO#4");
                ("comments", VArr [commentBy "bob"; commentBy "Alice"])]
               [commentBy "bob"; commentBy "Alice"] [] eq_refl).
    repeat constructor; discriminate.
  - apply (Hiff [("key", VStr "ORG/REPO#4");
                 ("comments", VArr [commentBy "Alice"; ghostComment])]
                [commentBy "Alice"; ghostComment] [] eq_refl).
    exists [], (commentBy "Alice"), [ghostComment].
    repeat split. constructor.
Defined.

(** [is:closed repo:wuffle] and [repo:wuffle is:closed] on an open record
    with no repository: the first stops at [is:closed], the second catches
    the exception of [repo]; both return [false]. *)
Lemma C10_witness :
  exists p p',
    compileSample "is:closed repo:wuffle" None = Ok p
    /\ compileSample "repo:wuffle is:closed" None = Ok p'
    /\ (forall issue log log',
          fst (p issue log) = Ok (VBool true)
          <-> fst (p' issue log') = Ok (VBool true))
    /\ fst (p (issueInState "open") []) = Ok (VBool false)
    /\ fst (p' (issueInState "open") []) = Ok (VBool false).
Proof.
  assert (Hperm : Permutation (sampleParse "is:closed repo:wuffle")
                              (sampleParse "repo:wuffle is:closed"))
    by apply perm_swap.
  pose proof (proj2 (C10_term_order_is_irrelevant
                       sampleParse sampleTemporal sampleIdent sampleByKey
                       sampleLinks "CHILD_OF" "CLOSES"
                       "is:closed repo:wuffle" "repo:wuffle is:closed"
                       None Hperm)) as H.
  eexists. eexists. split; [reflexivity |]. split; [reflexivity |].
  split; [intros issue log log'; exact (proj1 (H issue log log')) |].
  assert (Hp : fst (searchFilter sampleIdent
                      [isFilter "CHILD_OF" "CLOSES" "closed";
                       repoFilter "wuffle"] (issueInState "open") [])
               = Ok (VBool false)) by reflexivity.
  split; [exact Hp |].
  rewrite <- (proj2 (H (issueInState "open") [] [])
                    (VStr "ORG/REPO#3") eq_refl).
  exact Hp.
Defined.

(** With an identifier that reads through the repository the two orders
    part: on an open record with no repository the first returns [false],
    the second lets the exception of the identifier out. *)
Lemma C10_counterexample :
  Permutation (sampleParse "is:closed repo:wuffle")
              (sampleParse "repo:wuffle is:closed")
  /\ exists p p',
      getSearchFilter sampleParse sampleTemporal strictIdent
                      sampleByKey sampleLinks "CHILD_OF" "CLOSES"
                      "is:closed repo:wuffle" None = Ok p
      /\ getSearchFilter sampleParse sampleTemporal strictIdent
                         sampleByKey sampleLinks "CHILD_OF" "CLOSES"
                         "repo:wuffle is:closed" None = Ok p'
      /\ p (issueInState "open") [] = (Ok (VBool false), [])
      /\ p' (issueInState "open") [] = (Throw TypeError, []).
Proof.
  split; [apply perm_swap |].
  eexists. eexists. repeat split.
Qed.

(** When the identifier of the record cannot be computed either, the
    exception of the catch block reaches the caller. *)
Lemma identifier_failure_propagates :
  exists p,
    getSearchFilter sampleParse sampleTemporal strictIdent
                    sampleByKey sampleLinks "CHILD_OF" "CLOSES"
                    "repo:wuffle" None = Ok p
    /\ p (issueWithKey "ORG/REPO#5") [] = (Throw TypeError, []).
Proof.
  eexists. split; reflexivity.
Qed.

(** Further runs: [label] is a substring match, [is:assigned] and
    [is:unassigned] split the records that have a list of assignees, and
    the terms of a search are taken together. *)
Lemma sample_runs :
  (exists p,
      compileSample "label:bug" None = Ok p
      /\ p (issueInState "open") [] = (Ok (VBool true), [])
      /\ p (VObj [("labels", VArr [VObj [("name", VStr "feature")]])]) []
         = (Ok (VBool false), []))
  /\ (exists p q,
        compileSample "is:assigned" None = Ok p
        /\ compileSample "is:unassigned" None = Ok q
        /\ p (issueAssignedTo "bob") [] = (Ok (VBool true), [])
        /\ q (issueAssignedTo "bob") [] = (Ok (VBool false), [])
        /\ p (VObj [("assignees", VArr [])]) [] = (Ok (VBool false), [])
        /\ q (VObj [("assignees", VArr [])]) [] = (Ok (VBool true), []))
  /\ (exists p,
        compileSample "is:open label:bug" None = Ok p
        /\ p (issueInState "open") [] = (Ok (VBool true), [])
        /\ p (issueInState "closed") [] = (Ok (VBool false), [])
        /\ p (VObj [("state", VStr "open")]) [] = (Ok (VBool false), [])
        /\ p (VObj [("state", VStr "closed")]) [] = (Ok (VBool false), [])).
Proof.
  split; [| split].
  - eexists. repeat split.
  - eexists. eexists. repeat split.
  - eexists. repeat split.
Qed.

(** ** The filters of the board API: the recursion *)

Lemma depth_item (x : jsval) (items : list jsval) :
  In x items -> depth x < depth (VArr items).
Proof.
  simpl. induction items as [| y items IH]; simpl; [easy |].
  intros [-> | H]; [lia |]. specialize (IH H). lia.
Qed.

Lemma depth_lookup (p : string) (props : list (string * jsval)) (x : jsval) :
  lookup p props = Some x -> depth x < depth (VObj props).
Proof.
  simpl. induction props as [| [k y] props IH]; simpl; [discriminate |].
  destruct (String.eqb k p).
  - intros H. inversion H; subst. lia.
  - intros H. specialize (IH H). lia.
Qed.

Lemma depth_get (v x : jsval) (p : string) :
  get v p = Ok x -> depth x <= depth v.
Proof.
  destruct v as [| | b | n | s | items | props]; simpl; try discriminate;
    try (intros H; inversion H; simpl; lia).
  - destruct (String.eqb p "length"); intros H; inversion H; simpl; lia.
  - destruct (String.eqb p "length"); intros H; inversion H; simpl; lia.
  - destruct (lookup p props) as [y |] eqn:Hy; intros H; inversion H; subst.
    + apply depth_lookup in Hy. simpl in *. lia.
    + simpl. lia.
Qed.

Lemma bind_ext {A C : Type} (r : result A) (k1 k2 : A -> result C) :
  (forall a, r = Ok a -> k1 a = k2 a) -> bind r k1 = bind r k2.
Proof.
  destruct r as [a | e]; simpl; [| reflexivity]. intros H. apply H.
  reflexivity.
Qed.

Lemma mapM_ext_in {A C : Type} (f g : A -> result C) (l : list A) :
  (forall x, In x l -> f x = g x) -> mapM f l = mapM g l.
Proof.
  induction l as [| x l IH]; simpl; intros H; [reflexivity |].
  rewrite (H x (or_introl eq_refl)), IH; [reflexivity |].
  intros y Hy. apply H. right. exact Hy.
Qed.

Lemma filterLink_ext (f g : jsval -> result jsval) (link : jsval) :
  (forall t, depth t <= depth link -> f t = g t) ->
  B.filterLink f link = B.filterLink g link.
Proof.
  intros H. unfold B.filterLink.
  apply bind_ext. intros type _. apply bind_ext. intros target Ht.
  rewrite (H target (depth_get _ _ _ Ht)). reflexivity.
Qed.

Lemma links_ext (f g : jsval -> result jsval) (v links : jsval) :
  get v "links" = Ok links ->
  (forall t, depth t < depth v -> f t = g t) ->
  B.arrayMap (B.orDefault links) (B.filterLink f)
  = B.arrayMap (B.orDefault links) (B.filterLink g).
Proof.
  intros Hl H. apply depth_get in Hl.
  destruct links as [| | b | n | s | items | props]; try reflexivity.
  simpl. rewrite (mapM_ext_in (B.filterLink f) (B.filterLink g));
    [reflexivity |].
  intros link Hin. apply filterLink_ext. intros t Ht. apply H.
  pose proof (depth_item link items Hin). lia.
Qed.

Ltac same_until_links :=
  repeat (cbv beta zeta; apply bind_ext; intros ? ?).

Lemma dispatch_ext (f g : jsval -> result jsval) (v : jsval) :
  (forall t, depth t < depth v -> f t = g t) ->
  B.dispatch f v = B.dispatch g v.
Proof.
  intros H. unfold B.dispatch. apply bind_ext. intros pr _.
  destruct (truthy pr).
  - unfold B.filterPull. same_until_links.
    erewrite links_ext; [reflexivity | eassumption | exact H].
  - unfold B.filterIssue. same_until_links.
    erewrite links_ext; [reflexivity | eassumption | exact H].
Qed.

Lemma filterWithin_enough (n m : nat) (v : jsval) :
  depth v < n -> depth v < m -> B.filterWithin n v = B.filterWithin m v.
Proof.
  revert m v. induction n as [| n IH]; intros m v Hn Hm; [lia |].
  destruct m as [| m]; [lia |]. simpl.
  apply dispatch_ext. intros t Ht. apply IH; lia.
Qed.

(** [filterIssueOrPull] is its body, with itself for the targets of the
    links. *)
Lemma filterIssueOrPull_eq (v : jsval) :
  B.filterIssueOrPull v = B.dispatch B.filterIssueOrPull v.
Proof.
  unfold B.filterIssueOrPull at 1. simpl.
  apply dispatch_ext. intros t Ht. unfold B.filterIssueOrPull.
  apply filterWithin_enough; lia.
Qed.

(** ** The filters of the board API: filtering twice *)

Ltac invert_binds H :=
  repeat (let x := fresh "x" in
          let Hx := fresh "Hx" in
          apply bind_Ok in H; destruct H as [x [Hx H]]).

Lemma filterUser_again (u u' : jsval) :
  B.filterUser u = Ok u' -> B.filterUser u' = Ok u' /\ truthy u' = true.
Proof.
  unfold B.filterUser. intros H. invert_binds H.
  inversion H; subst u'. split; reflexivity.
Qed.

Lemma filterMilestone_again (m m' : jsval) :
  B.filterMilestone m = Ok m' ->
  B.filterMilestone m' = Ok m' /\ truthy m' = true.
Proof.
  unfold B.filterMilestone. intros H. invert_binds H.
  inversion H; subst m'. split; reflexivity.
Qed.

Lemma filterLabel_again (l l' : jsval) :
  B.filterLabel l = Ok l' -> B.filterLabel l' = Ok l'.
Proof.
  unfold B.filterLabel. intros H. invert_binds H.
  inversion H; subst l'. destruct (truthy x1) eqn:Ht; simpl.
  - rewrite Ht. reflexivity.
  - reflexivity.
Qed.

Lemma filterRepository_again (r r' : jsval) :
  B.filterRepository r = Ok r' -> B.filterRepository r' = Ok r'.
Proof.
  unfold B.filterRepository. intros H. invert_binds H.
  inversion H; subst r'. simpl.
  destruct (filterUser_again _ _ Hx2) as [Hu _]. rewrite Hu. reflexivity.
Qed.

Lemma filterComment_again (c c' : jsval) :
  B.filterComment c = Ok c' -> B.filterComment c' = Ok c'.
Proof.
  unfold B.filterComment. intros H. invert_binds H.
  inversion H; subst c'. simpl.
  destruct (filterUser_again _ _ Hx1) as [Hu _]. rewrite Hu. reflexivity.
Qed.

Lemma orNull_again (f : jsval -> result jsval) (x x' : jsval) :
  (forall a b, f a = Ok b -> f b = Ok b /\ truthy b = true) ->
  B.orNull f x = Ok x' -> B.orNull f x' = Ok x'.
Proof.
  intros Hf. unfold B.orNull. destruct (truthy x).
  - intros H. destruct (Hf _ _ H) as [H1 H2]. rewrite H2. exact H1.
  - intros H. inversion H. reflexivity.
Qed.

Lemma mapM_again {A : Type} (f : A -> result A) (l l' : list A) :
  (forall x y, In x l -> f x = Ok y -> f y = Ok y) ->
  mapM f l = Ok l' -> mapM f l' = Ok l'.
Proof.
  revert l'. induction l as [| x l IH]; simpl; intros l' Hf H.
  - inversion H. reflexivity.
  - invert_binds H. inversion H; subst l'. simpl.
    rewrite (Hf x x0 (or_introl eq_refl) Hx).
    rewrite (IH x1); [reflexivity | | exact Hx0].
    intros a b Ha. apply Hf. right. exact Ha.
Qed.

Lemma arrayMap_array (v v' : jsval) (f : jsval -> result jsval) :
  B.arrayMap v f = Ok v' ->
  exists l l', v = VArr l /\ v' = VArr l' /\ mapM f l = Ok l'.
Proof.
  unfold B.arrayMap. destruct v; try discriminate.
  intros H. invert_binds H. inversion H; subst. eauto.
Qed.

Lemma arrayMap_again (v v' : jsval) (f : jsval -> result jsval) :
  (forall l x y, v = VArr l -> In x l -> f x = Ok y -> f y = Ok y) ->
  B.arrayMap v f = Ok v' -> B.arrayMap v' f = Ok v'.
Proof.
  intros Hf H. destruct (arrayMap_array _ _ _ H) as [l [l' [-> [-> Hm]]]].
  simpl. rewrite (mapM_again f l l'); [reflexivity | | exact Hm].
  intros x y. apply (Hf l). reflexivity.
Qed.

Lemma filterComments_again (c c' : jsval) :
  B.filterComments (B.orDefault c) = Ok c' ->
  B.filterComments (B.orDefault c') = Ok c'.
Proof.
  unfold B.filterComments.
  destruct (isArray (B.orDefault c)) eqn:Ha.
  - intros H. pose proof H as H'.
    destruct (arrayMap_array _ _ _ H) as [l [l' [_ [-> _]]]]. simpl.
    apply arrayMap_again in H'; [exact H' |].
    intros ? x y _ _. apply filterComment_again.
  - intros H. inversion H. reflexivity.
Qed.

Lemma filterLink_again (f : jsval -> result jsval) (link link' : jsval) :
  (forall t t', depth t <= depth link -> f t = Ok t' -> f t' = Ok t') ->
  B.filterLink f link = Ok link' -> B.filterLink f link' = Ok link'.
Proof.
  intros Hf. unfold B.filterLink. intros H. invert_binds H.
  inversion H; subst link'. simpl.
  rewrite (Hf x0 x1 (depth_get _ _ _ Hx0) Hx1). reflexivity.
Qed.

Lemma links_again (f : jsval -> result jsval) (v links links' : jsval) :
  get v "links" = Ok links ->
  (forall t t', depth t < depth v -> f t = Ok t' -> f t' = Ok t') ->
  B.arrayMap (B.orDefault links) (B.filterLink f) = Ok links' ->
  B.arrayMap (B.orDefault links') (B.filterLink f) = Ok links'.
Proof.
  intros Hl Hf H. apply depth_get in Hl.
  destruct (arrayMap_array _ _ _ H) as [l [l' [Hl' [-> Hm]]]]. simpl.
  rewrite (mapM_again (B.filterLink f) l l'); [reflexivity | | exact Hm].
  intros link link' Hin. apply filterLink_again.
  intros t t' Ht. apply Hf.
  pose proof (depth_item link l Hin) as Hd.
  destruct links; simpl in Hl'; try discriminate.
  - inversion Hl'; subst l. contradiction Hin.
  - inversion Hl'; subst l. lia.
Qed.

Ltac again_user :=
  match goal with
  | H : B.orNull B.filterUser _ = Ok _ |- _ =>
      apply (orNull_again _ _ _ filterUser_again) in H; rewrite H
  end.

Ltac again_milestone :=
  match goal with
  | H : B.orNull B.filterMilestone _ = Ok _ |- _ =>
      apply (orNull_again _ _ _ filterMilestone_again) in H; rewrite H
  end.

Ltac again_users field :=
  match goal with
  | G : get _ field = Ok ?a, H : B.arrayMap ?a B.filterUser = Ok _ |- _ =>
      apply (arrayMap_again _ _ _
               (fun _ a b _ _ Hab => proj1 (filterUser_again a b Hab))) in H;
      rewrite H
  end.

Ltac again_labels :=
  match goal with
  | H : B.arrayMap _ B.filterLabel = Ok _ |- _ =>
      apply (arrayMap_again _ _ _
               (fun _ a b _ _ => filterLabel_again a b)) in H;
      rewrite H
  end.

Ltac again_comments :=
  match goal with
  | H : B.filterComments _ = Ok _ |- _ =>
      apply filterComments_again in H; rewrite H
  end.

Ltac again_repository :=
  match goal with
  | H : B.filterRepository _ = Ok _ |- _ =>
      apply filterRepository_again in H; rewrite H
  end.

Ltac again_links Hf :=
  match goal with
  | G : get ?x "links" = Ok ?l,
    H : B.arrayMap (B.orDefault ?l) (B.filterLink ?f) = Ok _ |- _ =>
      apply (links_again f x _ _ G Hf) in H; rewrite H
  end.

Ltac same_pull_request pr :=
  match goal with
  | G : get ?x "pull_request" = Ok pr, H : get ?x "pull_request" = Ok ?q
    |- _ =>
      lazymatch q with
      | pr => fail
      | _ => assert (q = pr) by congruence; subst q
      end
  end.

Lemma dispatch_again (f : jsval -> result jsval) (x y : jsval) :
  (forall t t', depth t < depth x -> f t = Ok t' -> f t' = Ok t') ->
  B.dispatch f x = Ok y -> B.dispatch f y = Ok y.
Proof.
  intros Hf. unfold B.dispatch. intros H.
  apply bind_Ok in H. destruct H as [pr [Hpr H]].
  destruct (truthy pr) eqn:Hp.
  - unfold B.filterPull in H. invert_binds H. inversion H; subst y; clear H.
    same_pull_request pr.
    simpl (get (VObj _) _). cbn [bind]. rewrite Hp.
    unfold B.filterPull. simpl (get (VObj _) _). cbn [bind].
    again_user. cbn [bind]. again_users "assignees". cbn [bind].
    again_users "requested_reviewers". cbn [bind]. again_labels. cbn [bind].
    again_comments. cbn [bind]. again_milestone. cbn [bind].
    again_repository. cbn [bind]. again_links Hf. reflexivity.
  - unfold B.filterIssue in H. invert_binds H. inversion H; subst y; clear H.
    same_pull_request pr.
    simpl (get (VObj _) _). cbn [bind]. rewrite Hp.
    unfold B.filterIssue. simpl (get (VObj _) _). cbn [bind].
    again_user. cbn [bind]. again_users "assignees". cbn [bind].
    again_labels. cbn [bind]. again_milestone. cbn [bind].
    again_repository. cbn [bind]. again_comments. cbn [bind].
    again_links Hf. reflexivity.
Qed.

Lemma filterIssueOrPull_again_within (n : nat) :
  forall x y,
    depth x < n ->
    B.filterIssueOrPull x = Ok y -> B.filterIssueOrPull y = Ok y.
Proof.
  induction n as [| n IH]; intros x y Hd H; [lia |].
  rewrite filterIssueOrPull_eq in H. rewrite filterIssueOrPull_eq.
  apply (dispatch_again _ x); [| exact H].
  intros t t' Ht. apply IH. lia.
Qed.

(** X17.  Filtering is idempotent: what [filterIssueOrPull] returns, it
    returns unchanged when applied to it again, and the same holds for the
    filters of the parts. *)
Theorem X17_filtering_twice_changes_nothing (x y : jsval) :
  (B.filterIssueOrPull x = Ok y -> B.filterIssueOrPull y = Ok y)
  /\ (B.filterUser x = Ok y -> B.filterUser y = Ok y)
  /\ (B.filterRepository x = Ok y -> B.filterRepository y = Ok y)
  /\ (B.filterComment x = Ok y -> B.filterComment y = Ok y)
  /\ (B.filterLabel x = Ok y -> B.filterLabel y = Ok y)
  /\ (B.filterMilestone x = Ok y -> B.filterMilestone y = Ok y).
Proof.
  split; [apply (filterIssueOrPull_again_within (S (depth x))); lia |].
  split; [intros H; apply (filterUser_again _ _ H) |].
  split; [apply filterRepository_again |].
  split; [apply filterComment_again |].
  split; [apply filterLabel_again |].
  intros H; apply (filterMilestone_again _ _ H).
Qed.

(** ** The filters of the board API: what comes out *)

Ltac filtered H :=
  rewrite filterIssueOrPull_eq in H; unfold B.dispatch in H;
  let pr := fresh "pr" in
  let Hpr := fresh "Hpr" in
  let Hp := fresh "Hp" in
  apply bind_Ok in H; destruct H as [pr [Hpr H]];
  destruct (truthy pr) eqn:Hp;
  [unfold B.filterPull in H | unfold B.filterIssue in H];
  invert_binds H; inversion H; subst; clear H.

Lemma get_field (v : jsval) (p : string) (x : jsval) :
  get v p = Ok x -> field p v = x.
Proof.
  intros H. unfold field. rewrite H. reflexivity.
Qed.

Lemma get_present (v : jsval) (p : string) (x : jsval) :
  get v p = Ok x -> present v = true.
Proof.
  destruct v; simpl; try discriminate; reflexivity.
Qed.

Lemma present_get (v : jsval) (p : string) :
  present v = true -> get v p = Ok (field p v).
Proof.
  intros H. unfold field.
  destruct (get_not_nullish v p) as [x Hx].
  - destruct v; try discriminate; reflexivity.
  - rewrite Hx. reflexivity.
Qed.

Lemma lookup_absent (p : string) (props : list (string * jsval)) :
  ~ In p (map fst props) -> lookup p props = None.
Proof.
  induction props as [| [k v] props IH]; simpl; intros H; [reflexivity |].
  destruct (String.eqb k p) eqn:Hk.
  - apply String.eqb_eq in Hk. exfalso. apply H. left. exact Hk.
  - apply IH. intros Hin. apply H. right. exact Hin.
Qed.

Lemma get_absent (p : string) (props : list (string * jsval)) :
  ~ In p (map fst props) -> get (VObj props) p = Ok VUndefined.
Proof.
  intros H. unfold get. rewrite (lookup_absent p props H). reflexivity.
Qed.

(** X18.  Only the listed properties pass.  What [filterIssueOrPull]
    returns is an object with the properties of [filterPull], when the
    record has a truthy [pull_request], and of [filterIssue] otherwise, in
    the order of the object literal; [id], [key], [number], [state],
    [title], [html_url], [pull_request], [order] and [column] are those of
    the record, and so are [draft] and [merged] of a pull request; reading
    any other property of the result gives [undefined] (names inherited
    from [Object.prototype] apart). *)
Theorem X18_only_listed_fields_pass (x y : jsval) :
  B.filterIssueOrPull x = Ok y ->
  let listed :=
    if truthy (field "pull_request" x) then pullFields else issueFields in
  hasKeys listed y = true
  /\ (forall p, In p copiedFields -> get y p = get x p)
  /\ (truthy (field "pull_request" x) = true ->
      get y "draft" = get x "draft" /\ get y "merged" = get x "merged")
  /\ (forall p,
        inherited p = false -> ~ In p listed -> get y p = Ok VUndefined).
Proof.
  intros H. filtered H; rewrite (get_field _ _ _ Hpr), Hp; cbv zeta.
  - split; [reflexivity |]. split.
    + intros p Hin. simpl in Hin.
      repeat (destruct Hin as [<- | Hin]; [simpl; congruence |]).
      contradiction.
    + split; [intros _; split; simpl; congruence |].
      intros p _ Hp'. apply get_absent. exact Hp'.
  - split; [reflexivity |]. split.
    + intros p Hin. simpl in Hin.
      repeat (destruct Hin as [<- | Hin]; [simpl; congruence |]).
      contradiction.
    + split; [discriminate |].
      intros p _ Hp'. apply get_absent. exact Hp'.
Qed.

Lemma filterComments_default (c : jsval) :
  isArray c = false -> B.filterComments (B.orDefault c) = Ok (VArr []).
Proof.
  destruct c; try discriminate; reflexivity.
Qed.

Lemma orNull_falsy (f : jsval -> result jsval) (x : jsval) :
  truthy x = false -> B.orNull f x = Ok VNull.
Proof.
  intros H. unfold B.orNull. rewrite H. reflexivity.
Qed.

Ltac same_value a :=
  match goal with
  | G : get ?x ?p = Ok a, H : get ?x ?p = Ok ?b |- _ =>
      lazymatch b with
      | a => fail
      | _ => assert (a = b) by congruence; subst a
      end
  end.

(** X19.  Missing parts get defaults in what [filterIssueOrPull] returns:
    [comments] is the empty array when the record's is not an array
    ([undefined] and [null] included), [links] is the empty array when the
    record has none, and [user] and [milestone] are [null] when the
    record's are falsy. *)
Theorem X19_missing_parts_get_defaults (x y : jsval) :
  B.filterIssueOrPull x = Ok y ->
  (forall c,
      get x "comments" = Ok c -> isArray c = false ->
      get y "comments" = Ok (VArr []))
  /\ (get x "links" = Ok VUndefined -> get y "links" = Ok (VArr []))
  /\ (forall u,
        get x "user" = Ok u -> truthy u = false -> get y "user" = Ok VNull)
  /\ (forall m,
        get x "milestone" = Ok m -> truthy m = false ->
        get y "milestone" = Ok VNull).
Proof.
  intros H. filtered H.
  - split; [intros c Hc Ha; same_value c; simpl;
            rewrite (filterComments_default _ Ha) in *; congruence |].
    split; [intros Hl; simpl; rewrite Hl in *;
            match goal with
            | E : Ok _ = Ok ?l, M : B.arrayMap (B.orDefault ?l) _ = Ok _
              |- _ => inversion E; subst l; simpl in M; congruence
            end |].
    split; [intros u Hu Ht; same_value u; simpl;
            rewrite (orNull_falsy _ _ Ht) in *; congruence |].
    intros m Hm Ht; same_value m; simpl.
    rewrite (orNull_falsy _ _ Ht) in *; congruence.
  - split; [intros c Hc Ha; same_value c; simpl;
            rewrite (filterComments_default _ Ha) in *; congruence |].
    split; [intros Hl; simpl; rewrite Hl in *;
            match goal with
            | E : Ok _ = Ok ?l, M : B.arrayMap (B.orDefault ?l) _ = Ok _
              |- _ => inversion E; subst l; simpl in M; congruence
            end |].
    split; [intros u Hu Ht; same_value u; simpl;
            rewrite (orNull_falsy _ _ Ht) in *; congruence |].
    intros m Hm Ht; same_value m; simpl.
    rewrite (orNull_falsy _ _ Ht) in *; congruence.
Qed.

(** ** The filters of the board API: when they return *)

Lemma present_nullish (v : jsval) : present v = true <-> nullish v = false.
Proof.
  unfold present. destruct (nullish v); simpl; split; congruence.
Qed.

Lemma truthy_present (v : jsval) : truthy v = true -> present v = true.
Proof.
  destruct v; simpl; try discriminate; reflexivity.
Qed.

Lemma filterUser_returns (u : jsval) :
  (exists y, B.filterUser u = Ok y) <-> present u = true.
Proof.
  unfold B.filterUser. split.
  - intros [y H]. invert_binds H. exact (get_present _ _ _ Hx).
  - intros H. rewrite !(fun p => present_get u p H). simpl. eauto.
Qed.

Lemma filterMilestone_returns (m : jsval) :
  (exists y, B.filterMilestone m = Ok y) <-> present m = true.
Proof.
  unfold B.filterMilestone. split.
  - intros [y H]. invert_binds H. exact (get_present _ _ _ Hx).
  - intros H. rewrite !(fun p => present_get m p H). simpl. eauto.
Qed.

Lemma filterLabel_returns (l : jsval) :
  (exists y, B.filterLabel l = Ok y) <-> present l = true.
Proof.
  unfold B.filterLabel. split.
  - intros [y H]. invert_binds H. exact (get_present _ _ _ Hx).
  - intros H. rewrite !(fun p => present_get l p H). simpl. eauto.
Qed.

Lemma filterRepository_returns (r : jsval) :
  (exists y, B.filterRepository r = Ok y)
  <-> present r = true /\ present (field "owner" r) = true.
Proof.
  unfold B.filterRepository. split.
  - intros [y H]. invert_binds H. split; [exact (get_present _ _ _ Hx) |].
    rewrite (get_field _ _ _ Hx0). apply filterUser_returns. eauto.
  - intros [H Ho]. rewrite !(fun p => present_get r p H). simpl.
    apply filterUser_returns in Ho. destruct Ho as [o Ho]. rewrite Ho.
    simpl. eauto.
Qed.

Lemma filterComment_returns (c : jsval) :
  (exists y, B.filterComment c = Ok y) <-> hasAuthor c = true.
Proof.
  unfold B.filterComment, hasAuthor. rewrite andb_true_iff. split.
  - intros [y H]. invert_binds H. split; [exact (get_present _ _ _ Hx) |].
    rewrite (get_field _ _ _ Hx). apply filterUser_returns. eauto.
  - intros [H Hu]. rewrite !(fun p => present_get c p H). simpl.
    apply filterUser_returns in Hu. destruct Hu as [u Hu]. rewrite Hu.
    simpl. eauto.
Qed.

Lemma mapM_returns_inv {A B : Type} (f : A -> result B) (l : list A)
      (ys : list B) :
  mapM f l = Ok ys -> Forall (fun x => exists y, f x = Ok y) l.
Proof.
  revert ys. induction l as [| x l IH]; simpl; intros ys H; [constructor |].
  invert_binds H. constructor; eauto.
Qed.

Lemma arrayMap_returns (f : jsval -> result jsval) (v : jsval) :
  (exists y, B.arrayMap v f = Ok y)
  <-> exists items,
        v = VArr items /\ Forall (fun x => exists y, f x = Ok y) items.
Proof.
  split.
  - intros [y H]. destruct (arrayMap_array _ _ _ H) as [l [l' [-> [_ Hm]]]].
    exists l. split; [reflexivity |]. exact (mapM_returns_inv _ _ _ Hm).
  - intros [items [-> H]]. simpl.
    destruct (mapM_returns f items H) as [ys Hys]. rewrite Hys. simpl. eauto.
Qed.

Lemma arrayMap_arrayOf (f : jsval -> result jsval) (ok : jsval -> bool)
      (v : jsval) :
  (forall x, (exists y, f x = Ok y) <-> ok x = true) ->
  ((exists y, B.arrayMap v f = Ok y) <-> arrayOf ok v = true).
Proof.
  intros Hok. rewrite arrayMap_returns. split.
  - intros [items [-> H]]. simpl. apply forallb_forall.
    intros x Hx. apply Hok. revert x Hx. apply Forall_forall. exact H.
  - destruct v; simpl; try discriminate. intros H.
    exists items. split; [reflexivity |]. apply Forall_forall.
    intros x Hx. apply Hok. revert x Hx. apply forallb_forall. exact H.
Qed.

Lemma orNull_returns (f : jsval -> result jsval) (x : jsval) :
  (forall a, present a = true -> exists b, f a = Ok b) ->
  exists y, B.orNull f x = Ok y.
Proof.
  intros H. unfold B.orNull. destruct (truthy x) eqn:Ht; [| eauto].
  apply H. apply truthy_present. exact Ht.
Qed.

Lemma filterComments_returns (c : jsval) :
  (exists y, B.filterComments (B.orDefault c) = Ok y)
  <-> (if isArray c then arrayOf hasAuthor c else true) = true.
Proof.
  unfold B.filterComments. destruct c; simpl; try (split; eauto; fail).
  apply (arrayMap_arrayOf B.filterComment hasAuthor (VArr items)).
  apply filterComment_returns.
Qed.

Lemma filterLink_returns (f : jsval -> result jsval) (link : jsval) :
  (exists y, B.filterLink f link = Ok y)
  <-> nullish link = false /\ exists t, f (field "target" link) = Ok t.
Proof.
  unfold B.filterLink. rewrite <- present_nullish. split.
  - intros [y H]. invert_binds H. split; [exact (get_present _ _ _ Hx) |].
    rewrite (get_field _ _ _ Hx0). eauto.
  - intros [H [t Ht]]. rewrite !(fun p => present_get link p H). simpl.
    rewrite Ht. simpl. eauto.
Qed.

Lemma links_returns (f : jsval -> result jsval) (l : jsval) :
  (exists y, B.arrayMap (B.orDefault l) (B.filterLink f) = Ok y)
  <-> exists links,
        B.orDefault l = VArr links
        /\ Forall (fun link =>
                     nullish link = false
                     /\ exists t, f (field "target" link) = Ok t) links.
Proof.
  rewrite arrayMap_returns. split.
  - intros [items [Hi H]]. exists items. split; [exact Hi |].
    eapply Forall_impl; [| exact H]. intros a. apply filterLink_returns.
  - intros [items [Hi H]]. exists items. split; [exact Hi |].
    eapply Forall_impl; [| exact H]. intros a. apply filterLink_returns.
Qed.

Ltac fields :=
  repeat match goal with
         | H : get ?v ?p = Ok ?a |- context [field ?p ?v] =>
             rewrite (get_field v p a H)
         end.

Lemma users_returns (v : jsval) :
  (exists y, B.arrayMap v B.filterUser = Ok y) <-> arrayOf present v = true.
Proof.
  apply arrayMap_arrayOf. apply filterUser_returns.
Qed.

Lemma labels_returns (v : jsval) :
  (exists y, B.arrayMap v B.filterLabel = Ok y) <-> arrayOf present v = true.
Proof.
  apply arrayMap_arrayOf. apply filterLabel_returns.
Qed.

Lemma dispatch_returns (f : jsval -> result jsval) (x : jsval) :
  (exists y, B.dispatch f x = Ok y)
  <-> wellFormed x = true
      /\ exists links,
          B.orDefault (field "links" x) = VArr links
          /\ Forall (fun link =>
                       nullish link = false
                       /\ exists t, f (field "target" link) = Ok t) links.
Proof.
  unfold wellFormed. rewrite !andb_true_iff. split.
  - intros [y H]. unfold B.dispatch in H.
    apply bind_Ok in H. destruct H as [pr [Hpr H]].
    pose proof (get_present _ _ _ Hpr) as Hx.
    destruct (truthy pr) eqn:Hp;
      [unfold B.filterPull in H | unfold B.filterIssue in H];
      invert_binds H; same_value pr; fields; rewrite ?Hp;
      match goal with
      | R : B.filterRepository ?r = Ok _ |- _ =>
          destruct (proj1 (filterRepository_returns r) (ex_intro _ _ R))
            as [Hr1 Hr2]
      end.
    + repeat split; try assumption.
      * apply users_returns. eauto.
      * apply users_returns. eauto.
      * apply labels_returns. eauto.
      * apply filterComments_returns. eauto.
      * apply links_returns. eauto.
    + repeat split; try assumption.
      * apply users_returns. eauto.
      * apply labels_returns. eauto.
      * apply filterComments_returns. eauto.
      * apply links_returns. eauto.
  - intros [[[[[[[Hx Ha] Hr] Hl] Hc] Hrepo] Ho] Hlinks].
    apply users_returns in Ha. destruct Ha as [a' Ha].
    apply labels_returns in Hl. destruct Hl as [l' Hl].
    apply filterComments_returns in Hc. destruct Hc as [c' Hc].
    destruct (proj2 (filterRepository_returns _) (conj Hrepo Ho))
      as [r' Hrepo'].
    apply links_returns in Hlinks. destruct Hlinks as [k' Hlinks].
    destruct (orNull_returns B.filterUser (field "user" x)
                (fun a => proj2 (filterUser_returns a))) as [u' Hu].
    destruct (orNull_returns B.filterMilestone (field "milestone" x)
                (fun a => proj2 (filterMilestone_returns a))) as [m' Hm].
    unfold B.dispatch. rewrite (present_get x "pull_request" Hx).
    cbn [bind].
    destruct (truthy (field "pull_request" x)).
    + apply users_returns in Hr. destruct Hr as [q' Hr].
      unfold B.filterPull. rewrite !(fun p => present_get x p Hx).
      cbn [bind]. rewrite Hu, Ha, Hr, Hl, Hc, Hm, Hrepo', Hlinks.
      cbn [bind]. eauto.
    + unfold B.filterIssue. rewrite !(fun p => present_get x p Hx).
      cbn [bind]. rewrite Hu, Ha, Hl, Hm, Hrepo', Hc, Hlinks.
      cbn [bind]. eauto.
Qed.

Lemma bind_TypeError {A B : Type} (r : result A) (k : A -> result B) :
  (forall e, r = Throw e -> e = TypeError) ->
  (forall a e, k a = Throw e -> e = TypeError) ->
  forall e, bind r k = Throw e -> e = TypeError.
Proof.
  intros Hr Hk e. destruct r as [a | e']; simpl.
  - apply Hk.
  - intros H. inversion H; subst e'. apply Hr. reflexivity.
Qed.

Lemma mapM_TypeError {A B : Type} (f : A -> result B) (l : list A) :
  (forall a e, In a l -> f a = Throw e -> e = TypeError) ->
  forall e, mapM f l = Throw e -> e = TypeError.
Proof.
  induction l as [| x l IH]; simpl; intros Hf; [discriminate |].
  apply bind_TypeError;
    [intros e He; apply (Hf x e); [left; reflexivity | exact He] |].
  intros y. apply bind_TypeError; [| discriminate].
  apply IH. intros a e Ha. apply Hf. right. exact Ha.
Qed.

Lemma arrayMap_TypeError (f : jsval -> result jsval) (v : jsval) :
  (forall l a e, v = VArr l -> In a l -> f a = Throw e -> e = TypeError) ->
  forall e, B.arrayMap v f = Throw e -> e = TypeError.
Proof.
  intros Hf. unfold B.arrayMap.
  destruct v; try (intros e H; inversion H; reflexivity).
  apply bind_TypeError; [| discriminate].
  apply mapM_TypeError. intros a e. apply (Hf items). reflexivity.
Qed.

Ltac only_TypeError leaf :=
  repeat (apply bind_TypeError;
          [solve [leaf] | let a := fresh "a" in intros a; cbv beta zeta]);
  discriminate.

Ltac get_leaf := intros ?; apply get_throws_TypeError.

Lemma filterUser_TypeError (u : jsval) (e : error) :
  B.filterUser u = Throw e -> e = TypeError.
Proof.
  revert e. unfold B.filterUser. only_TypeError get_leaf.
Qed.

Lemma filterMilestone_TypeError (m : jsval) (e : error) :
  B.filterMilestone m = Throw e -> e = TypeError.
Proof.
  revert e. unfold B.filterMilestone. only_TypeError get_leaf.
Qed.

Lemma filterLabel_TypeError (l : jsval) (e : error) :
  B.filterLabel l = Throw e -> e = TypeError.
Proof.
  revert e. unfold B.filterLabel. only_TypeError get_leaf.
Qed.

Ltac part_leaf :=
  first [ get_leaf
        | intros ?; apply filterUser_TypeError ].

Lemma filterRepository_TypeError (r : jsval) (e : error) :
  B.filterRepository r = Throw e -> e = TypeError.
Proof.
  revert e. unfold B.filterRepository. only_TypeError part_leaf.
Qed.

Lemma filterComment_TypeError (c : jsval) (e : error) :
  B.filterComment c = Throw e -> e = TypeError.
Proof.
  revert e. unfold B.filterComment. only_TypeError part_leaf.
Qed.

Lemma orNull_TypeError (f : jsval -> result jsval) (x : jsval) :
  (forall a e, f a = Throw e -> e = TypeError) ->
  forall e, B.orNull f x = Throw e -> e = TypeError.
Proof.
  intros Hf e. unfold B.orNull. destruct (truthy x); [apply Hf |].
  discriminate.
Qed.

Lemma filterComments_TypeError (c : jsval) (e : error) :
  B.filterComments c = Throw e -> e = TypeError.
Proof.
  unfold B.filterComments. destruct (isArray c); [| discriminate].
  revert e. apply arrayMap_TypeError.
  intros _ a e _ _. apply filterComment_TypeError.
Qed.

Lemma filterLink_TypeError (f : jsval -> result jsval) (link : jsval) :
  (forall t e, f t = Throw e -> e = TypeError) ->
  forall e, B.filterLink f link = Throw e -> e = TypeError.
Proof.
  intros Hf. unfold B.filterLink.
  only_TypeError ltac:(first [get_leaf | apply Hf]).
Qed.

Ltac record_leaf Hf :=
  first [ get_leaf
        | apply orNull_TypeError; first [ apply filterUser_TypeError
                                        | apply filterMilestone_TypeError ]
        | apply arrayMap_TypeError; intros ? ? ? _ _;
          first [ apply filterUser_TypeError
                | apply filterLabel_TypeError
                | apply (filterLink_TypeError _ _ Hf) ]
        | intros ?; apply filterComments_TypeError
        | intros ?; apply filterRepository_TypeError ].

Lemma dispatch_TypeError (f : jsval -> result jsval) (x : jsval) :
  (forall t e, f t = Throw e -> e = TypeError) ->
  forall e, B.dispatch f x = Throw e -> e = TypeError.
Proof.
  intros Hf. unfold B.dispatch.
  apply bind_TypeError; [get_leaf |]. intros pr.
  destruct (truthy pr).
  - unfold B.filterPull. only_TypeError ltac:(record_leaf Hf).
  - unfold B.filterIssue. only_TypeError ltac:(record_leaf Hf).
Qed.

Lemma filterWithin_TypeError (n : nat) :
  forall x e, B.filterWithin n x = Throw e -> e = TypeError.
Proof.
  induction n as [| n IH]; simpl; intros x e.
  - intros H. inversion H. reflexivity.
  - apply dispatch_TypeError. exact IH.
Qed.

(** X20.  [filterIssueOrPull] returns exactly on the well-formed records
    whose links are an array (or missing) of values other than [undefined]
    and [null] on whose targets it returns; on every other value it throws
    a [TypeError]. *)
Theorem X20_returns_on_well_formed_records (x : jsval) :
  ((exists y, B.filterIssueOrPull x = Ok y)
   <-> wellFormed x = true
       /\ exists links,
           B.orDefault (field "links" x) = VArr links
           /\ Forall (fun link =>
                        nullish link = false
                        /\ exists t,
                            B.filterIssueOrPull (field "target" link) = Ok t)
                     links)
  /\ (forall e, B.filterIssueOrPull x = Throw e -> e = TypeError).
Proof.
  split.
  - rewrite filterIssueOrPull_eq. apply dispatch_returns.
  - apply filterWithin_TypeError.
Qed.

(** X21.  The lists are required.  A record whose [assignees] or [labels]
    is not an array, a pull request whose [requested_reviewers] is not an
    array, a record without a repository, and a record whose [links] is
    there and is not an array ([null], say) make [filterIssueOrPull] throw
    a [TypeError]. *)
Theorem X21_lists_are_required (x : jsval) :
  isArray (field "assignees" x) = false
  \/ isArray (field "labels" x) = false
  \/ (truthy (field "pull_request" x) = true
      /\ isArray (field "requested_reviewers" x) = false)
  \/ nullish (field "repository" x) = true
  \/ (field "links" x <> VUndefined /\ isArray (field "links" x) = false) ->
  B.filterIssueOrPull x = Throw TypeError.
Proof.
  intros Hbad. destruct (B.filterIssueOrPull x) as [y | e] eqn:H.
  - exfalso. rewrite filterIssueOrPull_eq in H.
    destruct (proj1 (dispatch_returns _ x) (ex_intro _ y H))
      as [Hwf [links [Hlinks _]]].
    unfold wellFormed in Hwf. rewrite !andb_true_iff in Hwf.
    destruct Hwf as [[[[[[_ Ha] Hr] Hl] _] Hrepo] _].
    destruct Hbad as [Hb | [Hb | [[Hp Hb] | [Hb | [Hu Hb]]]]].
    + destruct (field "assignees" x); discriminate.
    + destruct (field "labels" x); discriminate.
    + rewrite Hp in Hr. destruct (field "requested_reviewers" x);
        discriminate.
    + unfold present in Hrepo. rewrite Hb in Hrepo. discriminate.
    + destruct (field "links" x); try discriminate. contradiction.
  - f_equal. exact (filterWithin_TypeError _ _ _ H).
Qed.

(** ** The filters of the board API: the parts *)

Lemma filterUser_shaped (a b : jsval) :
  B.filterUser a = Ok b -> userShaped b = true.
Proof.
  unfold B.filterUser. intros H. invert_binds H. inversion H. reflexivity.
Qed.

Lemma filterMilestone_shaped (a b : jsval) :
  B.filterMilestone a = Ok b -> milestoneShaped b = true.
Proof.
  unfold B.filterMilestone. intros H. invert_binds H. inversion H.
  reflexivity.
Qed.

Lemma filterLabel_shaped (a b : jsval) :
  B.filterLabel a = Ok b -> labelShaped b = true.
Proof.
  unfold B.filterLabel. intros H. invert_binds H. inversion H.
  unfold labelShaped, field.
  destruct (truthy x1) eqn:Ht; simpl; [exact Ht | reflexivity].
Qed.

Lemma filterRepository_shaped (a b : jsval) :
  B.filterRepository a = Ok b -> repositoryShaped b = true.
Proof.
  unfold B.filterRepository. intros H. invert_binds H. inversion H.
  unfold repositoryShaped, field. simpl.
  exact (filterUser_shaped _ _ Hx2).
Qed.

Lemma filterComment_shaped (a b : jsval) :
  B.filterComment a = Ok b -> commentShaped b = true.
Proof.
  unfold B.filterComment. intros H. invert_binds H. inversion H.
  unfold commentShaped, field. simpl.
  exact (filterUser_shaped _ _ Hx1).
Qed.

Lemma filterLink_shaped (f : jsval -> result jsval) (a b : jsval) :
  B.filterLink f a = Ok b -> linkShaped b = true.
Proof.
  unfold B.filterLink. intros H. invert_binds H. inversion H. reflexivity.
Qed.

Lemma mapM_Forall {A B : Type} (f : A -> result B) (P : B -> Prop)
      (l : list A) (l' : list B) :
  (forall a b, In a l -> f a = Ok b -> P b) ->
  mapM f l = Ok l' -> Forall P l'.
Proof.
  revert l'. induction l as [| x l IH]; simpl; intros l' Hf H.
  - inversion H. constructor.
  - invert_binds H. inversion H; subst l'. constructor.
    + apply (Hf x); [left; reflexivity | assumption].
    + apply IH; [| assumption]. intros a b Ha. apply Hf. right. exact Ha.
Qed.

Lemma arrayMap_shaped (f : jsval -> result jsval) (ok : jsval -> bool)
      (v v' : jsval) :
  (forall a b, f a = Ok b -> ok b = true) ->
  B.arrayMap v f = Ok v' -> arrayOf ok v' = true.
Proof.
  intros Hf H. destruct (arrayMap_array _ _ _ H) as [l [l' [_ [-> Hm]]]].
  simpl. apply forallb_forall. apply Forall_forall.
  apply (mapM_Forall f (fun b => ok b = true) l l'); [| exact Hm].
  intros a b _. apply Hf.
Qed.

Lemma orNull_shaped (f : jsval -> result jsval) (ok : jsval -> bool)
      (x x' : jsval) :
  (forall a b, f a = Ok b -> ok b = true) ->
  B.orNull f x = Ok x' -> nullOr ok x' = true.
Proof.
  intros Hf. unfold B.orNull. destruct (truthy x).
  - intros H. apply Hf in H. unfold nullOr. destruct x'; auto.
  - intros H. inversion H. reflexivity.
Qed.

Lemma filterComments_shaped (c c' : jsval) :
  B.filterComments c = Ok c' -> arrayOf commentShaped c' = true.
Proof.
  unfold B.filterComments. destruct (isArray c).
  - apply arrayMap_shaped. apply filterComment_shaped.
  - intros H. inversion H. reflexivity.
Qed.

Lemma links_targets (f : jsval -> result jsval) (v v' : jsval) :
  B.arrayMap v (B.filterLink f) = Ok v' ->
  exists links,
    v' = VArr links
    /\ Forall (fun link => exists t, f t = Ok (field "target" link)) links.
Proof.
  intros H. destruct (arrayMap_array _ _ _ H) as [l [l' [_ [-> Hm]]]].
  exists l'. split; [reflexivity |].
  apply (mapM_Forall (B.filterLink f) _ l l'); [| exact Hm].
  intros a b _ Hab. unfold B.filterLink in Hab. invert_binds Hab.
  inversion Hab. unfold field. simpl. eauto.
Qed.

(** X22.  The parts are filtered too.  In what [filterIssueOrPull] returns,
    [user] is [null] or has [login], [avatar_url] and [html_url] and
    nothing else, and so has every assignee and requested reviewer; a label
    has [name] and [color], and [column_label] when it is truthy; a comment
    has [user] and [html_url]; the milestone is [null] or has [number],
    [title] and [html_url]; the repository has [name], [owner] and
    [html_url]; a link has [type] and [target], and the target is itself
    something [filterIssueOrPull] returned. *)
Theorem X22_parts_are_filtered (x y : jsval) :
  B.filterIssueOrPull x = Ok y ->
  partsShaped y = true
  /\ exists links,
      field "links" y = VArr links
      /\ Forall (fun link =>
                   exists t,
                     B.filterIssueOrPull t = Ok (field "target" link))
                links.
Proof.
  intros H. filtered H; same_value pr; unfold partsShaped, field; simpl;
    rewrite ?Hp;
    repeat match goal with
           | G : B.orNull B.filterUser _ = Ok ?b
             |- context [nullOr userShaped ?b] =>
               rewrite (orNull_shaped _ _ _ _ filterUser_shaped G)
           | G : B.orNull B.filterMilestone _ = Ok ?b
             |- context [nullOr milestoneShaped ?b] =>
               rewrite (orNull_shaped _ _ _ _ filterMilestone_shaped G)
           | G : B.arrayMap _ B.filterUser = Ok ?b
             |- context [arrayOf userShaped ?b] =>
               rewrite (arrayMap_shaped _ _ _ _ filterUser_shaped G)
           | G : B.arrayMap _ B.filterLabel = Ok ?b
             |- context [arrayOf labelShaped ?b] =>
               rewrite (arrayMap_shaped _ _ _ _ filterLabel_shaped G)
           | G : B.arrayMap _ (B.filterLink _) = Ok ?b
             |- context [arrayOf linkShaped ?b] =>
               rewrite (arrayMap_shaped _ _ _ _ (filterLink_shaped _) G)
           | G : B.filterComments _ = Ok ?b
             |- context [arrayOf commentShaped ?b] =>
               rewrite (filterComments_shaped _ _ G)
           | G : B.filterRepository _ = Ok ?b
             |- context [repositoryShaped ?b] =>
               rewrite (filterRepository_shaped _ _ G)
           end;
    (split; [reflexivity |]);
    match goal with
    | G : B.arrayMap _ (B.filterLink _) = Ok _ |- _ =>
        exact (links_targets _ _ _ G)
    end.
Qed.

(** ** The further properties on the samples *)

(** [is:open label:bug] is [is:open] and [label:bug]. *)
Lemma X1_witness :
  exists p p1 p2,
    compileSample "is:open label:bug" None = Ok p
    /\ compileSample "is:open" None = Ok p1
    /\ compileSample "label:bug" None = Ok p2
    /\ (fst (p (issueInState "open") []) = Ok (VBool true)
        <-> fst (p1 (issueInState "open") []) = Ok (VBool true)
            /\ fst (p2 (issueInState "open") []) = Ok (VBool true)).
Proof.
  destruct (X1_terms_are_conjoined
              sampleParse sampleTemporal sampleIdent sampleByKey sampleLinks
              "CHILD_OF" "CLOSES" "is:open label:bug" "is:open" "label:bug"
              None eq_refl) as [H _].
  destruct (H _ eq_refl) as [p1 [p2 [H1 [H2 Hiff]]]].
  eexists. exists p1, p2.
  split; [reflexivity |]. split; [exact H1 |]. split; [exact H2 |].
  apply Hiff.
Defined.

(** [repo:wuffle] on a record with no repository adds one record to the
    log. *)
Lemma X2_witness :
  exists p added,
    compileSample "repo:wuffle" None = Ok p
    /\ snd (p (issueWithKey "ORG/REPO#5") []) = added
    /\ List.length added <= 1.
Proof.
  destruct (X2_log_only_grows
              sampleParse sampleTemporal sampleIdent sampleByKey sampleLinks
              "CHILD_OF" "CLOSES" "repo:wuffle" None
              (searchFilter sampleIdent [repoFilter "wuffle"])
              (issueWithKey "ORG/REPO#5") [] eq_refl)
    as [added [H1 [H2 _]]].
  exists (searchFilter sampleIdent [repoFilter "wuffle"]), added.
  split; [reflexivity |]. split; [exact H1 | exact H2].
Defined.

Lemma X3_witness :
  accepts (issueAssignedTo "bob") (isFilter "CHILD_OF" "CLOSES" "assigned")
  /\ ~ accepts (issueAssignedTo "bob")
              (isFilter "CHILD_OF" "CLOSES" "unassigned")
  /\ throwsOn (issueWithKey "ORG/REPO#5")
              (isFilter "CHILD_OF" "CLOSES" "assigned").
Proof.
  destruct (X3_assigned_or_unassigned "CHILD_OF" "CLOSES"
              (issueAssignedTo "bob")) as [H _].
  destruct (H [userNamed "bob"] eq_refl) as [H1 [H2 _]].
  destruct (X3_assigned_or_unassigned "CHILD_OF" "CLOSES"
              (issueWithKey "ORG/REPO#5")) as [_ H'].
  destruct (H' VUndefined eq_refl eq_refl) as [H3 _].
  split; [apply H1; discriminate |].
  split; [intros Hc; apply H2 in Hc; discriminate | exact H3].
Defined.

Lemma X4_witness :
  accepts (issueInState "open") (isFilter "CHILD_OF" "CLOSES" "open")
  /\ ~ accepts (issueInState "open") (isFilter "CHILD_OF" "CLOSES" "closed").
Proof.
  destruct (X4_open_and_closed_exclude_each_other
              "CHILD_OF" "CLOSES" (issueInState "open")) as [H1 [_ H3]].
  assert (Ho : accepts (issueInState "open")
                       (isFilter "CHILD_OF" "CLOSES" "open"))
    by (apply H1; reflexivity).
  split; [exact Ho |]. intros Hc. apply H3. split; assumption.
Defined.

Lemma X5_witness :
  nullish (issueWithKey "ORG/REPO#5") = false
  /\ ~ throwsOn (issueWithKey "ORG/REPO#5")
                (isFilter "CHILD_OF" "CLOSES" "pull")
  /\ accepts (issueWithKey "ORG/REPO#5")
             (isFilter "CHILD_OF" "CLOSES" "issue").
Proof.
  split; [reflexivity |].
  destruct (X5_issue_or_pull "CHILD_OF" "CLOSES"
              (issueWithKey "ORG/REPO#5") eq_refl) as [_ [H2 H3]].
  split; [exact H2 |]. apply H3.
  intros [r [Hr Ht]]. inversion Hr; subst r. discriminate Ht.
Defined.

(** A record without links is an epic, one that closes another is not. *)
Lemma X6_witness :
  isFilter "CHILD_OF" "CLOSES" "epic" (issueWithKey "ORG/REPO#5")
  = Ok (Data (VBool true))
  /\ isFilter "CHILD_OF" "CLOSES" "epic" issueLinkingTo5
     = Ok (Data (VBool false)).
Proof.
  split.
  - apply (proj1 (X6_epic_has_no_child_link
                    "CHILD_OF" "CLOSES" (issueWithKey "ORG/REPO#5"))
                 VUndefined); reflexivity.
  - apply (proj2 (X6_epic_has_no_child_link
                    "CHILD_OF" "CLOSES" issueLinkingTo5)
                 [VObj [("type", VStr "CLOSES");
                        ("target", issueWithKey "ORG/REPO#5")]]).
    + reflexivity.
    + repeat constructor. exists "CLOSES". split; reflexivity.
Defined.

(** [label:bug] finds the label [Bug-fix]. *)
Lemma X7_witness :
  "bug" <> ""
  /\ labelFilter "bug" (issueInState "open") = Ok (Data (VBool true))
  /\ labelFilter "bug" (issueWithKey "ORG/REPO#5") = Ok (Data (VBool false)).
Proof.
  assert (Hne : "bug" <> "") by discriminate.
  split; [exact Hne |]. split.
  - apply (proj2 (X7_label_is_a_substring_match
                    "bug" (issueInState "open") Hne)
                 [VObj [("name", VStr "Bug-fix")]]).
    + reflexivity.
    + repeat constructor. discriminate.
  - apply (proj1 (X7_label_is_a_substring_match
                    "bug" (issueWithKey "ORG/REPO#5") Hne) VUndefined);
      reflexivity.
Defined.

(** The issue of the samples is found by its number and by a word of
    its title. *)
Lemma X8_witness :
  accepts (storedIssue 5 VUndefined) (textFilter "#5")
  /\ accepts (storedIssue 5 VUndefined) (textFilter "crash").
Proof.
  assert (Hne : "#5" <> "") by discriminate.
  assert (Hne' : "crash" <> "") by discriminate.
  destruct (X8_text_sees_number_title_and_body
              "#5" (storedIssue 5 VUndefined) (VNum 5) (VStr "Crash")
              (VStr "Steps to reproduce") "5" "Crash" "Steps to reproduce"
              Hne eq_refl eq_refl eq_refl eq_refl eq_refl eq_refl)
    as [_ [H1 _]].
  destruct (X8_text_sees_number_title_and_body
              "crash" (storedIssue 5 VUndefined) (VNum 5) (VStr "Crash")
              (VStr "Steps to reproduce") "5" "Crash" "Steps to reproduce"
              Hne' eq_refl eq_refl eq_refl eq_refl eq_refl eq_refl)
    as [_ [_ [H2 _]]].
  split; [apply H1; reflexivity | apply H2; reflexivity].
Defined.


(** [milestone:1.] finds the milestone [1.0]. *)
Lemma X10_witness :
  milestoneFilter "1." storedPull = Ok (Data (VBool true))
  /\ ~ accepts (storedIssue 5 VUndefined) (milestoneFilter "1.").
Proof.
  assert (Hne : "1." <> "") by discriminate.
  split.
  - apply (proj2 (X10_milestone_is_a_prefix_match "1." storedPull Hne)
                 (field "milestone" storedPull) "1.0");
      reflexivity.
  - apply (proj1 (X10_milestone_is_a_prefix_match
                    "1." (storedIssue 5 VUndefined) Hne) VNull);
      reflexivity.
Defined.

Lemma X11_witness :
  assigneeFilter "BO" (issueAssignedTo "bob") = Ok (Data (VBool true))
  /\ assigneeFilter "BO" (issueWithKey "ORG/REPO#5")
     = Ok (Data (VBool false)).
Proof.
  assert (Hne : "BO" <> "") by discriminate.
  split.
  - apply (proj2 (X11_assignee_is_a_prefix_match
                    "BO" (issueAssignedTo "bob") Hne) [userNamed "bob"]).
    + reflexivity.
    + repeat constructor. discriminate.
  - apply (proj1 (X11_assignee_is_a_prefix_match
                    "BO" (issueWithKey "ORG/REPO#5") Hne) VUndefined);
      reflexivity.
Defined.


(** alice wrote the record, so she is involved. *)
Lemma X13_witness : accepts (issueBy "alice") (involvesFilter "ali").
Proof.
  destruct (X13_involves_is_a_disjunction "ali" (issueBy "alice"))
    as [_ H].
  destruct H as [_ H].
  - intros [e He]. discriminate He.
  - intros [e He]. discriminate He.
  - intros [e He]. discriminate He.
  - intros [e He]. discriminate He.
  - apply H. right. left. eexists. split; reflexivity.
Defined.

Lemma X14_witness :
  includes (VStr (lower "Bug-fix")) "bUG" = includes (VStr "Bug-fix") "bUG".
Proof.
  exact (proj1 (X14_string_tests_ignore_case "Bug-fix" "bUG")).
Defined.

(** A record created in June is after the first of March, and is not
    before it or on it. *)
Lemma X15_witness :
  accepts (issueCreated "2023-06-01T00:00:00Z")
          (filterCreated (matchTemporal (Some ">") "2023-03-01T00:00:00.000Z"))
  /\ ~ accepts (issueCreated "2023-06-01T00:00:00Z")
               (filterCreated
                  (matchTemporal (Some "<=") "2023-03-01T00:00:00.000Z")).
Proof.
  destruct (proj1 (X15_comparators_split_the_records
                     "2023-03-01T00:00:00.000Z"
                     (issueCreated "2023-06-01T00:00:00Z"))
                  "2023-06-01T00:00:00Z" eq_refl) as [[H1 _] _].
  assert (Ha : accepts (issueCreated "2023-06-01T00:00:00Z")
                       (filterCreated
                          (matchTemporal (Some ">")
                                         "2023-03-01T00:00:00.000Z")))
    by (eexists; split; reflexivity).
  split; [exact Ha | apply H1; exact Ha].
Defined.

(** With a parser that lets an invalid date through, a search with a
    [created] term is not compiled. *)
Lemma X16_witness :
  getSearchFilter sampleParse looseTemporal sampleIdent sampleByKey
                  sampleLinks "CHILD_OF" "CLOSES"
                  "is:open created:>someday" None
  = Throw RangeError.
Proof.
  assert (Hne : ">someday" <> "") by discriminate.
  destruct (X16_invalid_date_escapes
              sampleParse looseTemporal sampleIdent sampleByKey sampleLinks
              "CHILD_OF" "CLOSES" (mkTerm "created" ">someday" false) None
              ">someday" ">someday"
              {| tf_date := None; tf_qualifier := Some ">" |}
              (or_introl eq_refl) eq_refl Hne eq_refl eq_refl
              (or_introl eq_refl)) as [_ H].
  apply (H "is:open created:>someday" [mkTerm "is" "open" false] []
           [filterOpen]); reflexivity.
Defined.

(** The pull request of the samples, filtered and filtered again. *)
Lemma X17_witness :
  exists y,
    B.filterIssueOrPull storedPull = Ok y /\ B.filterIssueOrPull y = Ok y.
Proof.
  eexists. split; [vm_compute; reflexivity |].
  apply (proj1 (X17_filtering_twice_changes_nothing storedPull _)).
  vm_compute. reflexivity.
Defined.

(** The title of the issue passes, its body does not. *)
Lemma X18_witness :
  exists y,
    B.filterIssueOrPull (storedIssue 5 VUndefined) = Ok y
    /\ hasKeys issueFields y = true
    /\ get y "title" = Ok (VStr "Crash")
    /\ get y "body" = Ok VUndefined.
Proof.
  eexists. split; [vm_compute; reflexivity |].
  match goal with
  | |- hasKeys _ ?y = true /\ _ =>
      destruct (X18_only_listed_fields_pass (storedIssue 5 VUndefined) y)
        as [H1 [H2 [_ H4]]]; [vm_compute; reflexivity |]
  end.
  split; [exact H1 |]. split.
  - rewrite (H2 "title"); [reflexivity |]. simpl. tauto.
  - apply H4; [reflexivity |]. simpl.
    intros H. repeat destruct H as [H | H]; try discriminate H. exact H.
Defined.

(** The issue of the samples has [null] for comments and milestone, and
    no links. *)
Lemma X19_witness :
  exists y,
    B.filterIssueOrPull (storedIssue 5 VUndefined) = Ok y
    /\ get y "comments" = Ok (VArr [])
    /\ get y "links" = Ok (VArr [])
    /\ get y "milestone" = Ok VNull.
Proof.
  eexists. split; [vm_compute; reflexivity |].
  match goal with
  | |- get ?y _ = _ /\ _ =>
      destruct (X19_missing_parts_get_defaults (storedIssue 5 VUndefined) y)
        as [H1 [H2 [_ H4]]]; [vm_compute; reflexivity |]
  end.
  split; [apply (H1 VNull); reflexivity |].
  split; [apply H2; reflexivity |].
  apply (H4 VNull); reflexivity.
Defined.

(** The pull request of the samples is well formed, and so is the issue it
    closes. *)
Lemma X20_witness :
  wellFormed storedPull = true
  /\ exists y, B.filterIssueOrPull storedPull = Ok y.
Proof.
  split; [reflexivity |].
  apply (proj1 (X20_returns_on_well_formed_records storedPull)).
  split; [reflexivity |].
  eexists. split; [reflexivity |].
  repeat constructor. eexists. vm_compute. reflexivity.
Defined.

(** A record with nothing but a key, and the issue of the samples with
    [null] for links. *)
Lemma X21_witness :
  B.filterIssueOrPull (issueWithKey "ORG/REPO#5") = Throw TypeError
  /\ B.filterIssueOrPull (storedIssue 5 VNull) = Throw TypeError.
Proof.
  split.
  - apply X21_lists_are_required. left. reflexivity.
  - apply X21_lists_are_required. right. right. right. right.
    split; [discriminate | reflexivity].
Defined.

Lemma X22_witness :
  exists y,
    B.filterIssueOrPull storedPull = Ok y /\ partsShaped y = true.
Proof.
  eexists. split; [vm_compute; reflexivity |].
  match goal with
  | |- partsShaped ?y = true =>
      destruct (X22_parts_are_filtered storedPull y) as [H _];
        [vm_compute; reflexivity | exact H]
  end.
Defined.

(** [is:Open] is not [is:open]: every record passes, closed ones too. *)
Lemma X23_witness :
  exists fn,
    compileTerm sampleTemporal sampleByKey sampleLinks "CHILD_OF" "CLOSES"
                None (mkTerm "is" "Open" false) = Ok fn
    /\ fn (issueInState "closed") = Ok (Data (VBool true)).
Proof.
  destruct (X23_is_with_an_unknown_value
              sampleTemporal sampleByKey sampleLinks "CHILD_OF" "CLOSES"
              (mkTerm "is" "Open" false) None "Open" eq_refl eq_refl)
    as [fn [Hfn Hall]].
  - discriminate.
  - discriminate.
  - simpl. intros H. repeat destruct H as [H | H]; try discriminate H.
    exact H.
  - exists fn. split; [exact Hfn | apply Hall].
Defined.

(** ** Normalized dates *)

Lemma compare_refl (s : string) : String.compare s s = Datatypes.Eq.
Proof.
  induction s as [| c s IH]; simpl; [reflexivity |].
  unfold Ascii.compare. rewrite N.compare_refl. exact IH.
Qed.

Lemma compare_lt_trans (a b c : string) :
  String.compare a b = Datatypes.Lt -> String.compare b c = Datatypes.Lt ->
  String.compare a c = Datatypes.Lt.
Proof.
  revert b c. induction a as [| x a IH]; intros [| y b] [| z c]; simpl;
    try discriminate; try reflexivity.
  unfold Ascii.compare.
  destruct (N.compare_spec (N_of_ascii x) (N_of_ascii y)) as [Hxy | Hxy | Hxy];
    try discriminate;
    destruct (N.compare_spec (N_of_ascii y) (N_of_ascii z)) as [Hyz | Hyz | Hyz];
    try discriminate; intros H1 H2.
  - rewrite Hxy, Hyz, N.compare_refl. exact (IH b c H1 H2).
  - rewrite Hxy. apply N.compare_lt_iff in Hyz. rewrite Hyz. reflexivity.
  - rewrite <- Hyz. apply N.compare_lt_iff in Hxy. rewrite Hxy. reflexivity.
  - assert (H : (N_of_ascii x < N_of_ascii z)%N) by lia.
    apply N.compare_lt_iff in H. rewrite H. reflexivity.
Qed.

Lemma compare_app (a a' x y : string) :
  String.length a = String.length a' ->
  String.compare (a ++ x) (a' ++ y)
  = match String.compare a a' with
    | Datatypes.Eq => String.compare x y
    | c => c
    end.
Proof.
  revert a'. induction a as [| c a IH]; intros [| c' a']; simpl;
    try discriminate; [reflexivity |].
  intros H. destruct (Ascii.compare c c'); try reflexivity.
  apply IH. lia.
Qed.

Lemma padDigits_length (w : nat) (n : Z) : String.length (padDigits w n) = w.
Proof.
  revert n. induction w as [| w IH]; intros n; [reflexivity |].
  cbn [padDigits].
  assert (H : forall a b, String.length (a ++ b)
                          = String.length a + String.length b).
  { induction a as [| c a IHa]; simpl; intros b; [reflexivity |].
    rewrite IHa. reflexivity. }
  rewrite H, IH. simpl. lia.
Qed.

Lemma digit_compare (r1 r2 : Z) :
  (0 <= r1 < 10)%Z -> (0 <= r2 < 10)%Z ->
  Ascii.compare (ascii_of_nat (48 + Z.to_nat r1))
                (ascii_of_nat (48 + Z.to_nat r2))
  = (r1 ?= r2)%Z.
Proof.
  intros H1 H2.
  assert (E1 : (r1 = 0 \/ r1 = 1 \/ r1 = 2 \/ r1 = 3 \/ r1 = 4 \/ r1 = 5
                \/ r1 = 6 \/ r1 = 7 \/ r1 = 8 \/ r1 = 9)%Z) by lia.
  assert (E2 : (r2 = 0 \/ r2 = 1 \/ r2 = 2 \/ r2 = 3 \/ r2 = 4 \/ r2 = 5
                \/ r2 = 6 \/ r2 = 7 \/ r2 = 8 \/ r2 = 9)%Z) by lia.
  repeat (destruct E1 as [-> | E1]); try subst r1;
    repeat (destruct E2 as [-> | E2]); try subst r2; reflexivity.
Qed.

Lemma split_compare (a b : Z) :
  match (a / 10 ?= b / 10)%Z with
  | Datatypes.Eq => (a mod 10 ?= b mod 10)%Z
  | c => c
  end = (a ?= b)%Z.
Proof.
  destruct (Z.compare_spec (a / 10) (b / 10)) as [H | H | H];
    destruct (Z.compare_spec a b) as [H' | H' | H'];
    try reflexivity; try (exfalso; Z.div_mod_to_equations; lia).
  - subst. apply Z.compare_refl.
  - apply Z.compare_lt_iff. Z.div_mod_to_equations. lia.
  - apply Z.compare_gt_iff. Z.div_mod_to_equations. lia.
Qed.

Lemma padDigits_compare (w : nat) (n1 n2 : Z) :
  (0 <= n1 < 10 ^ Z.of_nat w)%Z -> (0 <= n2 < 10 ^ Z.of_nat w)%Z ->
  String.compare (padDigits w n1) (padDigits w n2) = (n1 ?= n2)%Z.
Proof.
  revert n1 n2. induction w as [| w IH]; intros n1 n2 H1 H2.
  - simpl in *. assert (n1 = 0%Z) by lia. assert (n2 = 0%Z) by lia.
    subst. reflexivity.
  - cbn [padDigits].
    rewrite Nat2Z.inj_succ, Z.pow_succ_r in H1, H2 by lia.
    rewrite compare_app by (rewrite !padDigits_length; reflexivity).
    rewrite IH by (Z.div_mod_to_equations; lia).
    cbn [String.compare].
    rewrite digit_compare by (Z.div_mod_to_equations; lia).
    rewrite <- (split_compare n1 n2).
    destruct (n1 / 10 ?= n2 / 10)%Z; try reflexivity.
    destruct (n1 mod 10 ?= n2 mod 10)%Z; reflexivity.
Qed.

Section NormalizedDates.

Local Open Scope Z_scope.

Ltac split_ifs :=
  repeat match goal with
         | |- context [if ?b then _ else _] =>
             match b with
             | Z.ltb ?a ?c => destruct (Z.ltb_spec a c)
             | Z.leb ?a ?c => destruct (Z.leb_spec a c)
             end
         end.

Lemma era_doe (z1 z2 : Z) :
  z1 < z2 ->
  z1 / 146097 < z2 / 146097
  \/ (z1 / 146097 = z2 / 146097
      /\ z1 - z1 / 146097 * 146097 < z2 - z2 / 146097 * 146097).
Proof. intros. Z.div_mod_to_equations; lia. Qed.

Lemma doe_range (z : Z) : 0 <= z - z / 146097 * 146097 <= 146096.
Proof. Z.div_mod_to_equations; lia. Qed.

Lemma yoe_range (doe : Z) :
  0 <= doe <= 146096 ->
  0 <= (doe - doe / 1460 + doe / 36524 - doe / 146096) / 365 <= 399.
Proof. intros H. Z.div_mod_to_equations; lia. Qed.

Lemma doy_range (doe : Z) :
  0 <= doe <= 146096 ->
  let yoe := (doe - doe / 1460 + doe / 36524 - doe / 146096) / 365 in
  0 <= doe - (365 * yoe + yoe / 4 - yoe / 100) <= 365.
Proof. cbv zeta. intros H. Z.div_mod_to_equations; lia. Qed.

Lemma yoe_mono (a b : Z) :
  0 <= a -> a <= b -> b <= 146096 ->
  (a - a / 1460 + a / 36524 - a / 146096) / 365
  <= (b - b / 1460 + b / 36524 - b / 146096) / 365.
Proof. intros. Z.div_mod_to_equations; lia. Qed.

Lemma mp_d_range (doy : Z) :
  0 <= doy <= 365 ->
  let mp := (5 * doy + 2) / 153 in
  0 <= mp <= 11 /\ 1 <= doy - (153 * mp + 2) / 5 + 1 <= 31.
Proof. cbv zeta. intros. Z.div_mod_to_equations; lia. Qed.

Lemma mp_d_mono (a b : Z) :
  0 <= a -> a < b -> b <= 365 ->
  let mpa := (5 * a + 2) / 153 in
  let mpb := (5 * b + 2) / 153 in
  mpa < mpb
  \/ (mpa = mpb
      /\ a - (153 * mpa + 2) / 5 + 1 < b - (153 * mpb + 2) / 5 + 1).
Proof. cbv zeta. intros. Z.div_mod_to_equations; lia. Qed.

(** Months run from 1 to 12 and days from 1 to 31. *)
Lemma civilFromDays_range (z y m d : Z) :
  civilFromDays z = (y, m, d) -> 1 <= m <= 12 /\ 1 <= d <= 31.
Proof.
  unfold civilFromDays. cbv zeta.
  pose proof (doe_range (z + 719468)) as Hdoe.
  set (doe := z + 719468 - (z + 719468) / 146097 * 146097) in *.
  pose proof (doy_range doe Hdoe) as Hdoy. cbv zeta in Hdoy.
  set (yoe := (doe - doe / 1460 + doe / 36524 - doe / 146096) / 365) in *.
  set (doy := doe - (365 * yoe + yoe / 4 - yoe / 100)) in *.
  pose proof (mp_d_range doy Hdoy) as Hmp. cbv zeta in Hmp.
  set (mp := (5 * doy + 2) / 153) in *.
  set (d' := doy - (153 * mp + 2) / 5 + 1) in *.
  clearbody d' mp doy yoe doe.
  intros H. inversion H; subst; clear H.
  split_ifs; lia.
Qed.

(** A later day has a later date. *)
Lemma civilFromDays_mono (z1 z2 y1 m1 d1 y2 m2 d2 : Z) :
  z1 < z2 ->
  civilFromDays z1 = (y1, m1, d1) -> civilFromDays z2 = (y2, m2, d2) ->
  y1 < y2 \/ (y1 = y2 /\ (m1 < m2 \/ (m1 = m2 /\ d1 < d2))).
Proof.
  unfold civilFromDays. cbv zeta. intros H.
  assert (H' : z1 + 719468 < z2 + 719468) by lia.
  pose proof (era_doe _ _ H') as He.
  pose proof (doe_range (z1 + 719468)) as Hdoe1.
  pose proof (doe_range (z2 + 719468)) as Hdoe2.
  set (era1 := (z1 + 719468) / 146097) in *.
  set (era2 := (z2 + 719468) / 146097) in *.
  set (doe1 := z1 + 719468 - era1 * 146097) in *.
  set (doe2 := z2 + 719468 - era2 * 146097) in *.
  pose proof (yoe_range doe1 Hdoe1) as Hy1.
  pose proof (yoe_range doe2 Hdoe2) as Hy2.
  pose proof (doy_range doe1 Hdoe1) as Hdoy1. cbv zeta in Hdoy1.
  pose proof (doy_range doe2 Hdoe2) as Hdoy2. cbv zeta in Hdoy2.
  assert (Hm : doe1 <= doe2 ->
               (doe1 - doe1 / 1460 + doe1 / 36524 - doe1 / 146096) / 365
               <= (doe2 - doe2 / 1460 + doe2 / 36524 - doe2 / 146096) / 365)
    by (intros; apply yoe_mono; lia).
  set (yoe1 := (doe1 - doe1 / 1460 + doe1 / 36524 - doe1 / 146096) / 365)
    in *.
  set (yoe2 := (doe2 - doe2 / 1460 + doe2 / 36524 - doe2 / 146096) / 365)
    in *.
  set (doy1 := doe1 - (365 * yoe1 + yoe1 / 4 - yoe1 / 100)) in *.
  set (doy2 := doe2 - (365 * yoe2 + yoe2 / 4 - yoe2 / 100)) in *.
  assert (Hlex : era1 < era2
                 \/ (era1 = era2
                     /\ (yoe1 < yoe2 \/ (yoe1 = yoe2 /\ doy1 < doy2)))).
  { destruct He as [He | [He Hd]];
      [left; exact He | right; split; [exact He |]].
    assert (Hle : yoe1 <= yoe2) by (apply Hm; lia).
    destruct (Z.eq_dec yoe1 yoe2) as [Heq | Hne]; [right | left; lia].
    split; [exact Heq |]. subst doy1 doy2. rewrite Heq. lia. }
  pose proof (mp_d_range doy1 Hdoy1) as Hmp1. cbv zeta in Hmp1.
  pose proof (mp_d_range doy2 Hdoy2) as Hmp2. cbv zeta in Hmp2.
  assert (Hmd : doy1 < doy2 ->
                (5 * doy1 + 2) / 153 < (5 * doy2 + 2) / 153
                \/ ((5 * doy1 + 2) / 153 = (5 * doy2 + 2) / 153
                    /\ doy1 - (153 * ((5 * doy1 + 2) / 153) + 2) / 5 + 1
                       < doy2 - (153 * ((5 * doy2 + 2) / 153) + 2) / 5 + 1))
    by (intros; apply (mp_d_mono doy1 doy2); lia).
  set (mp1 := (5 * doy1 + 2) / 153) in *.
  set (mp2 := (5 * doy2 + 2) / 153) in *.
  set (d1' := doy1 - (153 * mp1 + 2) / 5 + 1) in *.
  set (d2' := doy2 - (153 * mp2 + 2) / 5 + 1) in *.
  clearbody d1' d2' mp1 mp2. clear Hm He Hdoe1 Hdoe2 H H'.
  clearbody doy1 doy2 yoe1 yoe2 doe1 doe2 era1 era2.
  intros E1 E2. inversion E1; subst; clear E1. inversion E2; subst; clear E2.
  split_ifs; lia.
Qed.

(** The years with four digits. *)
Lemma civilFromDays_year (z y m d : Z) :
  -719528 <= z <= 2932896 -> civilFromDays z = (y, m, d) -> 0 <= y <= 9999.
Proof.
  intros Hz H. pose proof (civilFromDays_range _ _ _ _ H) as Hr. split.
  - destruct (Z.eq_dec z (-719528)) as [-> | Hne].
    + vm_compute in H. inversion H. lia.
    + assert (Hlt : -719528 < z) by lia.
      pose proof (civilFromDays_mono _ _ 0 1 1 y m d Hlt eq_refl H). lia.
  - destruct (Z.eq_dec z 2932896) as [-> | Hne].
    + vm_compute in H. inversion H. lia.
    + assert (Hlt : z < 2932896) by lia.
      pose proof (civilFromDays_mono _ _ y m d 9999 12 31 Hlt H eq_refl).
      lia.
Qed.

Lemma timeOfDay_mono (t1 t2 : Z) :
  0 <= t1 -> t1 < t2 -> t2 < 86400000 ->
  t1 / 3600000 < t2 / 3600000
  \/ (t1 / 3600000 = t2 / 3600000
      /\ ((t1 / 60000) mod 60 < (t2 / 60000) mod 60
          \/ ((t1 / 60000) mod 60 = (t2 / 60000) mod 60
              /\ ((t1 / 1000) mod 60 < (t2 / 1000) mod 60
                  \/ ((t1 / 1000) mod 60 = (t2 / 1000) mod 60
                      /\ t1 mod 1000 < t2 mod 1000))))).
Proof. intros. Z.div_mod_to_equations; lia. Qed.

Lemma timeOfDay_range (t : Z) :
  0 <= t < 86400000 ->
  0 <= t / 3600000 < 100 /\ 0 <= (t / 60000) mod 60 < 100
  /\ 0 <= (t / 1000) mod 60 < 100 /\ 0 <= t mod 1000 < 1000.
Proof. intros. Z.div_mod_to_equations; lia. Qed.

Local Open Scope string_scope.

Lemma field_lt (w : nat) (a1 a2 : Z) (sep r1 r2 : string) :
  (0 <= a1 < 10 ^ Z.of_nat w)%Z -> (0 <= a2 < 10 ^ Z.of_nat w)%Z ->
  (a1 < a2)%Z \/ (a1 = a2 /\ String.compare r1 r2 = Datatypes.Lt) ->
  String.compare (padDigits w a1 ++ sep ++ r1) (padDigits w a2 ++ sep ++ r2)
  = Datatypes.Lt.
Proof.
  intros H1 H2 H.
  rewrite compare_app by (rewrite !padDigits_length; reflexivity).
  rewrite padDigits_compare by assumption.
  destruct H as [H | [-> H]].
  - apply Z.compare_lt_iff in H. rewrite H. reflexivity.
  - rewrite Z.compare_refl, compare_app, compare_refl by reflexivity.
    exact H.
Qed.

Lemma last_field_lt (w : nat) (a1 a2 : Z) (r : string) :
  (0 <= a1 < 10 ^ Z.of_nat w)%Z -> (0 <= a2 < 10 ^ Z.of_nat w)%Z ->
  (a1 < a2)%Z ->
  String.compare (padDigits w a1 ++ r) (padDigits w a2 ++ r) = Datatypes.Lt.
Proof.
  intros H1 H2 H.
  rewrite compare_app by (rewrite !padDigits_length; reflexivity).
  rewrite padDigits_compare by assumption.
  apply Z.compare_lt_iff in H. rewrite H. reflexivity.
Qed.

Lemma toISOString_fields (ms : Z) :
  fourDigitYear ms = true ->
  exists y m d,
    civilFromDays (ms / msPerDay) = (y, m, d)
    /\ (0 <= y <= 9999)%Z /\ (1 <= m <= 12)%Z /\ (1 <= d <= 31)%Z
    /\ exists s,
        toISOString (Some ms) = Ok s
        /\ s = padDigits 4 y ++ "-" ++ padDigits 2 m ++ "-" ++ padDigits 2 d
               ++ "T" ++ padDigits 2 ((ms mod msPerDay) / 3600000)
               ++ ":" ++ padDigits 2 (((ms mod msPerDay) / 60000) mod 60)
               ++ ":" ++ padDigits 2 (((ms mod msPerDay) / 1000) mod 60)
               ++ "." ++ padDigits 3 ((ms mod msPerDay) mod 1000) ++ "Z".
Proof.
  unfold fourDigitYear. rewrite andb_true_iff, !Z.leb_le. intros [Hlo Hhi].
  destruct (civilFromDays (ms / msPerDay)) as [[y m] d] eqn:Hc.
  exists y, m, d. split; [reflexivity |].
  assert (Hday : (-719528 <= ms / msPerDay <= 2932896)%Z)
    by (unfold msPerDay; Z.div_mod_to_equations; lia).
  pose proof (civilFromDays_year _ _ _ _ Hday Hc) as Hy.
  pose proof (civilFromDays_range _ _ _ _ Hc) as [Hm Hd].
  repeat split; try lia.
  unfold toISOString.
  assert (Hin : (8640000000000000 <? Z.abs ms)%Z = false)
    by (apply Z.ltb_ge; lia).
  rewrite Hin. cbv zeta. rewrite Hc. unfold isoYear.
  assert (Hy' : ((0 <=? y)%Z && (y <=? 9999)%Z)%bool = true)
    by (apply andb_true_iff; split; apply Z.leb_le; lia).
  rewrite Hy'. eexists. split; reflexivity.
Qed.

(** The earlier of two instants has the smaller ISO string. *)
Lemma toISOString_lt (ms1 ms2 : Z) (s1 s2 : string) :
  fourDigitYear ms1 = true -> fourDigitYear ms2 = true -> (ms1 < ms2)%Z ->
  toISOString (Some ms1) = Ok s1 -> toISOString (Some ms2) = Ok s2 ->
  String.compare s1 s2 = Datatypes.Lt.
Proof.
  intros H1 H2 Hlt E1 E2.
  destruct (toISOString_fields ms1 H1)
    as [y1 [m1 [d1 [Hc1 [Hy1 [Hm1 [Hd1 [s1' [F1 Hs1]]]]]]]]].
  destruct (toISOString_fields ms2 H2)
    as [y2 [m2 [d2 [Hc2 [Hy2 [Hm2 [Hd2 [s2' [F2 Hs2]]]]]]]]].
  assert (s1 = s1') by congruence. assert (s2 = s2') by congruence.
  subst s1 s2. rewrite Hs1, Hs2. clear E1 E2 F1 F2 Hs1 Hs2 s1' s2'.
  assert (Ht1 : (0 <= ms1 mod msPerDay < 86400000)%Z)
    by (unfold msPerDay; Z.div_mod_to_equations; lia).
  assert (Ht2 : (0 <= ms2 mod msPerDay < 86400000)%Z)
    by (unfold msPerDay; Z.div_mod_to_equations; lia).
  pose proof (timeOfDay_range _ Ht1) as [Rh1 [Rm1 [Rs1 Rl1]]].
  pose proof (timeOfDay_range _ Ht2) as [Rh2 [Rm2 [Rs2 Rl2]]].
  assert (Hsplit : (ms1 / msPerDay < ms2 / msPerDay)%Z
                   \/ (ms1 / msPerDay = ms2 / msPerDay
                       /\ (ms1 mod msPerDay < ms2 mod msPerDay)%Z))
    by (unfold msPerDay; Z.div_mod_to_equations; lia).
  assert (Hdate : (y1 < y2)%Z
                  \/ (y1 = y2
                      /\ ((m1 < m2)%Z
                          \/ (m1 = m2
                              /\ ((d1 < d2)%Z
                                  \/ (d1 = d2
                                      /\ (ms1 mod msPerDay
                                          < ms2 mod msPerDay)%Z)))))).
  { destruct Hsplit as [Hd | [Hd Ht]].
    - pose proof (civilFromDays_mono _ _ _ _ _ _ _ _ Hd Hc1 Hc2). lia.
    - rewrite Hd in Hc1. rewrite Hc1 in Hc2. inversion Hc2; subst.
      right. split; [reflexivity |]. right. split; [reflexivity |].
      right. split; [reflexivity | exact Ht]. }
  assert (P4 : (10 ^ Z.of_nat 4 = 10000)%Z) by reflexivity.
  assert (P3 : (10 ^ Z.of_nat 3 = 1000)%Z) by reflexivity.
  assert (P2 : (10 ^ Z.of_nat 2 = 100)%Z) by reflexivity.
  apply field_lt; [lia | lia |].
  destruct Hdate as [Hd | [-> Hdate]]; [left; exact Hd | right].
  split; [reflexivity |]. apply field_lt; [lia | lia |].
  destruct Hdate as [Hd | [-> Hdate]]; [left; exact Hd | right].
  split; [reflexivity |]. apply field_lt; [lia | lia |].
  destruct Hdate as [Hd | [-> Hdate]]; [left; exact Hd | right].
  split; [reflexivity |].
  destruct (timeOfDay_mono _ _ (proj1 Ht1) Hdate (proj2 Ht2))
    as [Hh | [Hh [Hmi | [Hmi [Hs | [Hs Hl]]]]]].
  - apply field_lt; [lia | lia | left; exact Hh].
  - apply field_lt; [lia | lia | right]. split; [exact Hh |].
    apply field_lt; [lia | lia | left; exact Hmi].
  - apply field_lt; [lia | lia | right]. split; [exact Hh |].
    apply field_lt; [lia | lia | right]. split; [exact Hmi |].
    apply field_lt; [lia | lia | left; exact Hs].
  - apply field_lt; [lia | lia | right]. split; [exact Hh |].
    apply field_lt; [lia | lia | right]. split; [exact Hmi |].
    apply field_lt; [lia | lia | right]. split; [exact Hs |].
    apply last_field_lt; [lia | lia | exact Hl].
Qed.

Lemma toISOString_compare (ms1 ms2 : Z) (s1 s2 : string) :
  fourDigitYear ms1 = true -> fourDigitYear ms2 = true ->
  toISOString (Some ms1) = Ok s1 -> toISOString (Some ms2) = Ok s2 ->
  String.compare s1 s2 = (ms1 ?= ms2)%Z.
Proof.
  intros H1 H2 E1 E2.
  destruct (Z.compare_spec ms1 ms2) as [Heq | Hlt | Hgt].
  - subst ms2. rewrite E1 in E2. inversion E2. apply compare_refl.
  - exact (toISOString_lt _ _ _ _ H1 H2 Hlt E1 E2).
  - rewrite String.compare_antisym.
    rewrite (toISOString_lt _ _ _ _ H2 H1 Hgt E2 E1). reflexivity.
Qed.

Lemma ltb_compare (a b : string) :
  String.ltb a b = true <-> String.compare a b = Datatypes.Lt.
Proof.
  unfold String.ltb. destruct (String.compare a b); split; congruence.
Qed.

Lemma leb_compare (a b : string) :
  String.leb a b = true <-> String.compare a b <> Datatypes.Gt.
Proof.
  unfold String.leb. destruct (String.compare a b); split; congruence.
Qed.

Lemma compare_le_lt_trans (a b c : string) :
  String.compare a b <> Datatypes.Gt -> String.compare b c = Datatypes.Lt ->
  String.compare a c = Datatypes.Lt.
Proof.
  intros H1 H2. destruct (String.compare a b) eqn:H; [| | congruence].
  - apply String.compare_eq_iff in H. subst. exact H2.
  - exact (compare_lt_trans _ _ _ H H2).
Qed.

Lemma compare_lt_le_trans (a b c : string) :
  String.compare a b = Datatypes.Lt -> String.compare b c <> Datatypes.Gt ->
  String.compare a c = Datatypes.Lt.
Proof.
  intros H1 H2. destruct (String.compare b c) eqn:H; [| | congruence].
  - apply String.compare_eq_iff in H. subst. exact H1.
  - exact (compare_lt_trans _ _ _ H1 H).
Qed.

Lemma compare_le_trans (a b c : string) :
  String.compare a b <> Datatypes.Gt -> String.compare b c <> Datatypes.Gt ->
  String.compare a c <> Datatypes.Gt.
Proof.
  intros H1 H2. destruct (String.compare b c) eqn:H; [| | congruence].
  - apply String.compare_eq_iff in H. subst. exact H1.
  - rewrite (compare_le_lt_trans _ _ _ H1 H). discriminate.
Qed.

Lemma compareStrings_instants (c : comparator) (t d : Z) (s iso : string) :
  fourDigitYear t = true -> fourDigitYear d = true ->
  toISOString (Some t) = Ok s -> toISOString (Some d) = Ok iso ->
  compareStrings c s iso
  = match c with
    | Gt => (d <? t)%Z
    | Ge => (d <=? t)%Z
    | Lt => (t <? d)%Z
    | Le => (t <=? d)%Z
    end.
Proof.
  intros Ht Hd Hs Hiso.
  pose proof (toISOString_compare t d s iso Ht Hd Hs Hiso) as H1.
  pose proof (toISOString_compare d t iso s Hd Ht Hiso Hs) as H2.
  destruct c; unfold compareStrings, String.ltb, String.leb, Z.ltb, Z.leb;
    rewrite ?H1, ?H2; reflexivity.
Qed.

(** X24.  Normalized dates compare in the order of time.  For two instants
    in the years 0000 to 9999, [toISOString] returns, and on a record whose
    [created_at] (or [updated_at]) is the ISO string of the first, the
    matcher of each comparator against the ISO string of the second
    answers as the comparison of the instants does. *)
Theorem X24_normalized_dates_compare_in_time_order (t d : Z) :
  fourDigitYear t = true -> fourDigitYear d = true ->
  exists at_ dateString,
    toISOString (Some t) = Ok at_
    /\ toISOString (Some d) = Ok dateString
    /\ (forall issue,
          get issue "created_at" = Ok (VStr at_) ->
          filterCreated (matchTemporal (Some ">") dateString) issue
          = Ok (Data (VBool (d <? t)%Z))
          /\ filterCreated (matchTemporal (Some ">=") dateString) issue
             = Ok (Data (VBool (d <=? t)%Z))
          /\ filterCreated (matchTemporal (Some "<") dateString) issue
             = Ok (Data (VBool (t <? d)%Z))
          /\ filterCreated (matchTemporal (Some "<=") dateString) issue
             = Ok (Data (VBool (t <=? d)%Z)))
    /\ (forall issue,
          get issue "updated_at" = Ok (VStr at_) ->
          filterUpdated (matchTemporal (Some ">") dateString) issue
          = Ok (Data (VBool (d <? t)%Z))
          /\ filterUpdated (matchTemporal (Some ">=") dateString) issue
             = Ok (Data (VBool (d <=? t)%Z))
          /\ filterUpdated (matchTemporal (Some "<") dateString) issue
             = Ok (Data (VBool (t <? d)%Z))
          /\ filterUpdated (matchTemporal (Some "<=") dateString) issue
             = Ok (Data (VBool (t <=? d)%Z))).
Proof.
  intros Ht Hd.
  destruct (toISOString_fields t Ht)
    as [? [? [? [_ [_ [_ [_ [s [Hs _]]]]]]]]].
  destruct (toISOString_fields d Hd)
    as [? [? [? [_ [_ [_ [_ [iso [Hiso _]]]]]]]]].
  exists s, iso. split; [exact Hs |]. split; [exact Hiso |].
  assert (H : forall q c,
             comparatorOf q = Some c ->
             matchTemporal q iso (VStr s)
             = Ok (Data (VBool match c with
                               | Gt => (d <? t)%Z
                               | Ge => (d <=? t)%Z
                               | Lt => (t <? d)%Z
                               | Le => (t <=? d)%Z
                               end))).
  { intros q c Hq. rewrite (matchTemporal_string q c iso s Hq).
    rewrite (compareStrings_instants c t d s iso Ht Hd Hs Hiso).
    reflexivity. }
  split; intros issue Hget.
  - unfold filterCreated. rewrite Hget. cbn [bind].
    rewrite (H (Some ">") Gt eq_refl), (H (Some ">=") Ge eq_refl),
      (H (Some "<") Lt eq_refl), (H (Some "<=") Le eq_refl).
    repeat split.
  - unfold filterUpdated. rewrite Hget. cbn [bind].
    rewrite (H (Some ">") Gt eq_refl), (H (Some ">=") Ge eq_refl),
      (H (Some "<") Lt eq_refl), (H (Some "<=") Le eq_refl).
    repeat split.
Qed.

Lemma created_accepts (q : option string) (c : comparator) (iso : string)
      (issue : jsval) :
  comparatorOf q = Some c ->
  accepts issue (filterCreated (matchTemporal q iso))
  <-> exists a s,
        get issue "created_at" = Ok a /\ toPrimitive a = Ok (VStr s)
        /\ compareStrings c s iso = true.
Proof.
  intros Hq. unfold accepts, filterCreated.
  destruct (get issue "created_at") as [a | e]; cbn [bind].
  - rewrite (matchTemporal_accepts q c iso a Hq). split.
    + intros [s [Hs Hc]]. exists a, s. auto.
    + intros [a' [s [Ha [Hs Hc]]]]. inversion Ha; subst a'. eauto.
  - split.
    + intros [r [Hr _]]. discriminate.
    + intros [a [s [Ha _]]]. discriminate.
Qed.

(** X25.  A later bound accepts fewer records, an earlier one more.  For
    two dates in the years 0000 to 9999, the first not after the second,
    every record that [>] (or [>=]) the second accepts is accepted by the
    same comparator against the first, and every record that [<] (or
    [<=]) the first accepts is accepted against the second, whatever the
    record holds as [created_at]. *)
Theorem X25_a_later_bound_accepts_fewer
    (d1 d2 : Z) (iso1 iso2 : string) (issue : jsval) :
  fourDigitYear d1 = true -> fourDigitYear d2 = true -> (d1 <= d2)%Z ->
  toISOString (Some d1) = Ok iso1 -> toISOString (Some d2) = Ok iso2 ->
  (accepts issue (filterCreated (matchTemporal (Some ">") iso2)) ->
   accepts issue (filterCreated (matchTemporal (Some ">") iso1)))
  /\ (accepts issue (filterCreated (matchTemporal (Some ">=") iso2)) ->
      accepts issue (filterCreated (matchTemporal (Some ">=") iso1)))
  /\ (accepts issue (filterCreated (matchTemporal (Some "<") iso1)) ->
      accepts issue (filterCreated (matchTemporal (Some "<") iso2)))
  /\ (accepts issue (filterCreated (matchTemporal (Some "<=") iso1)) ->
      accepts issue (filterCreated (matchTemporal (Some "<=") iso2))).
Proof.
  intros H1 H2 Hle E1 E2.
  assert (Hc : String.compare iso1 iso2 <> Datatypes.Gt).
  { rewrite (toISOString_compare d1 d2 iso1 iso2 H1 H2 E1 E2).
    intros H. apply Z.compare_gt_iff in H. lia. }
  rewrite !(created_accepts (Some ">") Gt) by reflexivity.
  rewrite !(created_accepts (Some ">=") Ge) by reflexivity.
  rewrite !(created_accepts (Some "<") Lt) by reflexivity.
  rewrite !(created_accepts (Some "<=") Le) by reflexivity.
  unfold compareStrings.
  repeat split; intros [a [s [Ha [Hs H]]]]; exists a, s;
    (split; [exact Ha |]); (split; [exact Hs |]).
  - apply ltb_compare. apply ltb_compare in H.
    exact (compare_le_lt_trans _ _ _ Hc H).
  - apply leb_compare. apply leb_compare in H.
    exact (compare_le_trans _ _ _ Hc H).
  - apply ltb_compare. apply ltb_compare in H.
    exact (compare_lt_le_trans _ _ _ H Hc).
  - apply leb_compare. apply leb_compare in H.
    exact (compare_le_trans _ _ _ H Hc).
Qed.

Lemma padDigits_app (w : nat) (n : Z) :
  padDigits (S w) n
  = padDigits w (n / 10)
    ++ String (ascii_of_nat (48 + Z.to_nat (n mod 10))) "".
Proof. reflexivity. Qed.

(** X26.  Beyond the years with four digits the order is lost.  For a
    valid date before the year 0000 or after the year 9999, [toISOString]
    returns a string that starts with a sign, which sorts before every
    digit: against such a date [>] and [>=] accept every record whose
    [created_at] is a string that starts with a digit, and [<] and [<=]
    accept none of them, whatever the instants are. *)
Theorem X26_signed_years_sort_before_every_timestamp
    (d : Z) (c : ascii) (rest : string) (issue : jsval) :
  fourDigitYear d = false -> (Z.abs d <= 8640000000000000)%Z ->
  (48 <= nat_of_ascii c <= 57)%nat ->
  get issue "created_at" = Ok (VStr (String c rest)) ->
  exists dateString,
    toISOString (Some d) = Ok dateString
    /\ filterCreated (matchTemporal (Some ">") dateString) issue
       = Ok (Data (VBool true))
    /\ filterCreated (matchTemporal (Some ">=") dateString) issue
       = Ok (Data (VBool true))
    /\ filterCreated (matchTemporal (Some "<") dateString) issue
       = Ok (Data (VBool false))
    /\ filterCreated (matchTemporal (Some "<=") dateString) issue
       = Ok (Data (VBool false)).
Proof.
  intros Hout Hvalid Hc Hget.
  assert (Hiso : exists sign tail,
             toISOString (Some d) = Ok (String sign tail)
             /\ (nat_of_ascii sign < 48)%nat).
  { unfold toISOString.
    assert (Hin : (8640000000000000 <? Z.abs d)%Z = false)
      by (apply Z.ltb_ge; lia).
    rewrite Hin. cbv zeta.
    destruct (civilFromDays (d / msPerDay)) as [[y m] dd] eqn:Hciv.
    pose proof (civilFromDays_range _ _ _ _ Hciv) as [Hm Hd].
    unfold fourDigitYear in Hout. apply andb_false_iff in Hout.
    assert (Hy : (y < 0)%Z \/ (9999 < y)%Z).
    { destruct Hout as [Hlo | Hhi].
      - apply Z.leb_gt in Hlo. left.
        assert (Hday : (d / msPerDay < -719528)%Z)
          by (unfold msPerDay; Z.div_mod_to_equations; lia).
        pose proof (civilFromDays_mono _ _ y m dd 0 1 1 Hday Hciv eq_refl).
        lia.
      - apply Z.leb_gt in Hhi. right.
        assert (Hday : (2932896 < d / msPerDay)%Z)
          by (unfold msPerDay; Z.div_mod_to_equations; lia).
        pose proof (civilFromDays_mono _ _ 9999 12 31 y m dd Hday eq_refl
                      Hciv).
        lia. }
    unfold isoYear.
    destruct Hy as [Hy | Hy].
    - assert (E : ((0 <=? y)%Z && (y <=? 9999)%Z)%bool = false)
        by (apply andb_false_iff; left; apply Z.leb_gt; lia).
      rewrite E. apply Z.ltb_lt in Hy. rewrite Hy.
      eexists. eexists. split; [reflexivity | vm_compute; lia].
    - assert (E : ((0 <=? y)%Z && (y <=? 9999)%Z)%bool = false)
        by (apply andb_false_iff; right; apply Z.leb_gt; lia).
      rewrite E.
      assert (E' : (y <? 0)%Z = false) by (apply Z.ltb_ge; lia).
      rewrite E'.
      eexists. eexists. split; [reflexivity | vm_compute; lia]. }
  destruct Hiso as [sign [tail [Hiso Hsign]]].
  exists (String sign tail). split; [exact Hiso |].
  assert (Hlt : String.compare (String sign tail) (String c rest)
                = Datatypes.Lt).
  { cbn [String.compare]. unfold Ascii.compare.
    assert (H : (N_of_ascii sign < N_of_ascii c)%N).
    { unfold nat_of_ascii in *. lia. }
    apply N.compare_lt_iff in H. rewrite H. reflexivity. }
  assert (Hgt : String.compare (String c rest) (String sign tail)
                = Datatypes.Gt)
    by (rewrite String.compare_antisym, Hlt; reflexivity).
  unfold filterCreated. rewrite Hget. cbn [bind].
  rewrite (matchTemporal_string (Some ">") Gt _ _ eq_refl).
  rewrite (matchTemporal_string (Some ">=") Ge _ _ eq_refl).
  rewrite (matchTemporal_string (Some "<") Lt _ _ eq_refl).
  rewrite (matchTemporal_string (Some "<=") Le _ _ eq_refl).
  unfold compareStrings, String.ltb, String.leb. rewrite Hlt, Hgt.
  repeat split.
Qed.

Lemma length_app (a b : string) :
  String.length (a ++ b) = (String.length a + String.length b)%nat.
Proof.
  induction a as [| c a IH]; simpl; [reflexivity |]. rewrite IH. reflexivity.
Qed.

Lemma toISOString_seconds (ms : Z) :
  (Z.abs ms <= 8640000000000000)%Z ->
  toISOString (Some ms)
  = Ok (isoSeconds ms ++ "."
        ++ padDigits 3 ((ms mod msPerDay) mod 1000) ++ "Z").
Proof.
  intros H. unfold toISOString, isoSeconds.
  assert (Hin : (8640000000000000 <? Z.abs ms)%Z = false)
    by (apply Z.ltb_ge; lia).
  rewrite Hin. cbv zeta.
  destruct (civilFromDays (ms / msPerDay)) as [[y m] d].
  rewrite !string_app_assoc. reflexivity.
Qed.

Lemma isoSeconds_length (ms : Z) :
  fourDigitYear ms = true -> String.length (isoSeconds ms) = 19%nat.
Proof.
  intros H.
  destruct (toISOString_fields ms H)
    as [y [m [d [Hc [Hy _]]]]].
  unfold isoSeconds. cbv zeta. rewrite Hc. unfold isoYear.
  assert (Hy' : ((0 <=? y)%Z && (y <=? 9999)%Z)%bool = true)
    by (apply andb_true_iff; split; apply Z.leb_le; lia).
  rewrite Hy'. rewrite !length_app, !padDigits_length. reflexivity.
Qed.

Lemma isoSeconds_floor (ms : Z) :
  isoSeconds (ms - ms mod 1000) = isoSeconds ms.
Proof.
  unfold isoSeconds. cbv zeta.
  assert (E1 : ((ms - ms mod 1000) / msPerDay = ms / msPerDay)%Z)
    by (unfold msPerDay; Z.div_mod_to_equations; lia).
  assert (E2 : (((ms - ms mod 1000) mod msPerDay) / 3600000
                = (ms mod msPerDay) / 3600000)%Z)
    by (unfold msPerDay; Z.div_mod_to_equations; lia).
  assert (E3 : ((((ms - ms mod 1000) mod msPerDay) / 60000) mod 60
                = ((ms mod msPerDay) / 60000) mod 60)%Z)
    by (unfold msPerDay; Z.div_mod_to_equations; lia).
  assert (E4 : ((((ms - ms mod 1000) mod msPerDay) / 1000) mod 60
                = ((ms mod msPerDay) / 1000) mod 60)%Z)
    by (unfold msPerDay; Z.div_mod_to_equations; lia).
  rewrite E1, E2, E3, E4. reflexivity.
Qed.

Lemma fourDigitYear_floor (ms : Z) :
  fourDigitYear ms = true -> fourDigitYear (ms - ms mod 1000) = true.
Proof.
  unfold fourDigitYear. rewrite !andb_true_iff, !Z.leb_le.
  intros [H1 H2]. Z.div_mod_to_equations. lia.
Qed.

Lemma same_tail (a b r : string) :
  String.length a = String.length b ->
  String.compare (a ++ r) (b ++ r) = String.compare a b.
Proof.
  intros H. rewrite (compare_app a b r r H), compare_refl.
  destruct (String.compare a b); reflexivity.
Qed.

(** To the second, the strings order as the seconds do. *)
Lemma isoSeconds_compare (t d : Z) :
  fourDigitYear t = true -> fourDigitYear d = true ->
  String.compare (isoSeconds t) (isoSeconds d) = (t / 1000 ?= d / 1000)%Z.
Proof.
  intros Ht Hd.
  pose proof (fourDigitYear_floor t Ht) as Ht'.
  pose proof (fourDigitYear_floor d Hd) as Hd'.
  assert (Hv : forall ms,
             fourDigitYear ms = true -> (Z.abs ms <= 8640000000000000)%Z).
  { intros ms H. unfold fourDigitYear in H.
    rewrite andb_true_iff, !Z.leb_le in H. lia. }
  assert (Hz : forall ms,
             (((ms - ms mod 1000) mod msPerDay) mod 1000 = 0)%Z).
  { intros ms. unfold msPerDay. Z.div_mod_to_equations. lia. }
  pose proof (toISOString_compare _ _ _ _ Ht' Hd'
                (toISOString_seconds _ (Hv _ Ht'))
                (toISOString_seconds _ (Hv _ Hd'))) as H.
  rewrite !Hz, !isoSeconds_floor in H.
  rewrite same_tail in H
    by (rewrite !isoSeconds_length by assumption; reflexivity).
  rewrite H.
  destruct (Z.compare_spec (t / 1000) (d / 1000)) as [E | E | E].
  - apply Z.compare_eq_iff. Z.div_mod_to_equations. lia.
  - apply Z.compare_lt_iff. Z.div_mod_to_equations. lia.
  - apply Z.compare_gt_iff. Z.div_mod_to_equations. lia.
Qed.

(** X27.  On the timestamps of GitHub's API, which stop at the second,
    [>] is [>=] and [<=] is [<].  For an instant and a date in the years
    0000 to 9999, a record whose [created_at] is the timestamp of the
    instant is accepted by [>] and by [>=] exactly when the instant is in
    the second of the date or later, and by [<] and by [<=] exactly when
    it is in an earlier second: a record created in the second of the date
    passes [>], and does not pass [<=]. *)
Theorem X27_timestamps_in_seconds (t d : Z) (dateString : string)
    (issue : jsval) :
  fourDigitYear t = true -> fourDigitYear d = true ->
  toISOString (Some d) = Ok dateString ->
  get issue "created_at" = Ok (VStr (githubTimestamp t)) ->
  filterCreated (matchTemporal (Some ">") dateString) issue
  = Ok (Data (VBool (d / 1000 <=? t / 1000)%Z))
  /\ filterCreated (matchTemporal (Some ">=") dateString) issue
     = Ok (Data (VBool (d / 1000 <=? t / 1000)%Z))
  /\ filterCreated (matchTemporal (Some "<") dateString) issue
     = Ok (Data (VBool (t / 1000 <? d / 1000)%Z))
  /\ filterCreated (matchTemporal (Some "<=") dateString) issue
     = Ok (Data (VBool (t / 1000 <? d / 1000)%Z)).
Proof.
  intros Ht Hd Hiso Hget.
  assert (Hv : (Z.abs d <= 8640000000000000)%Z).
  { unfold fourDigitYear in Hd. rewrite andb_true_iff, !Z.leb_le in Hd.
    lia. }
  rewrite (toISOString_seconds d Hv) in Hiso.
  assert (E : dateString
              = isoSeconds d ++ "."
                ++ padDigits 3 ((d mod msPerDay) mod 1000) ++ "Z")
    by congruence.
  subst dateString. clear Hiso.
  assert (Hc : String.compare
                 (githubTimestamp t)
                 (isoSeconds d ++ "."
                  ++ padDigits 3 ((d mod msPerDay) mod 1000) ++ "Z")
               = match (t / 1000 ?= d / 1000)%Z with
                 | Datatypes.Lt => Datatypes.Lt
                 | _ => Datatypes.Gt
                 end).
  { unfold githubTimestamp.
    rewrite compare_app
      by (rewrite !isoSeconds_length by assumption; reflexivity).
    rewrite (isoSeconds_compare t d Ht Hd).
    destruct (t / 1000 ?= d / 1000)%Z; reflexivity. }
  assert (Hc' : String.compare
                  (isoSeconds d ++ "."
                   ++ padDigits 3 ((d mod msPerDay) mod 1000) ++ "Z")
                  (githubTimestamp t)
                = match (t / 1000 ?= d / 1000)%Z with
                  | Datatypes.Lt => Datatypes.Gt
                  | _ => Datatypes.Lt
                  end).
  { rewrite String.compare_antisym, Hc.
    destruct (t / 1000 ?= d / 1000)%Z; reflexivity. }
  unfold filterCreated. rewrite Hget. cbn [bind].
  rewrite (matchTemporal_string (Some ">") Gt _ _ eq_refl).
  rewrite (matchTemporal_string (Some ">=") Ge _ _ eq_refl).
  rewrite (matchTemporal_string (Some "<") Lt _ _ eq_refl).
  rewrite (matchTemporal_string (Some "<=") Le _ _ eq_refl).
  unfold compareStrings, String.ltb, String.leb. rewrite Hc, Hc'.
  unfold Z.leb, Z.ltb. rewrite (Z.compare_antisym (t / 1000) (d / 1000)).
  destruct (t / 1000 ?= d / 1000)%Z; repeat split.
Qed.

End NormalizedDates.

(** A record of the first of June against the first of March. *)
Lemma X24_witness :
  exists at_ dateString,
    toISOString (Some 1685577600000%Z) = Ok at_
    /\ toISOString (Some 1677628800000%Z) = Ok dateString
    /\ filterCreated (matchTemporal (Some ">") dateString)
                     (issueCreated at_)
       = Ok (Data (VBool true))
    /\ filterCreated (matchTemporal (Some "<=") dateString)
                     (issueCreated at_)
       = Ok (Data (VBool false)).
Proof.
  destruct (X24_normalized_dates_compare_in_time_order
              1685577600000%Z 1677628800000%Z eq_refl eq_refl)
    as [at_ [dateString [H1 [H2 [H3 _]]]]].
  exists at_, dateString.
  split; [exact H1 |]. split; [exact H2 |].
  destruct (H3 (issueCreated at_) eq_refl) as [Hgt [_ [_ Hle]]].
  split; [exact Hgt | exact Hle].
Defined.

(** What is after the first of June is after the first of March. *)
Lemma X25_witness :
  accepts (issueCreated "2023-07-01T00:00:00Z")
          (filterCreated
             (matchTemporal (Some ">") "2023-03-01T00:00:00.000Z")).
Proof.
  assert (Hle : (1677628800000 <= 1685577600000)%Z) by lia.
  apply (proj1 (X25_a_later_bound_accepts_fewer
                  1677628800000%Z 1685577600000%Z
                  "2023-03-01T00:00:00.000Z" "2023-06-01T00:00:00.000Z"
                  (issueCreated "2023-07-01T00:00:00Z")
                  eq_refl eq_refl Hle eq_refl eq_refl)).
  eexists. split; reflexivity.
Defined.

(** Nothing is before the first day of the year 10000. *)
Lemma X26_witness :
  exists dateString,
    toISOString (Some 253402300800000%Z) = Ok dateString
    /\ filterCreated (matchTemporal (Some "<") dateString)
                     (issueCreated "2023-06-01T00:00:00Z")
       = Ok (Data (VBool false)).
Proof.
  assert (Hv : (Z.abs 253402300800000 <= 8640000000000000)%Z) by lia.
  assert (Hc : 48 <= nat_of_ascii "2"%char <= 57) by (vm_compute; lia).
  destruct (X26_signed_years_sort_before_every_timestamp
              253402300800000%Z "2" "023-06-01T00:00:00Z"
              (issueCreated "2023-06-01T00:00:00Z")
              eq_refl Hv Hc eq_refl)
    as [dateString [H1 [_ [_ [H4 _]]]]].
  exists dateString. split; [exact H1 | exact H4].
Defined.

(** A record created at midnight of the first of March passes
    [>2023-03-01] and does not pass [<=2023-03-01]. *)
Lemma X27_witness :
  githubTimestamp 1677628800000 = "2023-03-01T00:00:00Z"
  /\ filterCreated (matchTemporal (Some ">") "2023-03-01T00:00:00.000Z")
                   (issueCreated "2023-03-01T00:00:00Z")
     = Ok (Data (VBool true))
  /\ filterCreated (matchTemporal (Some "<=") "2023-03-01T00:00:00.000Z")
                   (issueCreated "2023-03-01T00:00:00Z")
     = Ok (Data (VBool false)).
Proof.
  split; [reflexivity |].
  destruct (X27_timestamps_in_seconds
              1677628800000%Z 1677628800000%Z "2023-03-01T00:00:00.000Z"
              (issueCreated "2023-03-01T00:00:00Z")
              eq_refl eq_refl eq_refl eq_refl) as [H1 [_ [_ H4]]].
  split; [exact H1 | exact H4].
Defined.

(** ** Searching what the board shows *)

Lemma same_result (fn : filter) (x y : jsval) :
  fn y = fn x -> sameVerdict fn x y.
Proof.
  intros H. unfold sameVerdict, accepts, throwsOn. rewrite H.
  split; split; intros H'; exact H'.
Qed.

Lemma mapM_length {A B : Type} (f : A -> result B) (l : list A)
      (l' : list B) :
  mapM f l = Ok l' -> List.length l' = List.length l.
Proof.
  revert l'. induction l as [| x l IH]; simpl; intros l' H.
  - inversion H. reflexivity.
  - invert_binds H. inversion H; subst l'. simpl. f_equal. apply IH.
    assumption.
Qed.

Lemma someItems_mapM (f : jsval -> result jsval)
      (cb : jsval -> result answer) (l l' : list jsval) :
  (forall a b, f a = Ok b -> cb b = cb a) ->
  mapM f l = Ok l' -> someItems cb l' = someItems cb l.
Proof.
  intros Hcb. revert l'. induction l as [| x l IH]; simpl; intros l' H.
  - inversion H. reflexivity.
  - invert_binds H. inversion H; subst l'. simpl.
    rewrite (Hcb _ _ Hx), (IH _ Hx0). reflexivity.
Qed.

Lemma some_arrayMap (f : jsval -> result jsval)
      (cb : jsval -> result answer) (v v' : jsval) :
  (forall a b, f a = Ok b -> cb b = cb a) ->
  B.arrayMap v f = Ok v' ->
  some v' cb = some v cb /\ orEmpty v = v /\ orEmpty v' = v'.
Proof.
  intros Hcb H. destruct (arrayMap_array _ _ _ H) as [l [l' [-> [-> Hm]]]].
  simpl. rewrite (someItems_mapM f cb l l' Hcb Hm). repeat split.
Qed.

Lemma filterLabel_name (a b : jsval) :
  B.filterLabel a = Ok b -> get b "name" = get a "name".
Proof.
  unfold B.filterLabel. intros H. invert_binds H. inversion H.
  rewrite Hx. reflexivity.
Qed.

Lemma filterUser_login (a b : jsval) :
  B.filterUser a = Ok b -> get b "login" = get a "login".
Proof.
  unfold B.filterUser. intros H. invert_binds H. inversion H.
  rewrite Hx. reflexivity.
Qed.

Lemma filterMilestone_title (a b : jsval) :
  B.filterMilestone a = Ok b -> get b "title" = get a "title".
Proof.
  unfold B.filterMilestone. intros H. invert_binds H. inversion H.
  rewrite Hx0. reflexivity.
Qed.

Lemma filterLink_type (f : jsval -> result jsval) (a b : jsval) :
  B.filterLink f a = Ok b -> get b "type" = get a "type".
Proof.
  unfold B.filterLink. intros H. invert_binds H. inversion H.
  rewrite Hx. reflexivity.
Qed.

Lemma filterComment_user (a b : jsval) :
  B.filterComment a = Ok b ->
  exists u u',
    get a "user" = Ok u /\ get b "user" = Ok u'
    /\ get u' "login" = get u "login".
Proof.
  unfold B.filterComment. intros H. invert_binds H. inversion H.
  exists x, x1. split; [exact Hx |]. split; [reflexivity |].
  exact (filterUser_login _ _ Hx1).
Qed.

Lemma filterRepository_names (a b : jsval) :
  B.filterRepository a = Ok b ->
  get b "name" = get a "name"
  /\ exists o o',
       get a "owner" = Ok o /\ get b "owner" = Ok o'
       /\ get o' "login" = get o "login".
Proof.
  unfold B.filterRepository. intros H. invert_binds H. inversion H.
  split; [simpl; congruence |].
  exists x0, x2. split; [exact Hx0 |]. split; [reflexivity |].
  exact (filterUser_login _ _ Hx2).
Qed.

Lemma sameVerdict_results (fn : filter) (x y : jsval) :
  sameVerdict fn x y
  <-> match fn x, fn y with
      | Ok a, Ok b => toBoolean a = toBoolean b
      | Throw _, Throw _ => True
      | _, _ => False
      end.
Proof.
  unfold sameVerdict, accepts, throwsOn.
  destruct (fn x) as [a | e], (fn y) as [b | e']; split.
  - intros [[H1 H2] _].
    destruct (toBoolean a) eqn:Ha, (toBoolean b) eqn:Hb; try reflexivity.
    + destruct (H1 (ex_intro _ a (conj eq_refl Ha))) as [r [Hr Hr']].
      inversion Hr; subst r. congruence.
    + destruct (H2 (ex_intro _ b (conj eq_refl Hb))) as [r [Hr Hr']].
      inversion Hr; subst r. congruence.
  - intros H. split; split.
    + intros [r [Hr Hr']]. inversion Hr; subst r. exists b.
      split; [reflexivity | congruence].
    + intros [r [Hr Hr']]. inversion Hr; subst r. exists a.
      split; [reflexivity | congruence].
    + intros [e He]. discriminate.
    + intros [e He]. discriminate.
  - intros [_ [_ H]].
    destruct (H (ex_intro _ e' eq_refl)) as [e0 He]. discriminate.
  - intros [].
  - intros [_ [H _]].
    destruct (H (ex_intro _ e eq_refl)) as [e0 He]. discriminate.
  - intros [].
  - intros _. exact I.
  - intros _. split; split.
    + intros [r [Hr _]]. discriminate.
    + intros [r [Hr _]]. discriminate.
    + intros _. eauto.
    + intros _. eauto.
Qed.

Lemma sameVerdict_negate (fn : filter) (x y : jsval) :
  sameVerdict fn x y -> sameVerdict (negate fn) x y.
Proof.
  rewrite !sameVerdict_results. unfold negate.
  destruct (fn x) as [a | e], (fn y) as [b | e']; simpl; try tauto.
  intros ->. reflexivity.
Qed.

Lemma mapM_from {A B : Type} (f : A -> result B) (l : list A) (ys : list B)
      (y : B) :
  mapM f l = Ok ys -> In y ys -> exists x, In x l /\ f x = Ok y.
Proof.
  revert ys. induction l as [| a l IH]; simpl; intros ys H Hin.
  - inversion H; subst ys. contradiction Hin.
  - invert_binds H. inversion H; subst ys. destruct Hin as [<- | Hin].
    + exists a. split; [left; reflexivity | assumption].
    + destruct (IH _ Hx0 Hin) as [x' [Hx' Hf]].
      exists x'. split; [right; exact Hx' | exact Hf].
Qed.

Section SearchOnTheBoard.

Variable parseSearch : string -> list Term.
Variable parseTemporalFilter : string -> option TemporalFilter.
Variable issueIdent : jsval -> result jsval.
Variable getIssueByKey : string -> jsval.
Variable getIssueLinks : jsval -> jsval.
Variables CHILD_OF CLOSES : string.

Lemma filtered_parts (x y : jsval) :
  B.filterIssueOrPull x = Ok y ->
  get y "key" = get x "key"
  /\ get y "state" = get x "state"
  /\ get y "pull_request" = get x "pull_request"
  /\ (exists u u',
        get x "user" = Ok u /\ get y "user" = Ok u'
        /\ B.orNull B.filterUser u = Ok u')
  /\ (exists a a',
        get x "assignees" = Ok a /\ get y "assignees" = Ok a'
        /\ B.arrayMap a B.filterUser = Ok a')
  /\ (exists l l',
        get x "labels" = Ok l /\ get y "labels" = Ok l'
        /\ B.arrayMap l B.filterLabel = Ok l')
  /\ (exists m m',
        get x "milestone" = Ok m /\ get y "milestone" = Ok m'
        /\ B.orNull B.filterMilestone m = Ok m')
  /\ (exists r r',
        get x "repository" = Ok r /\ get y "repository" = Ok r'
        /\ B.filterRepository r = Ok r')
  /\ (exists c c',
        get x "comments" = Ok c /\ get y "comments" = Ok c'
        /\ B.filterComments (B.orDefault c) = Ok c')
  /\ (exists l l',
        get x "links" = Ok l /\ get y "links" = Ok l'
        /\ B.arrayMap (B.orDefault l) (B.filterLink B.filterIssueOrPull)
           = Ok l').
Proof.
  intros H. filtered H; same_value pr;
    (split; [simpl; congruence |]); (split; [simpl; congruence |]);
    (split; [simpl; congruence |]);
    repeat split; eexists; eexists;
      (split; [eassumption |]); (split; [reflexivity | assumption]).
Qed.


Lemma label_on_the_board (name : string) (x y : jsval) :
  B.filterIssueOrPull x = Ok y -> labelFilter name y = labelFilter name x.
Proof.
  intros H.
  destruct (filtered_parts x y H)
    as [_ [_ [_ [_ [_ [[l [l' [Hx [Hy Hm]]]] _]]]]]].
  unfold labelFilter. rewrite Hx, Hy. cbn [bind].
  destruct (some_arrayMap B.filterLabel
              (fun label => n <- get label "name" ;; includes n name)
              l l') as [Hs [Hl Hl']]; [| exact Hm |].
  - intros a b Hab. rewrite (filterLabel_name a b Hab). reflexivity.
  - rewrite Hl, Hl', Hs. reflexivity.
Qed.

Lemma assignee_on_the_board (name : string) (x y : jsval) :
  B.filterIssueOrPull x = Ok y ->
  assigneeFilter name y = assigneeFilter name x.
Proof.
  intros H.
  destruct (filtered_parts x y H)
    as [_ [_ [_ [_ [[l [l' [Hx [Hy Hm]]]] _]]]]].
  unfold assigneeFilter. rewrite Hx, Hy. cbn [bind].
  destruct (some_arrayMap B.filterUser
              (fun assignee =>
                 l <- get assignee "login" ;; fuzzyMatches l name)
              l l') as [Hs [Hl Hl']]; [| exact Hm |].
  - intros a b Hab. rewrite (filterUser_login a b Hab). reflexivity.
  - rewrite Hl, Hl', Hs. reflexivity.
Qed.

Lemma repo_on_the_board (name : string) (x y : jsval) :
  B.filterIssueOrPull x = Ok y -> repoFilter name y = repoFilter name x.
Proof.
  intros H.
  destruct (filtered_parts x y H)
    as [_ [_ [_ [_ [_ [_ [_ [[r [r' [Hx [Hy Hr]]]] _]]]]]]]].
  destruct (filterRepository_names r r' Hr)
    as [Hn [o [o' [Ho [Ho' Hl]]]]].
  unfold repoFilter. rewrite Hx, Hy. cbn [bind].
  rewrite Ho, Ho'. cbn [bind]. rewrite Hl, Hn. reflexivity.
Qed.

Lemma commented_on_the_board (name : string) (x y : jsval) :
  B.filterIssueOrPull x = Ok y ->
  commentedFilter name y = commentedFilter name x.
Proof.
  intros H.
  destruct (filtered_parts x y H)
    as [_ [_ [_ [_ [_ [_ [_ [_ [[c [c' [Hx [Hy Hc]]]] _]]]]]]]]].
  unfold commentedFilter. rewrite Hx, Hy. cbn [bind].
  unfold B.filterComments in Hc.
  destruct (isArray (B.orDefault c)) eqn:Ha.
  - destruct c; try discriminate Ha.
    + simpl in Hc. inversion Hc. reflexivity.
    + destruct (some_arrayMap B.filterComment
                  (fun comment =>
                     user <- get comment "user" ;;
                     l <- get user "login" ;; fuzzyMatches l name)
                  (VArr items) c') as [Hs _]; [| exact Hc |].
      * intros a b Hab.
        destruct (filterComment_user a b Hab) as [u [u' [Hu [Hu' Hl]]]].
        rewrite Hu, Hu'. cbn [bind]. rewrite Hl. reflexivity.
      * destruct (arrayMap_array _ _ _ Hc) as [? [? [_ [-> _]]]].
        simpl isArray. cbn [negb]. rewrite Hs. reflexivity.
  - inversion Hc. destruct c; try discriminate Ha; reflexivity.
Qed.

Lemma author_on_the_board (name : string) (x y : jsval) :
  B.filterIssueOrPull x = Ok y -> sameVerdict (authorFilter name) x y.
Proof.
  intros H.
  destruct (filtered_parts x y H)
    as [_ [_ [_ [[u [u' [Hx [Hy Hu]]]] _]]]].
  unfold B.orNull in Hu. destruct (truthy u) eqn:Ht.
  - apply same_result. unfold authorFilter. rewrite Hx, Hy. cbn [bind].
    rewrite Ht, (proj2 (filterUser_again _ _ Hu)).
    rewrite (filterUser_login _ _ Hu). reflexivity.
  - inversion Hu; subst u'.
    unfold sameVerdict, accepts, throwsOn, authorFilter.
    rewrite Hx, Hy. cbn [bind]. rewrite Ht. simpl.
    split; split;
      first [ intros [r [Hr Hr']]; inversion Hr; subst; simpl in Hr';
              congruence
            | intros [e He]; discriminate He ].
Qed.

Lemma milestone_on_the_board (name : string) (x y : jsval) :
  B.filterIssueOrPull x = Ok y -> sameVerdict (milestoneFilter name) x y.
Proof.
  intros H.
  destruct (filtered_parts x y H)
    as [_ [_ [_ [_ [_ [_ [[m [m' [Hx [Hy Hm]]]] _]]]]]]].
  unfold B.orNull in Hm. destruct (truthy m) eqn:Ht.
  - apply same_result. unfold milestoneFilter. rewrite Hx, Hy. cbn [bind].
    rewrite Ht, (proj2 (filterMilestone_again _ _ Hm)).
    rewrite (filterMilestone_title _ _ Hm). reflexivity.
  - inversion Hm; subst m'.
    unfold sameVerdict, accepts, throwsOn, milestoneFilter.
    rewrite Hx, Hy. cbn [bind]. rewrite Ht. simpl.
    split; split;
      first [ intros [r [Hr Hr']]; inversion Hr; subst; simpl in Hr';
              congruence
            | intros [e He]; discriminate He ].
Qed.


Lemma epic_on_the_board (x y : jsval) :
  B.filterIssueOrPull x = Ok y ->
  filterEpic CHILD_OF CLOSES y = filterEpic CHILD_OF CLOSES x.
Proof.
  intros H.
  destruct (filtered_parts x y H)
    as [_ [_ [_ [_ [_ [_ [_ [_ [_ [l [l' [Hx [Hy Hl]]]]]]]]]]]]].
  unfold filterEpic. rewrite Hx, Hy. cbn [bind].
  destruct (some_arrayMap
              (B.filterLink B.filterIssueOrPull)
              (fun link =>
                 type <- get link "type" ;;
                 p <- toString type ;;
                 Ok (CHILD_LINK_TYPES CHILD_OF CLOSES p))
              (B.orDefault l) l') as [Hs _]; [| exact Hl |].
  - intros a b Hab. rewrite (filterLink_type _ a b Hab). reflexivity.
  - destruct (arrayMap_array _ _ _ Hl) as [items [items' [Hi [-> _]]]].
    destruct l; try discriminate Hi.
    + simpl in Hl. inversion Hl. reflexivity.
    + cbn [B.orDefault] in Hs. simpl truthy. cbn [negb].
      rewrite Hs. reflexivity.
Qed.

Lemma is_on_the_board (v : string) (x y : jsval) :
  B.filterIssueOrPull x = Ok y ->
  isFilter CHILD_OF CLOSES v y = isFilter CHILD_OF CLOSES v x.
Proof.
  intros H.
  destruct (filtered_parts x y H)
    as [_ [Hstate [Hpr [_ [[a [a' [Ha [Ha' Hm]]]]
                             [_ [[m [m' [Hmx [Hmy Hmm]]]] _]]]]]]].
  unfold isFilter.
  assert (Hlen : get a' "length" = get a "length").
  { destruct (arrayMap_array _ _ _ Hm) as [l [l' [-> [-> Hl]]]].
    simpl. rewrite (mapM_length _ _ _ Hl). reflexivity. }
  repeat match goal with
         | |- context [if String.eqb v ?s then _ else _] =>
             destruct (String.eqb v s)
         end.
  - unfold filterAssigned. rewrite Ha, Ha'. cbn [bind]. rewrite Hlen.
    reflexivity.
  - unfold filterUnassigned. rewrite Ha, Ha'. cbn [bind]. rewrite Hlen.
    reflexivity.
  - unfold filterClosed. rewrite Hstate. reflexivity.
  - unfold filterOpen. rewrite Hstate. reflexivity.
  - unfold filterIssue. rewrite Hpr. reflexivity.
  - unfold filterPull. rewrite Hpr. reflexivity.
  - unfold filterMilestoned. rewrite Hmx, Hmy. cbn [bind].
    unfold B.orNull in Hmm. destruct (truthy m) eqn:Ht.
    + rewrite (proj2 (filterMilestone_again _ _ Hmm)). reflexivity.
    + inversion Hmm. reflexivity.
  - apply epic_on_the_board. exact H.
  - reflexivity.
Qed.

Lemma ref_on_the_board (text : string) (fn : filter) (x y : jsval) :
  referenceFilter getIssueByKey getIssueLinks text = Ok fn ->
  B.filterIssueOrPull x = Ok y -> fn y = fn x.
Proof.
  intros Hfn H. destruct (filtered_parts x y H) as [Hkey _].
  unfold referenceFilter in Hfn. cbv zeta in Hfn.
  apply bind_Ok in Hfn. destruct Hfn as [byKey [_ Hfn]].
  inversion Hfn. rewrite Hkey. reflexivity.
Qed.

Lemma term_on_the_board (user : option GitHubUser) (term : Term)
      (fn : filter) (x y : jsval) :
  In (qualifier term) keptQualifiers ->
  compileTerm parseTemporalFilter getIssueByKey getIssueLinks
              CHILD_OF CLOSES user term = Ok fn ->
  B.filterIssueOrPull x = Ok y ->
  sameVerdict fn x y.
Proof.
  intros Hq Hc H. unfold compileTerm in Hc.
  destruct (noValue (value term));
    [inversion Hc; apply same_result; reflexivity |].
  cbv zeta in Hc.
  destruct (substituteMe user _) as [v |];
    [| inversion Hc; apply same_result; reflexivity].
  assert (Hfn : exists fn0,
             sameVerdict fn0 x y
             /\ (if negated term then Ok (negate fn0) else Ok fn0) = Ok fn).
  { simpl in Hq.
    repeat (destruct Hq as [Hq | Hq]; [rewrite <- Hq in Hc |]);
      try contradiction; cbn [filters assoc ownFilters String.eqb
                               Ascii.eqb Bool.eqb] in Hc;
      try (cbn [bind] in Hc; eexists; split; [| exact Hc]).
    - apply bind_Ok in Hc. destruct Hc as [fn0 [Hfn0 Hc]].
      exists fn0. split; [| exact Hc].
      apply same_result. exact (ref_on_the_board v fn0 x y Hfn0 H).
    - apply same_result. apply is_on_the_board. exact H.
    - apply same_result. apply label_on_the_board. exact H.
    - apply same_result. apply repo_on_the_board. exact H.
    - apply milestone_on_the_board. exact H.
    - apply author_on_the_board. exact H.
    - apply same_result. apply assignee_on_the_board. exact H.
    - apply same_result. apply commented_on_the_board. exact H. }
  destruct Hfn as [fn0 [Hsame Hfn]].
  destruct (negated term); inversion Hfn; subst fn.
  - apply sameVerdict_negate. exact Hsame.
  - exact Hsame.
Qed.

(** X28.  A search with the qualifiers [ref], [is], [label], [repo],
    [milestone], [author], [assignee] and [commented] selects a record
    exactly when it selects what [filterIssueOrPull] returns for it: every
    compiled term gives the same verdict on both, and so does the compiled
    predicate. *)
Theorem X28_search_on_the_board
    (search : string) (user : option GitHubUser) (p : predicate)
    (x y : jsval) :
  Forall (fun term => In (qualifier term) keptQualifiers)
         (parseSearch search) ->
  getSearchFilter parseSearch parseTemporalFilter issueIdent
                  getIssueByKey getIssueLinks CHILD_OF CLOSES search user
  = Ok p ->
  B.filterIssueOrPull x = Ok y ->
  (forall term fn,
      In term (parseSearch search) ->
      compileTerm parseTemporalFilter getIssueByKey getIssueLinks
                  CHILD_OF CLOSES user term = Ok fn ->
      sameVerdict fn x y)
  /\ forall log log',
      fst (p x log) = Ok (VBool true) <-> fst (p y log') = Ok (VBool true).
Proof.
  intros Hq Hp H.
  assert (Hterm : forall term fn,
             In term (parseSearch search) ->
             compileTerm parseTemporalFilter getIssueByKey getIssueLinks
                         CHILD_OF CLOSES user term = Ok fn ->
             sameVerdict fn x y).
  { intros term fn Hin Hfn.
    apply (term_on_the_board user term fn x y); [| exact Hfn | exact H].
    exact (proj1 (Forall_forall _ _) Hq term Hin). }
  split; [exact Hterm |].
  unfold getSearchFilter in Hp. apply bind_Ok in Hp.
  destruct Hp as [fs [Hfs Hp]]. inversion Hp; subst p; clear Hp.
  intros log log'.
  rewrite !(searchFilter_true parseSearch parseTemporalFilter issueIdent
                              getIssueByKey getIssueLinks CHILD_OF).
  rewrite !Forall_forall.
  split; intros Hall fn Hin;
    destruct (mapM_from _ _ _ fn Hfs Hin) as [term [Hterm' Hfn]];
    destruct (Hterm term fn Hterm' Hfn) as [[Hxy Hyx] _].
  - apply Hxy, Hall, Hin.
  - apply Hyx, Hall, Hin.
Qed.

End SearchOnTheBoard.

(** The issue of the samples is open and has the label [bug], and so has
    what the board shows of it. *)
Lemma X28_witness :
  exists p y,
    compileSample "is:open label:bug -author:bob" None = Ok p
    /\ B.filterIssueOrPull (storedIssue 5 VUndefined) = Ok y
    /\ fst (p (storedIssue 5 VUndefined) []) = Ok (VBool true)
    /\ fst (p y []) = Ok (VBool true).
Proof.
  eexists. eexists.
  split; [reflexivity |]. split; [vm_compute; reflexivity |].
  assert (Hx : fst (searchFilter sampleIdent
                      [isFilter "CHILD_OF" "CLOSES" "open";
                       labelFilter "bug"; negate (authorFilter "bob")]
                      (storedIssue 5 VUndefined) [])
               = Ok (VBool true)) by (vm_compute; reflexivity).
  split; [exact Hx |].
  match goal with
  | |- fst (_ ?y []) = _ =>
      destruct (X28_search_on_the_board
                  sampleParse sampleTemporal sampleIdent sampleByKey
                  sampleLinks "CHILD_OF" "CLOSES"
                  "is:open label:bug -author:bob" None
                  (searchFilter sampleIdent
                     [isFilter "CHILD_OF" "CLOSES" "open";
                      labelFilter "bug"; negate (authorFilter "bob")])
                  (storedIssue 5 VUndefined) y) as [_ Hiff]
  end.
  - change (Forall (fun term => In (qualifier term) keptQualifiers)
                   [mkTerm "is" "open" false; mkTerm "label" "bug" false;
                    mkTerm "author" "bob" true]).
    do 3 (constructor; [simpl; auto 10 |]). constructor.
  - reflexivity.
  - vm_compute. reflexivity.
  - apply (Hiff [] []). exact Hx.
Defined.

(** [text] is not among these qualifiers: the board does not show the
    body. *)
Lemma text_sees_what_the_board_does_not :
  exists y,
    B.filterIssueOrPull (storedIssue 5 VUndefined) = Ok y
    /\ accepts (storedIssue 5 VUndefined) (textFilter "reproduce")
    /\ ~ accepts y (textFilter "reproduce").
Proof.
  eexists. split; [vm_compute; reflexivity |]. split.
  - eexists. split; vm_compute; reflexivity.
  - intros [r [Hr Ht]]. vm_compute in Hr. inversion Hr; subst r.
    discriminate Ht.
Qed.

(** ** Numbers as strings *)

(** An issue number prints as its digits. *)
Lemma numberToString_safe (n : Z) :
  (Z.abs n < 9007199254740992)%Z -> toString (VNum n) = Ok (decimal n).
Proof.
  intros H. simpl. unfold numberToString.
  apply Z.ltb_lt in H. rewrite H. reflexivity.
Qed.

(** Beyond 2^53 the digits are the shortest that give the Number back, and
    from 10^21 on there is an exponent. *)
Lemma numberToString_runs :
  toString (VNum 42) = Ok "42"
  /\ toString (VNum (-7)) = Ok "-7"
  /\ toString (VNum 9007199254740993) = Ok "9007199254740992"
  /\ toString (VNum 123456789012345683968) = Ok "123456789012345680000"
  /\ toString (VNum 999999999999999999999) = Ok "1e+21"
  /\ toString (VNum 1000000000000000000000) = Ok "1e+21"
  /\ toString (VNum (-1234567890123456789012345))
     = Ok "-1.2345678901234568e+24"
  /\ toString (VNum (2 ^ 1024)) = Ok "Infinity".
Proof.
  repeat split; vm_compute; reflexivity.
Qed.
